(** * impresso_commons.utils.s3: the JSON-lines extractors

    A shallow embedding of [read_jsonlines] and [readtext_jsonlines] of
    [impresso_commons/utils/s3.py], with the Python objects they handle
    (str, dict, the values produced by [json.loads], generators) and
    the properties of the two extractors. *)

From Stdlib Require Import List String Ascii Bool Arith ZArith Lia.
From Stdlib Require DecimalString DecimalPos DecimalZ DecimalFacts.
Import ListNotations.

Open Scope list_scope.
Open Scope string_scope.

(* ===================================================================== *)
(** * Python values *)
(* ===================================================================== *)

(** [bytes] objects. *)
Definition bytes := list Byte.byte.

(** Exceptions that can leave the code of this module.  The first two
    are raised by the interpreter itself (subscripting, [len]); the
    others are raised by the libraries the module calls. *)
Inductive exn : Type :=
| KeyError (key : string)
| TypeError
| JSONDecodeError
| OSError
| ValueError
| UnicodeDecodeError
| ClientError (code : string).

(** A Python [dict] with [str] keys: insertion ordered, one entry per
    key. *)
Definition dict (V : Type) := list (string * V).

Fixpoint dict_get {V} (d : dict V) (k : string) : option V :=
  match d with
  | [] => None
  | (k', v) :: d' => if String.eqb k' k then Some v else dict_get d' k
  end.

(** [d[k] = v]: an existing key keeps its position, a new key goes last. *)
Fixpoint dict_set {V} (d : dict V) (k : string) (v : V) : dict V :=
  match d with
  | [] => [(k, v)]
  | (k', v') :: d' =>
      if String.eqb k' k then (k', v) :: d' else (k', v') :: dict_set d' k v
  end.

Definition dict_keys {V} (d : dict V) : list string := map fst d.

(** The values [json.loads] returns.  Python's numbers ([int], [float])
    are never inspected by this module, they stay a type parameter. *)
Unset Elimination Schemes.
Inductive json (number : Type) : Type :=
| JNull
| JBool (b : bool)
| JNum (n : number)
| JStr (s : string)
| JList (l : list (json number))
| JDict (d : list (string * json number)).
Set Elimination Schemes.

Arguments JNull {number}.
Arguments JBool {number} b.
Arguments JNum {number} n.
Arguments JStr {number} s.
Arguments JList {number} l.
Arguments JDict {number} d.

(** [v[k]] for a [str] key [k]. *)
Definition getitem {number} (v : json number) (k : string)
  : exn + json number :=
  match v with
  | JDict d =>
      match dict_get d k with
      | Some x => inr x
      | None => inl (KeyError k)
      end
  | JList _ => inl TypeError
  | JStr _ => inl TypeError
  | JNum _ => inl TypeError
  | JBool _ => inl TypeError
  | JNull => inl TypeError
  end.

(** [len(v)]. *)
Definition py_len {number} (v : json number) : exn + nat :=
  match v with
  | JStr s => inr (String.length s)
  | JList l => inr (List.length l)
  | JDict d => inr (List.length d)
  | JNum _ => inl TypeError
  | JBool _ => inl TypeError
  | JNull => inl TypeError
  end.

(** A Python [str] is a [string]: one character of the model for one
    character of the text.

    [s.split(sep)] for a one-character separator: never empty, the
    pieces between consecutive separators, empty pieces included. *)
Fixpoint split (sep : ascii) (s : string) : list string :=
  match s with
  | EmptyString => [EmptyString]
  | String c s' =>
      if Ascii.eqb c sep then EmptyString :: split sep s'
      else match split sep s' with
           | [] => [String c EmptyString]
           | piece :: pieces => String c piece :: pieces
           end
  end.

Definition newline : ascii := "010"%char.

(* ===================================================================== *)
(** * Generators *)
(* ===================================================================== *)

(** The run of a generator body: what it yields, in order, and how it
    ends, by returning ([StopIteration] for the consumer) or by an
    exception.  Every loop of this module is over a finite list, so the
    runs are finite. *)
Inductive gen (Y R : Type) : Type :=
| Return (r : R)
| Raise (e : exn)
| Yield (y : Y) (k : gen Y R).

Arguments Return {Y R} r.
Arguments Raise {Y R} e.
Arguments Yield {Y R} y k.

Fixpoint gbind {Y A B} (g : gen Y A) (f : A -> gen Y B) : gen Y B :=
  match g with
  | Return a => f a
  | Raise e => Raise e
  | Yield y k => Yield y (gbind k f)
  end.

(** A call that may raise, inside a generator body. *)
Definition call {Y A} (r : exn + A) : gen Y A :=
  match r with
  | inl e => Raise e
  | inr a => Return a
  end.

Definition yield {Y} (y : Y) : gen Y unit := Yield y (Return tt).

Definition pass {Y} : gen Y unit := Return tt.

Declare Scope gen_scope.
Delimit Scope gen_scope with gen.
Notation "x <- c ;; k" := (gbind c (fun x => k))
  (at level 61, c at next level, right associativity) : gen_scope.
Notation "c ;;; k" := (gbind c (fun _ => k))
  (at level 61, right associativity) : gen_scope.

(** [for x in xs: body]. *)
Fixpoint for_each {Y A} (xs : list A) (body : A -> gen Y unit) : gen Y unit :=
  match xs with
  | [] => Return tt
  | x :: xs' => gbind (body x) (fun _ => for_each xs' body)
  end.

(** What the consumer sees. *)
Inductive pulled (Y : Type) : Type :=
| Got (y : Y)
| StopIteration
| Raised (e : exn).

Arguments Got {Y} y.
Arguments StopIteration {Y}.
Arguments Raised {Y} e.

(** [next(g)]: the value pulled and the generator afterwards.  A generator
    that returned or raised is finished: every later pull stops. *)
Definition next {Y} (g : gen Y unit) : pulled Y * gen Y unit :=
  match g with
  | Yield y k => (Got y, k)
  | Return _ => (StopIteration, Return tt)
  | Raise e => (Raised e, Return tt)
  end.

(** What [n] successive calls of [next] give the consumer. *)
Fixpoint pulls {Y} (n : nat) (g : gen Y unit) : list (pulled Y) :=
  match n with
  | O => []
  | S n' => let (p, g') := next g in p :: pulls n' g'
  end.

(** Everything a consumer gets by iterating to the end ([list(g)] when
    no exception occurs). *)
Fixpoint yields {Y R} (g : gen Y R) : list Y :=
  match g with
  | Yield y k => y :: yields k
  | _ => []
  end.

(** How the iteration ends: [None] for a normal end, [Some e] when the
    exception [e] reaches the consumer. *)
Fixpoint failure {Y R} (g : gen Y R) : option exn :=
  match g with
  | Return _ => None
  | Raise e => Some e
  | Yield _ k => failure k
  end.

(* ===================================================================== *)
(** * The libraries and the outside world *)
(* ===================================================================== *)

(** The functions of [bz2] and [json] and the UTF-8 codec of [bytes],
    as the module calls them. *)
Class Libs (number : Type) : Type := {
  bz2_decompress : bytes -> exn + bytes;
  utf8_decode : bytes -> exn + string;
  json_loads : string -> exn + json number;
  json_dumps : json number -> string
}.

(** A boto3 S3 resource. *)
Record s3_resource : Type := {
  aws_secret_access_key : string;
  aws_access_key_id : string;
  endpoint_url : string
}.

(** What the module does not decide: the environment variables, what
    boto3 says of an endpoint URL when a resource or a client is made
    for it (the exception it raises for one it refuses, [ValueError]
    for a text that is no URL), and the object store, which answers
    [Object(bucket, key).get()['Body'].read()]. *)
Record world : Type := {
  environ : dict string;
  endpoint_error : string -> option exn;
  s3_read : s3_resource -> string -> string -> exn + bytes
}.

Definition os_environ (w : world) (name : string) : exn + string :=
  match dict_get (environ w) name with
  | Some v => inr v
  | None => inl (KeyError name)
  end.

Definition ebind {A B} (r : exn + A) (f : A -> exn + B) : exn + B :=
  match r with
  | inl e => inl e
  | inr a => f a
  end.

(* ===================================================================== *)
(** * The module *)
(* ===================================================================== *)

Definition default_host_url : string := "https://os.zhdk.cloud.switch.ch/".

(** [boto3.resource('s3', aws_secret_access_key=..., aws_access_key_id=...,
    endpoint_url=...)]: the resource, or the exception of boto3 for an
    endpoint it refuses. *)
Definition boto3_resource (w : world)
  (secret_key access_key host_url : string) : exn + s3_resource :=
  match endpoint_error w host_url with
  | Some e => inl e
  | None =>
      inr {| aws_secret_access_key := secret_key;
             aws_access_key_id := access_key;
             endpoint_url := host_url |}
  end.

Definition get_s3_resource (w : world) (host_url : option string)
  : exn + s3_resource :=
  ebind (match host_url with
         | None => os_environ w "SE_HOST_URL"
         | Some u => inr u
         end) (fun host_url =>
  ebind (os_environ w "SE_ACCESS_KEY") (fun access_key =>
  ebind (os_environ w "SE_SECRET_KEY") (fun secret_key =>
  boto3_resource w secret_key access_key host_url))).

Section Extractors.

Context {number : Type} {L : Libs number}.

Local Open Scope gen_scope.

(** [s3r = get_s3_resource()] and [s3r.Object(bucket_name, key_name)
    .get()['Body'].read()]: the bytes of the stored object. *)
Definition retrieve (w : world) (key_name bucket_name : string)
  : exn + bytes :=
  ebind (get_s3_resource w (Some default_host_url)) (fun s3r =>
  s3_read w s3r bucket_name key_name).

(** [bz2.decompress(data).decode('utf-8')]. *)
Definition decompress_text (data : bytes) : exn + string :=
  ebind (bz2_decompress data) utf8_decode.

(** The common head of both generators: everything before the loop. *)
Definition fetch_text (w : world) (key_name bucket_name : string)
  : exn + string :=
  ebind (retrieve w key_name bucket_name) decompress_text.

(** The body of the loop of [read_jsonlines]. *)
Definition keep_line (line : string) : gen string unit :=
  if negb (String.eqb line "") then yield line else pass.

Definition read_jsonlines (w : world) (key_name bucket_name : string)
  : gen string unit :=
  text <- call (fetch_text w key_name bucket_name) ;;
  for_each (split newline text) keep_line.

Definition allowed_key (k : string) : bool :=
  String.eqb k "id" || String.eqb k "s3v" || String.eqb k "ts"
  || String.eqb k "ft" || String.eqb k "tp" || String.eqb k "pp"
  || String.eqb k "lg" || String.eqb k "t".

(** [{k: article_json[k] for k in article_json if k == "id" or ...}],
    entry by entry over the keys of [article_json]. *)
Fixpoint reduce_keys (article_json : json number) (ks : list string)
  (acc : dict (json number)) : exn + dict (json number) :=
  match ks with
  | [] => inr acc
  | k :: ks' =>
      if allowed_key k then
        ebind (getitem article_json k) (fun v =>
        reduce_keys article_json ks' (dict_set acc k v))
      else reduce_keys article_json ks' acc
  end.

Definition article_reduced (article_json : json number)
  : exn + dict (json number) :=
  match article_json with
  | JDict d => reduce_keys article_json (dict_keys d) []
  | _ => inl TypeError
  end.

(** The body of the loop of [readtext_jsonlines]. *)
Definition readtext_line (line : string) : gen string unit :=
  if negb (String.eqb line "") then
    article_json <- call (json_loads line) ;;
    text <- call (getitem article_json "ft") ;;
    n <- call (py_len text) ;;
    if negb (Nat.eqb n 0) then
      reduced <- call (article_reduced article_json) ;;
      yield (json_dumps (JDict reduced))
    else pass
  else pass.

Definition readtext_jsonlines (w : world) (key_name bucket_name : string)
  : gen string unit :=
  text <- call (fetch_text w key_name bucket_name) ;;
  for_each (split newline text) readtext_line.

End Extractors.

(* ===================================================================== *)
(** * Vocabulary of the statements *)
(* ===================================================================== *)

(** The eight keys a reduced record may keep. *)
Definition allow_list : list string :=
  ["id"; "s3v"; "ts"; "ft"; "tp"; "pp"; "lg"; "t"].

(** ['\n'.join(pieces)] (any one-character separator). *)
Fixpoint join (sep : ascii) (pieces : list string) : string :=
  match pieces with
  | [] => EmptyString
  | [piece] => piece
  | piece :: pieces' => piece ++ String sep (join sep pieces')
  end.

Fixpoint contains (c : ascii) (s : string) : bool :=
  match s with
  | EmptyString => false
  | String c' s' => Ascii.eqb c' c || contains c s'
  end.

Definition nonempty (line : string) : bool := negb (String.eqb line "").

(** A value as Python builds it: no key occurs twice in a dict, at any
    depth. *)
#[warnings="-register-all"]
Inductive json_wf {number : Type} : json number -> Prop :=
| wf_null : json_wf JNull
| wf_bool b : json_wf (JBool b)
| wf_num n : json_wf (JNum n)
| wf_str s : json_wf (JStr s)
| wf_list l : Forall json_wf l -> json_wf (JList l)
| wf_dict d :
    NoDup (dict_keys d) ->
    Forall (fun kv => json_wf (snd kv)) d ->
    json_wf (JDict d).

Section Vocabulary.

Context {number : Type} {L : Libs number}.

(** The entries of [d] with an allowed key, as [d] orders them. *)
Definition allowed_entries (d : dict (json number)) : dict (json number) :=
  filter (fun kv => allowed_key (fst kv)) d.

(** The [ft] of a line, when the line is an object whose [ft] is a
    string. *)
Definition ft_text (line : string) : option string :=
  match json_loads line with
  | inr (JDict d) =>
      match dict_get d "ft" with
      | Some (JStr s) => Some s
      | _ => None
      end
  | _ => None
  end.

(** The line is an object whose [ft] is a non-empty string. *)
Definition has_text (line : string) : bool :=
  match ft_text line with
  | Some s => negb (String.eqb s "")
  | None => false
  end.

(** The serialized reduced record of a line that is an object. *)
Definition reduced_line (line : string) : string :=
  match json_loads line with
  | inr (JDict d) =>
      match article_reduced (JDict d) with
      | inr red => json_dumps (JDict red)
      | inl _ => ""
      end
  | _ => ""
  end.

(** What one turn of the loop can do. *)
Inductive line_run (line : string) : gen string unit -> Prop :=
| run_empty :
    line = "" -> line_run line pass
| run_not_json e :
    line <> "" -> json_loads line = inl e -> line_run line (Raise e)
| run_no_ft v e :
    line <> "" -> json_loads line = inr v -> getitem v "ft" = inl e ->
    line_run line (Raise e)
| run_no_len v ft e :
    line <> "" -> json_loads line = inr v -> getitem v "ft" = inr ft ->
    py_len ft = inl e -> line_run line (Raise e)
| run_no_text v ft :
    line <> "" -> json_loads line = inr v -> getitem v "ft" = inr ft ->
    py_len ft = inr 0 -> line_run line pass
| run_text d ft n red :
    line <> "" -> json_loads line = inr (JDict d) ->
    dict_get d "ft" = Some ft -> py_len ft = inr (S n) ->
    article_reduced (JDict d) = inr red ->
    line_run line (yield (json_dumps (JDict red))).

End Vocabulary.

(** Text with double quotes and line ends, for the concrete inputs. *)
Definition dq : ascii := "034"%char.
Definition quoted (s : string) : string := String dq (s ++ String dq "").
Definition nl : string := String newline "".

(** ['{"a":1}\n\n{"a":2}\n']. *)
Definition text_with_empty_line : string :=
  "{" ++ quoted "a" ++ ":1}" ++ nl ++ nl ++ "{" ++ quoted "a" ++ ":2}" ++ nl.

(** Induction on values, with the items of lists and dicts. *)
Section JsonInduction.

Context {number : Type} (P : json number -> Prop).
Hypothesis Hnull : P JNull.
Hypothesis Hbool : forall b, P (JBool b).
Hypothesis Hnum : forall n, P (JNum n).
Hypothesis Hstr : forall s, P (JStr s).
Hypothesis Hlist : forall l, Forall P l -> P (JList l).
Hypothesis Hdict : forall d, Forall (fun kv => P (snd kv)) d -> P (JDict d).

Fixpoint json_ind (v : json number) : P v :=
  match v with
  | JNull => Hnull
  | JBool b => Hbool b
  | JNum n => Hnum n
  | JStr s => Hstr s
  | JList l =>
      Hlist l
        ((fix items (l : list (json number)) : Forall P l :=
            match l with
            | [] => Forall_nil P
            | x :: l' => Forall_cons x (json_ind x) (items l')
            end) l)
  | JDict d =>
      Hdict d
        ((fix members (d : list (string * json number))
            : Forall (fun kv => P (snd kv)) d :=
            match d with
            | [] => Forall_nil _
            | (k, x) :: d' =>
                Forall_cons (P := fun kv => P (snd kv)) (k, x) (json_ind x)
                  (members d')
            end) d)
  end.

End JsonInduction.

(* ===================================================================== *)
(** * A model of the [json] module *)
(* ===================================================================== *)

(** [json.loads] and [json.dumps] (default arguments) on texts of 8-bit
    characters whose numbers are integers.  A literal with a fraction
    or an exponent, the constants [NaN] and [Infinity], and a [\u]
    escape above code 255 are outside this model: [loads] reports them
    as a decode error. *)
Module PyJson.

Definition backslash : ascii := "\"%char.

Definition is_ws (c : ascii) : bool :=
  Ascii.eqb c " " || Ascii.eqb c "009" || Ascii.eqb c "010"
  || Ascii.eqb c "013".

Fixpoint skip_ws (s : string) : string :=
  match s with
  | String c s' => if is_ws c then skip_ws s' else s
  | EmptyString => EmptyString
  end.

(** ** Strings *)

Definition hex_digit (n : nat) : ascii :=
  match n with
  | 0 => "0" | 1 => "1" | 2 => "2" | 3 => "3" | 4 => "4" | 5 => "5"
  | 6 => "6" | 7 => "7" | 8 => "8" | 9 => "9" | 10 => "a" | 11 => "b"
  | 12 => "c" | 13 => "d" | 14 => "e" | _ => "f"
  end%char.

Definition hex_value (c : ascii) : option nat :=
  let n := nat_of_ascii c in
  if ((48 <=? n) && (n <=? 57))%nat then Some (n - 48)
  else if ((97 <=? n) && (n <=? 102))%nat then Some (n - 87)
  else if ((65 <=? n) && (n <=? 70))%nat then Some (n - 55)
  else None.

(** One character of a string, as [dumps] writes it ([ensure_ascii]). *)
Definition escape_char (c : ascii) : string :=
  let n := nat_of_ascii c in
  if Ascii.eqb c dq then String backslash (String dq "")
  else if Ascii.eqb c backslash then String backslash (String backslash "")
  else if Ascii.eqb c "010" then String backslash "n"
  else if Ascii.eqb c "013" then String backslash "r"
  else if Ascii.eqb c "009" then String backslash "t"
  else if Ascii.eqb c "008" then String backslash "b"
  else if Ascii.eqb c "012" then String backslash "f"
  else if ((n <? 32) || (126 <? n))%nat then
    String backslash
      (String "u" (String "0" (String "0"
        (String (hex_digit (n / 16)) (String (hex_digit (n mod 16)) "")))))
  else String c "".

Fixpoint escape (s : string) : string :=
  match s with
  | EmptyString => EmptyString
  | String c s' => escape_char c ++ escape s'
  end.

Definition dump_str (s : string) : string :=
  String dq (escape s ++ String dq "").

(** The character a one-letter escape stands for. *)
Definition unescape (e : ascii) : option ascii :=
  if Ascii.eqb e dq then Some dq
  else if Ascii.eqb e backslash then Some backslash
  else if Ascii.eqb e "/" then Some "/"%char
  else if Ascii.eqb e "b" then Some "008"%char
  else if Ascii.eqb e "f" then Some "012"%char
  else if Ascii.eqb e "n" then Some "010"%char
  else if Ascii.eqb e "r" then Some "013"%char
  else if Ascii.eqb e "t" then Some "009"%char
  else None.

Definition hex4 (h1 h2 h3 h4 : ascii) : option nat :=
  match hex_value h1, hex_value h2, hex_value h3, hex_value h4 with
  | Some a, Some b, Some c, Some d => Some (((a * 16 + b) * 16 + c) * 16 + d)
  | _, _, _, _ => None
  end.

Definition cons_char (c : ascii) (r : option (string * string))
  : option (string * string) :=
  match r with
  | Some (t, rest) => Some (String c t, rest)
  | None => None
  end.

(** [scanstring], from just after the opening quote: the string and
    what follows its closing quote. *)
Fixpoint scanstring (s : string) : option (string * string) :=
  match s with
  | EmptyString => None
  | String c s1 =>
      if Ascii.eqb c dq then Some (EmptyString, s1)
      else if Ascii.eqb c backslash then
        match s1 with
        | EmptyString => None
        | String e s2 =>
            if Ascii.eqb e "u" then
              match s2 with
              | String h1 (String h2 (String h3 (String h4 s3))) =>
                  match hex4 h1 h2 h3 h4 with
                  | Some n =>
                      if (n <? 256)%nat
                      then cons_char (ascii_of_nat n) (scanstring s3)
                      else None
                  | None => None
                  end
              | _ => None
              end
            else
              match unescape e with
              | Some c' => cons_char c' (scanstring s2)
              | None => None
              end
        end
      else if (nat_of_ascii c <? 32)%nat then None
      else cons_char c (scanstring s1)
  end.

(** ** Numbers *)

Definition dump_int (z : Z) : string :=
  DecimalString.NilEmpty.string_of_int (Z.to_int z).

Definition digit_of (c : ascii) : option (Decimal.uint -> Decimal.uint) :=
  if Ascii.eqb c "0" then Some Decimal.D0
  else if Ascii.eqb c "1" then Some Decimal.D1
  else if Ascii.eqb c "2" then Some Decimal.D2
  else if Ascii.eqb c "3" then Some Decimal.D3
  else if Ascii.eqb c "4" then Some Decimal.D4
  else if Ascii.eqb c "5" then Some Decimal.D5
  else if Ascii.eqb c "6" then Some Decimal.D6
  else if Ascii.eqb c "7" then Some Decimal.D7
  else if Ascii.eqb c "8" then Some Decimal.D8
  else if Ascii.eqb c "9" then Some Decimal.D9
  else None.

Definition is_digit (c : ascii) : bool :=
  match digit_of c with Some _ => true | None => false end.

(** The longest run of digits at the head of [s]. *)
Fixpoint span_digits (s : string) : Decimal.uint * string :=
  match s with
  | EmptyString => (Decimal.Nil, EmptyString)
  | String c s' =>
      match digit_of c with
      | Some d => let (u, rest) := span_digits s' in (d u, rest)
      | None => (Decimal.Nil, s)
      end
  end.

(** The integer part of a number: an optional minus sign, then either
    a single zero or a digit other than zero and all the digits after it. *)
Definition scan_integer (s : string) : option (Z * string) :=
  let (negative, s1) :=
    match s with
    | String c s' => if Ascii.eqb c "-" then (true, s') else (false, s)
    | EmptyString => (false, s)
    end in
  match s1 with
  | EmptyString => None
  | String c s2 =>
      if Ascii.eqb c "0" then Some (0%Z, s2)
      else if is_digit c then
        let (u, rest) := span_digits s1 in
        Some (Z.of_int (if negative then Decimal.Neg u else Decimal.Pos u),
              rest)
      else None
  end.

(** A fraction (a dot and a digit) or an exponent ([e] or [E], an
    optional sign, a digit) at the head of [s]: the number is a float. *)
Definition float_tail (s : string) : bool :=
  match s with
  | String c (String d s') =>
      (Ascii.eqb c "." && is_digit d)
      || ((Ascii.eqb c "e" || Ascii.eqb c "E")
          && (is_digit d
              || ((Ascii.eqb d "+" || Ascii.eqb d "-")
                  && match s' with
                     | String d' _ => is_digit d'
                     | _ => false
                     end)))
  | _ => false
  end.

Definition scan_number (s : string) : option (Z * string) :=
  match scan_integer s with
  | Some (z, rest) => if float_tail rest then None else Some (z, rest)
  | None => None
  end.

(** ** Values *)

Fixpoint strip_prefix (p s : string) : option string :=
  match p, s with
  | EmptyString, _ => Some s
  | String a p', String b s' =>
      if Ascii.eqb a b then strip_prefix p' s' else None
  | String _ _, EmptyString => None
  end.

(** [dict(pairs)]. *)
Definition dict_of_pairs {V} (pairs : list (string * V)) : dict V :=
  fold_left (fun d kv => dict_set d (fst kv) (snd kv)) pairs [].

(** [scan_once] with [JSONArray] and [JSONObject].  The fuel bounds the
    nesting and the number of items; [loads] gives more than a text of
    its length can use. *)
Fixpoint scan_once (fuel : nat) (s : string) {struct fuel}
  : option (json Z * string) :=
  match fuel with
  | O => None
  | S fuel' =>
      match s with
      | EmptyString => None
      | String c s1 =>
          if Ascii.eqb c dq then
            match scanstring s1 with
            | Some (str, rest) => Some (JStr str, rest)
            | None => None
            end
          else if Ascii.eqb c "{" then
            match skip_ws s1 with
            | String c2 s2 =>
                if Ascii.eqb c2 "}" then Some (JDict [], s2)
                else if Ascii.eqb c2 dq then
                  match scan_members fuel' s2 with
                  | Some (pairs, rest) =>
                      Some (JDict (dict_of_pairs pairs), rest)
                  | None => None
                  end
                else None
            | EmptyString => None
            end
          else if Ascii.eqb c "[" then
            match skip_ws s1 with
            | String c2 s2 =>
                if Ascii.eqb c2 "]" then Some (JList [], s2)
                else
                  match scan_elements fuel' (String c2 s2) with
                  | Some (items, rest) => Some (JList items, rest)
                  | None => None
                  end
            | EmptyString => None
            end
          else if Ascii.eqb c "n" then
            match strip_prefix "null" s with
            | Some rest => Some (JNull, rest)
            | None => None
            end
          else if Ascii.eqb c "t" then
            match strip_prefix "true" s with
            | Some rest => Some (JBool true, rest)
            | None => None
            end
          else if Ascii.eqb c "f" then
            match strip_prefix "false" s with
            | Some rest => Some (JBool false, rest)
            | None => None
            end
          else
            match scan_number s with
            | Some (z, rest) => Some (JNum z, rest)
            | None => None
            end
      end
  end

(** The items of an array, from its first value on. *)
with scan_elements (fuel : nat) (s : string) {struct fuel}
  : option (list (json Z) * string) :=
  match fuel with
  | O => None
  | S fuel' =>
      match scan_once fuel' s with
      | None => None
      | Some (v, s1) =>
          match skip_ws s1 with
          | String c s2 =>
              if Ascii.eqb c "]" then Some ([v], s2)
              else if Ascii.eqb c "," then
                match scan_elements fuel' (skip_ws s2) with
                | Some (items, rest) => Some (v :: items, rest)
                | None => None
                end
              else None
          | EmptyString => None
          end
      end
  end

(** The pairs of an object, from just after the opening quote of a key. *)
with scan_members (fuel : nat) (s : string) {struct fuel}
  : option (list (string * json Z) * string) :=
  match fuel with
  | O => None
  | S fuel' =>
      match scanstring s with
      | None => None
      | Some (key, s1) =>
          match skip_ws s1 with
          | String c s2 =>
              if Ascii.eqb c ":" then
                match scan_once fuel' (skip_ws s2) with
                | None => None
                | Some (v, s3) =>
                    match skip_ws s3 with
                    | String c4 s4 =>
                        if Ascii.eqb c4 "}" then Some ([(key, v)], s4)
                        else if Ascii.eqb c4 "," then
                          match skip_ws s4 with
                          | String c5 s5 =>
                              if Ascii.eqb c5 dq then
                                match scan_members fuel' s5 with
                                | Some (pairs, rest) =>
                                    Some ((key, v) :: pairs, rest)
                                | None => None
                                end
                              else None
                          | EmptyString => None
                          end
                        else None
                    | EmptyString => None
                    end
                end
              else None
          | EmptyString => None
          end
      end
  end.

(** [json.loads(s)]: leading white space, one value, trailing white
    space, the end. *)
Definition loads (s : string) : exn + json Z :=
  match scan_once (2 * String.length s + 2) (skip_ws s) with
  | Some (v, rest) =>
      match skip_ws rest with
      | EmptyString => inr v
      | String _ _ => inl JSONDecodeError
      end
  | None => inl JSONDecodeError
  end.

(** [json.dumps(v)]: items after [", "], keys after [": "]. *)
Fixpoint dumps (v : json Z) : string :=
  match v with
  | JNull => "null"
  | JBool true => "true"
  | JBool false => "false"
  | JNum z => dump_int z
  | JStr s => dump_str s
  | JList l =>
      "[" ++ (fix items (l : list (json Z)) : string :=
                match l with
                | [] => ""
                | [x] => dumps x
                | x :: l' => dumps x ++ ", " ++ items l'
                end) l ++ "]"
  | JDict d =>
      "{" ++ (fix members (d : list (string * json Z)) : string :=
                match d with
                | [] => ""
                | [(k, x)] => dump_str k ++ ": " ++ dumps x
                | (k, x) :: d' =>
                    dump_str k ++ ": " ++ dumps x ++ ", " ++ members d'
                end) d ++ "}"
  end.

(** ** For the statements on [loads] and [dumps] *)

(** What may follow a value in the output of [dumps]: the end, or the
    comma or bracket that closes an item. *)
Definition delimited (rest : string) : bool :=
  match rest with
  | EmptyString => true
  | String c _ => Ascii.eqb c "," || Ascii.eqb c "]" || Ascii.eqb c "}"
  end.

Definition dump_items (l : list (json Z)) : string :=
  (fix items (l : list (json Z)) : string :=
     match l with
     | [] => ""
     | [x] => dumps x
     | x :: l' => dumps x ++ ", " ++ items l'
     end) l.

Definition dump_members (d : list (string * json Z)) : string :=
  (fix members (d : list (string * json Z)) : string :=
     match d with
     | [] => ""
     | [(k, x)] => dump_str k ++ ": " ++ dumps x
     | (k, x) :: d' => dump_str k ++ ": " ++ dumps x ++ ", " ++ members d'
     end) d.

(** Fuel that is enough to read a value back. *)
Fixpoint need (v : json Z) : nat :=
  match v with
  | JList l =>
      S ((fix items (l : list (json Z)) : nat :=
            match l with
            | [] => 0
            | x :: l' => S (need x + items l')
            end) l)
  | JDict d =>
      S ((fix members (d : list (string * json Z)) : nat :=
            match d with
            | [] => 0
            | (_, x) :: d' => S (need x + members d')
            end) d)
  | _ => 1
  end.

Definition need_items (l : list (json Z)) : nat :=
  (fix items (l : list (json Z)) : nat :=
     match l with
     | [] => 0
     | x :: l' => S (need x + items l')
     end) l.

Definition need_members (d : list (string * json Z)) : nat :=
  (fix members (d : list (string * json Z)) : nat :=
     match d with
     | [] => 0
     | (_, x) :: d' => S (need x + members d')
     end) d.

(** [dumps v] is read back as [v], whatever delimiter follows. *)
Definition reads_back (v : json Z) : Prop :=
  forall fuel rest,
    need v <= fuel -> delimited rest = true ->
    scan_once fuel (dumps v ++ rest) = Some (v, rest).

End PyJson.

(* ===================================================================== *)
(** * A test fixture *)
(* ===================================================================== *)

(** Stand-ins for the services around the module, as a unit test of it
    would set them up: an object store with one object, a boto3 that
    takes an endpoint when it is [http://] or [https://] and a host, a
    [bz2] whose streams are the magic [BZh] followed by the content as
    it is, and a decoder for texts of ASCII characters. *)
Module Fixture.

Definition magic : bytes := [Byte.x42; Byte.x5a; Byte.x68].

Definition compress (content : string) : bytes :=
  (magic ++ list_byte_of_string content)%list.

(** As [bz2.decompress], whose loop over the streams does not run when
    there are no bytes: no bytes give no bytes, and bytes that do not
    start with a stream are rejected. *)
Definition decompress (data : bytes) : exn + bytes :=
  match data with
  | [] => inr []
  | Byte.x42 :: Byte.x5a :: Byte.x68 :: content => inr content
  | _ => inl OSError
  end.

Definition decode (raw : bytes) : exn + string :=
  if forallb (fun b => (Byte.to_nat b <? 128)%nat) raw
  then inr (string_of_list_byte raw)
  else inl UnicodeDecodeError.

#[export] Instance libs : Libs Z := {|
  bz2_decompress := decompress;
  utf8_decode := decode;
  json_loads := PyJson.loads;
  json_dumps := PyJson.dumps
|}.

Definition check_endpoint (url : string) : option exn :=
  match PyJson.strip_prefix "https://" url,
        PyJson.strip_prefix "http://" url with
  | Some (String _ _), _ => None
  | _, Some (String _ _) => None
  | _, _ => Some ValueError
  end.

(** A store that holds [data] under [bucket]/[key] and nothing else. *)
Definition store (bucket key : string) (data : bytes) : world := {|
  environ := [("SE_ACCESS_KEY", "access"); ("SE_SECRET_KEY", "secret")];
  endpoint_error := check_endpoint;
  s3_read := fun _ b k =>
    if String.eqb b bucket && String.eqb k key then inr data
    else inl (ClientError "NoSuchKey")
|}.

Definition bucket : string := "test-bucket".
Definition key : string := "ABC-1900-01-01-a.jsonl.bz2".

(** The store whose object decompresses to [text]. *)
Definition holding (text : string) : world := store bucket key (compress text).

End Fixture.

(** The text of the end-to-end scenario:
    ['{"id":"1","ft":"hello world","tp":"article"}\n'] and then
    ['{"id":"2","ft":"","tp":"ad"}\n']. *)
Definition scenario_line1 : string :=
  "{" ++ quoted "id" ++ ":" ++ quoted "1" ++ "," ++ quoted "ft" ++ ":"
  ++ quoted "hello world" ++ "," ++ quoted "tp" ++ ":" ++ quoted "article"
  ++ "}".
Definition scenario_line2 : string :=
  "{" ++ quoted "id" ++ ":" ++ quoted "2" ++ "," ++ quoted "ft" ++ ":"
  ++ quoted "" ++ "," ++ quoted "tp" ++ ":" ++ quoted "ad" ++ "}".
Definition scenario_text : string :=
  scenario_line1 ++ nl ++ scenario_line2 ++ nl.



(* ===================================================================== *)
(** * Inputs of the examples *)
(* ===================================================================== *)

Definition json_object (members : list (string * string)) : string :=
  "{" ++ (fix go (ms : list (string * string)) : string :=
            match ms with
            | [] => ""
            | [(k, v)] => quoted k ++ ":" ++ v
            | (k, v) :: ms' => quoted k ++ ":" ++ v ++ "," ++ go ms'
            end) members ++ "}".

Section Records.

Context {number : Type}.

(** [{"id": "1", "ft": "hello world", "tp": "article"}]. *)
Definition scenario_record1 : dict (json number) :=
  [("id", JStr "1"); ("ft", JStr "hello world"); ("tp", JStr "article")].

(** [{"id": "2", "ft": "", "tp": "ad"}]. *)
Definition scenario_record2 : dict (json number) :=
  [("id", JStr "2"); ("ft", JStr ""); ("tp", JStr "ad")].

End Records.

(** ['{"id":"x"}'], a record without [ft], and ['{"ft":"a"}']. *)
Definition line_without_ft : string := json_object [("id", quoted "x")].
Definition line_with_ft : string := json_object [("ft", quoted "a")].
Definition text_without_ft : string :=
  line_without_ft ++ nl ++ line_with_ft ++ nl.

(** ['{"ft":[1]}']: a full text that is a list. *)
Definition line_list_ft : string := json_object [("ft", "[1]")].

(** A text whose second line is not JSON. *)
Definition text_not_json : string :=
  line_with_ft ++ nl ++ "not json" ++ nl ++ line_with_ft ++ nl.


(** Plain text where an archive is expected. *)
Definition plain_data : bytes := list_byte_of_string scenario_text.

(* ===================================================================== *)
(** * The other functions of the module *)
(* ===================================================================== *)

(** ** More of Python *)

(** The exceptions of the extractors and two more that the rest of the
    module can raise. *)
Inductive exception : Type :=
| Lib (e : exn)
| IndexError
| UnboundLocalError (name : string).

Definition lift {A} (r : exn + A) : exception + A :=
  match r with
  | inl e => inl (Lib e)
  | inr a => inr a
  end.

Definition xbind {A B} (r : exception + A) (f : A -> exception + B)
  : exception + B :=
  match r with
  | inl e => inl e
  | inr a => f a
  end.

(** [s.startswith(p)]. *)
Fixpoint startswith (s p : string) {struct p} : bool :=
  match p, s with
  | EmptyString, _ => true
  | String a p', String b s' => Ascii.eqb a b && startswith s' p'
  | String _ _, EmptyString => false
  end.

(** [s.endswith(p)]: [p] is [s] or the end of what follows its first
    character. *)
Fixpoint endswith (s p : string) : bool :=
  String.eqb s p
  || match s with
     | EmptyString => false
     | String _ s' => endswith s' p
     end.

(** [s[n:]]. *)
Fixpoint drop (n : nat) (s : string) : string :=
  match n, s with
  | O, _ => s
  | S _, EmptyString => EmptyString
  | S n', String _ s' => drop n' s'
  end.

(** [s.replace(old, new)] for one-character [old] and [new]. *)
Fixpoint replace_char (old new : ascii) (s : string) : string :=
  match s with
  | EmptyString => EmptyString
  | String c s' =>
      String (if Ascii.eqb c old then new else c) (replace_char old new s')
  end.

(** [l[0]] and [l[-1]]. *)
Definition first_item {A} (l : list A) : exception + A :=
  match l with
  | [] => inl IndexError
  | x :: _ => inr x
  end.

Fixpoint last_item {A} (l : list A) : exception + A :=
  match l with
  | [] => inl IndexError
  | [x] => inr x
  | _ :: l' => last_item l'
  end.

Definition slash : ascii := "/"%char.
Definition star : ascii := "*"%char.
Definition dash : ascii := "-"%char.

(** [os.path.join(a, *p)] of [posixpath]: a component that starts with
    a slash replaces what came before it. *)
Definition join_step (path b : string) : string :=
  if startswith b "/" then b
  else if String.eqb path "" || endswith path "/" then path ++ b
  else path ++ "/" ++ b.

Definition os_path_join (a : string) (p : list string) : string :=
  fold_left join_step p a.

(** [for item in v]: the items of a list, the keys of a dict, the
    characters of a str. *)
Fixpoint chars (s : string) : list string :=
  match s with
  | EmptyString => []
  | String c s' => String c EmptyString :: chars s'
  end.

Definition py_iter {number} (v : json number) : exn + list (json number) :=
  match v with
  | JList l => inr l
  | JDict d => inr (map JStr (dict_keys d))
  | JStr s => inr (map JStr (chars s))
  | JNum _ => inl TypeError
  | JBool _ => inl TypeError
  | JNull => inl TypeError
  end.

(** [v == s] for a str [s]. *)
Definition eq_str {number} (v : json number) (s : string) : bool :=
  match v with
  | JStr t => String.eqb t s
  | _ => false
  end.

(** ** The readers of the credentials *)

(** A boto3 client, a boto connection, the options for s3fs. *)
Record s3_client : Type := {
  client_secret_access_key : string;
  client_access_key_id : string;
  client_endpoint_url : string
}.

Record s3_connection : Type := {
  connection_access_key_id : string;
  connection_secret_access_key : string;
  connection_host : string
}.

Record storage_options : Type := {
  options_endpoint_url : string;
  options_key : string;
  options_secret : string
}.

Definition get_storage_options (w : world) : exn + storage_options :=
  ebind (os_environ w "SE_ACCESS_KEY") (fun key =>
  ebind (os_environ w "SE_SECRET_KEY") (fun secret =>
  inr {| options_endpoint_url := "https://os.zhdk.cloud.switch.ch";
         options_key := key;
         options_secret := secret |})).

(** [boto3.client('s3', aws_secret_access_key=..., aws_access_key_id=...,
    endpoint_url=...)]: the client, or the exception of boto3 for an
    endpoint it refuses. *)
Definition boto3_client (w : world)
  (secret_key access_key host_url : string) : exn + s3_client :=
  match endpoint_error w host_url with
  | Some e => inl e
  | None =>
      inr {| client_secret_access_key := secret_key;
             client_access_key_id := access_key;
             client_endpoint_url := host_url |}
  end.

Definition get_s3_client (w : world) (host_url : option string)
  : exn + s3_client :=
  ebind (match host_url with
         | None => os_environ w "SE_HOST_URL"
         | Some u => inr u
         end) (fun host_url =>
  ebind (os_environ w "SE_ACCESS_KEY") (fun access_key =>
  ebind (os_environ w "SE_SECRET_KEY") (fun secret_key =>
  boto3_client w secret_key access_key host_url))).

Definition default_host : string := "os.zhdk.cloud.switch.ch".

Definition get_s3_connection (w : world) (host : string)
  : exn + s3_connection :=
  ebind (os_environ w "SE_ACCESS_KEY") (fun access_key =>
  ebind (os_environ w "SE_SECRET_KEY") (fun secret_key =>
  inr {| connection_access_key_id := access_key;
         connection_secret_access_key := secret_key;
         connection_host := host |})).

(** ** The object store and its two client libraries *)

(** The calls the module makes on boto3, on boto and on smart_open, over
    the state of the store.  A call that only reads gives an exception
    or a value; a call that writes gives also the state afterwards.
    [get_cores] stands for [impresso_commons.utils._get_cores]. *)
Class Sdk : Type := {
  store : Type;
  (** boto3 *)
  Bucket3 : Type;
  bucket3_name : Bucket3 -> string;
  s3_Bucket : s3_resource -> option string -> exn + Bucket3;
  buckets_all : s3_resource -> store -> exn + list Bucket3;
  create_bucket3 : s3_resource -> string -> store -> (exn + Bucket3) * store;
  versioning_enable : s3_resource -> string -> store -> (exn + unit) * store;
  versioning_status : s3_resource -> string -> store -> exn + string;
  upload_file : Bucket3 -> string -> string -> store -> (exn + unit) * store;
  objects_filter : Bucket3 -> string -> store -> exn + list string;
  Version : Type;
  Field : Type;
  version_size : Version -> option nat;
  version_get : Version -> store -> exn + dict Field;
  object_versions_filter : Bucket3 -> string -> store -> exn + list Version;
  (** boto *)
  Bucket2 : Type;
  bucket2_name : Bucket2 -> string;
  get_all_buckets : s3_connection -> store -> exn + list Bucket2;
  create_bucket2 : s3_connection -> string -> store -> (exn + Bucket2) * store;
  get_versioning_status : Bucket2 -> store -> exn + string;
  Key : Type;
  key_name : Key -> string;
  get_key : Bucket2 -> string -> Key;
  get_contents_as_string : Key -> store -> exn + bytes;
  (** smart_open *)
  s3_iter_bucket :
    Bucket2 -> string -> nat -> store -> exn + list (Key * bytes);
  (** the package *)
  get_cores : nat
}.

(** ** Programs that write to the store and print *)

(** A run from a state of the store: how it ends, the state it leaves
    and the lines it printed. *)
Record run (S A : Type) : Type := {
  ended : exception + A;
  left : S;
  printed : list string
}.

Arguments ended {S A} r.
Arguments left {S A} r.
Arguments printed {S A} r.

Definition io (S A : Type) : Type := S -> run S A.

Definition io_ret {S A} (a : A) : io S A :=
  fun st => {| ended := inr a; left := st; printed := [] |}.

Definition io_raise {S A} (e : exception) : io S A :=
  fun st => {| ended := inl e; left := st; printed := [] |}.

Definition io_bind {S A B} (m : io S A) (f : A -> io S B) : io S B :=
  fun st =>
    let r := m st in
    match ended r with
    | inl e => {| ended := inl e; left := left r; printed := printed r |}
    | inr a =>
        let r' := f a (left r) in
        {| ended := ended r'; left := left r';
           printed := (printed r ++ printed r')%list |}
    end.

(** [print(line)]. *)
Definition io_print {S} (line : string) : io S unit :=
  fun st => {| ended := inr tt; left := st; printed := [line] |}.

(** A call that cannot touch the store, one that reads it, one that
    writes it. *)
Definition io_pure {S A} (r : exn + A) : io S A :=
  fun st => {| ended := lift r; left := st; printed := [] |}.

Definition io_read {S A} (op : S -> exn + A) : io S A :=
  fun st => {| ended := lift (op st); left := st; printed := [] |}.

Definition io_write {S A} (op : S -> (exn + A) * S) : io S A :=
  fun st =>
    {| ended := lift (fst (op st)); left := snd (op st); printed := [] |}.

Declare Scope io_scope.
Delimit Scope io_scope with io.
Notation "x <- c ;; k" := (io_bind c (fun x => k))
  (at level 61, c at next level, right associativity) : io_scope.
Notation "c ;;; k" := (io_bind c (fun _ => k))
  (at level 61, right associativity) : io_scope.

Section Buckets.

Context {sdk : Sdk}.

Local Open Scope io_scope.

(** The statements after the [try] of [get_bucket_boto3], once the
    bucket was created.  [bucket_versioning] is bound only under
    [if versioning]; reading it unbound raises. *)
Definition boto3_after_create (s3 : s3_resource) (name : string)
  (versioning : bool) (bucket : Bucket3) : io store (option Bucket3) :=
  bucket_versioning <-
    (if versioning
     then io_write (versioning_enable s3 name) ;;; io_ret (Some tt)
     else io_ret None) ;;
  match bucket_versioning with
  | None => io_raise (UnboundLocalError "bucket_versioning")
  | Some _ =>
      status <- io_read (versioning_status s3 name) ;;
      io_print ("Versioning: " ++ status) ;;;
      io_ret (Some bucket)
  end.

(** [assert len(bucket) > 0] guards [return bucket[0]]; the handler of
    the [AssertionError] is the branch of the empty list. *)
Definition get_bucket_boto3 (w : world) (name : string)
  (create versioning : bool) : io store (option Bucket3) :=
  s3 <- io_pure (get_s3_resource w (Some default_host_url)) ;;
  all <- io_read (buckets_all s3) ;;
  match filter (fun b => String.eqb (bucket3_name b) name) all with
  | found :: _ => io_ret (Some found)
  | [] =>
      if create then
        bucket <- io_write (create_bucket3 s3 name) ;;
        io_print ("New bucket " ++ name ++ " was created") ;;;
        boto3_after_create s3 name versioning bucket
      else
        io_print ("Bucket " ++ name ++ " not found") ;;;
        io_ret None
  end.

(** The same of [get_bucket]: the resource is made only to enable the
    versioning, and the status is asked of the bucket itself. *)
Definition boto_after_create (w : world) (name : string)
  (versioning : bool) (bucket : Bucket2) : io store (option Bucket2) :=
  (if versioning
   then
     client <- io_pure (get_s3_resource w (Some default_host_url)) ;;
     io_write (versioning_enable client name)
   else io_ret tt) ;;;
  status <- io_read (get_versioning_status bucket) ;;
  io_print status ;;;
  io_ret (Some bucket).

Definition get_bucket (w : world) (name : string)
  (create versioning : bool) : io store (option Bucket2) :=
  conn <- io_pure (get_s3_connection w default_host) ;;
  all <- io_read (get_all_buckets conn) ;;
  match filter (fun b => String.eqb (bucket2_name b) name) all with
  | found :: _ => io_ret (Some found)
  | [] =>
      if create then
        bucket <- io_write (create_bucket2 conn name) ;;
        io_print ("New bucket " ++ name ++ " was created") ;;;
        boto_after_create w name versioning bucket
      else
        io_print ("Bucket " ++ name ++ " not found") ;;;
        io_ret None
  end.

(** [upload]: the key is made first, the resource outside the [try];
    inside it every exception gives [False]. *)
Definition upload_key_name (partition_name newspaper_prefix : string)
  : exception + string :=
  xbind (last_item (split slash partition_name)) (fun file_name =>
  inr (os_path_join "/" [newspaper_prefix; file_name])).

Definition upload (w : world) (partition_name newspaper_prefix : string)
  (bucket_name : option string) : io store (bool * string) :=
  fun st =>
    match upload_key_name partition_name newspaper_prefix with
    | inl e => io_raise e st
    | inr key =>
        match get_s3_resource w (Some default_host_url) with
        | inl e => io_raise (Lib e) st
        | inr s3 =>
            match s3_Bucket s3 bucket_name with
            | inl _ => io_ret (false, partition_name) st
            | inr bucket =>
                let (r, st') := upload_file bucket partition_name key st in
                match r with
                | inl _ => io_ret (false, partition_name) st'
                | inr _ => io_ret (true, partition_name) st'
                end
            end
        end
    end.

Definition get_boto3_bucket (w : world) (bucket_name : string)
  : exn + Bucket3 :=
  ebind (get_s3_resource w (Some default_host_url)) (fun s3 =>
  s3_Bucket s3 (Some bucket_name)).

(** The name [fixed_s3fs_glob] gives to a key. *)
Definition glob_name (bucket_name key : string) : string :=
  "s3://" ++ os_path_join bucket_name [key].

(** The part of [fixed_s3fs_glob] after the bucket is known. *)
Definition glob_in (bucket : Bucket3) (bucket_name base_path : string)
  (st : store) : exception + list string :=
  match split star base_path with
  | [base; suffix_path] =>
      xbind (lift (objects_filter bucket base st)) (fun keys =>
      inr (map (glob_name bucket_name)
             (filter (fun key => endswith key suffix_path) keys)))
  | _ => inl (Lib ValueError)
  end.

Definition fixed_s3fs_glob (w : world) (path : string)
  (boto3_bucket : option Bucket3) (st : store) : exception + list string :=
  match boto3_bucket with
  | None =>
      let path := if startswith path "s3://" then drop 5 path else path in
      xbind (first_item (split slash path)) (fun bucket_name =>
      let base_path := join slash (tl (split slash path)) in
      xbind (lift (get_boto3_bucket w bucket_name)) (fun bucket =>
      glob_in bucket bucket_name base_path st))
  | Some bucket => glob_in bucket (bucket3_name bucket) path st
  end.

(** [get_s3_versions_client]: [v.get()] is called twice for each version
    that has a size. *)
Fixpoint version_ids (versions : list Version) (st : store)
  : exn + list (option Field * option Field) :=
  match versions with
  | [] => inr []
  | v :: versions' =>
      match version_size v with
      | Some _ =>
          ebind (version_get v st) (fun first =>
          ebind (version_get v st) (fun second =>
          ebind (version_ids versions' st) (fun ids =>
          inr ((dict_get first "VersionId", dict_get second "LastModified")
               :: ids))))
      | None => version_ids versions' st
      end
  end.

Definition get_s3_versions_client (client : s3_resource)
  (bucket_name key_name : string) (st : store)
  : exn + list (option Field * option Field) :=
  ebind (s3_Bucket client (Some bucket_name)) (fun bucket =>
  ebind (object_versions_filter bucket key_name st) (fun versions =>
  version_ids versions st)).

Definition get_s3_versions (w : world) (bucket_name key_name : string)
  (st : store) : exn + list (option Field * option Field) :=
  ebind (get_s3_resource w (Some default_host_url)) (fun client =>
  ebind (s3_Bucket client (Some bucket_name)) (fun bucket =>
  ebind (object_versions_filter bucket key_name st) (fun versions =>
  version_ids versions st))).

End Buckets.

Section Issues.

Context {number : Type} {L : Libs number} {sdk : Sdk}.

(** [item["m"]["tp"] == "article"]. *)
Definition is_article (item : json number) : exn + bool :=
  ebind (getitem item "m") (fun m =>
  ebind (getitem m "tp") (fun tp =>
  inr (eq_str tp "article"))).

(** [[item for item in items if item["m"]["tp"] == "article"]]. *)
Fixpoint select_articles (items : list (json number))
  : exn + list (json number) :=
  match items with
  | [] => inr []
  | item :: items' =>
      ebind (is_article item) (fun keep =>
      ebind (select_articles items') (fun articles =>
      inr (if keep then item :: articles else articles)))
  end.

(** [s3_get_articles] for an issue whose [path] is [issue_path]; the
    [print] of the listing is left out. *)
Definition s3_get_articles (issue_path : string) (bucket : Bucket2)
  (workers : option nat) (st : store) : exception + list (json number) :=
  let nb_workers :=
    match workers with
    | None => get_cores
    | Some n => n
    end in
  xbind (lift (s3_iter_bucket bucket issue_path nb_workers st))
    (fun issue_data =>
  xbind (first_item issue_data) (fun first =>
  let issue_data := snd first in
  lift (ebind (utf8_decode issue_data) (fun text =>
        ebind (json_loads text) (fun issue_json =>
        ebind (getitem issue_json "i") (fun items =>
        ebind (py_iter items) select_articles)))))).

(** [os.path.join(issue_id.replace('-', '/'), page)]. *)
Definition page_key (issue_id page : string) : string :=
  os_path_join (replace_char dash slash issue_id) [page].

(** One turn of the loop of [s3_get_pages]: the value is made before the
    key it is stored under. *)
Definition read_page (issue_id : string) (bucket : Bucket2) (st : store)
  (pages : dict (json number)) (page : string)
  : exception + dict (json number) :=
  let key := get_key bucket (page_key issue_id page) in
  xbind (lift (get_contents_as_string key st)) (fun content =>
  xbind (lift (ebind (utf8_decode content) json_loads)) (fun value =>
  xbind (last_item (split slash (key_name key))) (fun file_name =>
  inr (dict_set pages file_name value)))).

Fixpoint read_pages (issue_id : string) (bucket : Bucket2) (st : store)
  (pages : dict (json number)) (values : list string)
  : exception + dict (json number) :=
  match values with
  | [] => inr pages
  | page :: values' =>
      xbind (read_page issue_id bucket st pages page) (fun pages' =>
      read_pages issue_id bucket st pages' values')
  end.

Definition s3_get_pages (issue_id : string) (page_names : dict string)
  (bucket : Bucket2) (st : store) : exception + dict (json number) :=
  read_pages issue_id bucket st [] (map snd page_names).

End Issues.

(** ** Vocabulary for the statements on these functions *)

(** How many times [c] occurs in [s]. *)
Fixpoint count_char (c : ascii) (s : string) : nat :=
  match s with
  | EmptyString => 0
  | String c' s' => (if Ascii.eqb c' c then 1 else 0) + count_char c s'
  end.

(** What follows the last [sep] of [s], all of [s] when it has none. *)
Fixpoint last_piece (sep : ascii) (s : string) : string :=
  match s with
  | EmptyString => EmptyString
  | String _ s' => if contains sep s then last_piece sep s' else s
  end.

(** The file name of a path. *)
Definition file_name (path : string) : string := last_piece slash path.

(** ** An object store in memory *)

(** A stand-in for the store and its libraries, as a unit test would
    set it up: buckets with a versioning flag, their objects in the
    order they were put and, for each object, its versions. *)
Module Memory.

(** A version: its size and what the store answers to [get]. *)
Definition version : Type := option nat * (exn + dict string).

Record bucket : Type := {
  name : string;
  versioned : bool;
  objects : list (string * bytes);
  history : list (string * version)
}.

Definition state : Type := list bucket.

Definition find (n : string) (st : state) : option bucket :=
  List.find (fun b => String.eqb (name b) n) st.

Definition missing {A} : exn + A := inl (ClientError "NoSuchBucket").

Definition update (n : string) (f : bucket -> bucket) (st : state) : state :=
  map (fun b => if String.eqb (name b) n then f b else b) st.

Definition put (key : string) (data : bytes) (b : bucket) : bucket :=
  {| name := name b; versioned := versioned b;
     objects := (objects b ++ [(key, data)])%list; history := history b |}.

Definition enable (b : bucket) : bucket :=
  {| name := name b; versioned := true;
     objects := objects b; history := history b |}.

Definition empty_bucket (n : string) : bucket :=
  {| name := n; versioned := false; objects := []; history := [] |}.

Definition with_prefix {A} (prefix : string) (items : list (string * A))
  : list (string * A) :=
  filter (fun item => startswith (fst item) prefix) items.

#[export] Instance sdk : Sdk := {|
  store := state;
  Bucket3 := string;
  bucket3_name := fun b => b;
  s3_Bucket := fun _ n =>
    match n with
    | Some b => inr b
    | None => inl ValueError
    end;
  buckets_all := fun _ st => inr (map name st);
  create_bucket3 := fun _ n st => (inr n, (st ++ [empty_bucket n])%list);
  versioning_enable := fun _ n st =>
    match find n st with
    | Some _ => (inr tt, update n enable st)
    | None => (missing, st)
    end;
  versioning_status := fun _ n st =>
    match find n st with
    | Some b => inr (if versioned b then "Enabled" else "None")
    | None => missing
    end;
  upload_file := fun b file key st =>
    match find b st with
    | Some _ => (inr tt, update b (put key (list_byte_of_string file)) st)
    | None => (missing, st)
    end;
  objects_filter := fun b prefix st =>
    match find b st with
    | Some found => inr (map fst (with_prefix prefix (objects found)))
    | None => missing
    end;
  Version := version;
  Field := string;
  version_size := fst;
  version_get := fun v _ => snd v;
  object_versions_filter := fun b prefix st =>
    match find b st with
    | Some found => inr (map snd (with_prefix prefix (history found)))
    | None => missing
    end;
  Bucket2 := string;
  bucket2_name := fun b => b;
  get_all_buckets := fun _ st => inr (map name st);
  create_bucket2 := fun _ n st => (inr n, (st ++ [empty_bucket n])%list);
  get_versioning_status := fun b st =>
    match find b st with
    | Some found =>
        inr (if versioned found then "{'Versioning': 'Enabled'}" else "{}")
    | None => missing
    end;
  Key := string * string;
  key_name := snd;
  get_key := pair;
  get_contents_as_string := fun k st =>
    match find (fst k) st with
    | Some found =>
        match dict_get (objects found) (snd k) with
        | Some data => inr data
        | None => inl (ClientError "NoSuchKey")
        end
    | None => missing
    end;
  s3_iter_bucket := fun b prefix _ st =>
    match find b st with
    | Some found =>
        inr (map (fun item => ((b, fst item), snd item))
               (with_prefix prefix (objects found)))
    | None => missing
    end;
  get_cores := 4
|}.

(** The environment of the tests. *)
Definition env : world := Fixture.store "" "" [].

End Memory.

Section IssuesVocabulary.

Context {number : Type} {sdk : Sdk}.

(** The number of workers [s3_get_articles] asks for. *)
Definition workers_used (workers : option nat) : nat :=
  match workers with
  | None => get_cores
  | Some n => n
  end.

(** The test of the comprehension, for an item it does not fail on. *)
Definition is_article_item (item : json number) : bool :=
  match is_article item with
  | inr keep => keep
  | inl _ => false
  end.

End IssuesVocabulary.

Section VersionsVocabulary.

Context {sdk : Sdk}.

(** [v.size is not None]. *)
Definition sized (v : Version) : bool :=
  match version_size v with
  | Some _ => true
  | None => false
  end.

(** The pair made from a version that answers [get]. *)
Definition id_of (st : store) (v : Version)
  (id : option Field * option Field) : Prop :=
  exists answer,
    version_get v st = inr answer
    /\ id = (dict_get answer "VersionId", dict_get answer "LastModified").

End VersionsVocabulary.

Section PagesVocabulary.

Context {number : Type} {L : Libs number} {sdk : Sdk}.

(** The pages that can be read: their content is there and is JSON. *)
Definition readable (issue_id : string) (bucket : Bucket2) (st : store)
  (value_of : string -> json number) (page : string) : Prop :=
  exists content,
    get_contents_as_string (get_key bucket (page_key issue_id page)) st
    = inr content
    /\ ebind (utf8_decode content) json_loads = inr (value_of page).

(** What one readable page adds to the result. *)
Definition store_page (value_of : string -> json number)
  (pages : dict (json number)) (page : string) : dict (json number) :=
  dict_set pages (file_name page) (value_of page).

End PagesVocabulary.

(** ** Inputs of the examples on the store in memory *)

Module Examples.

(** The resource and the connection made in [Memory.env]. *)
Definition resource : s3_resource := {|
  aws_secret_access_key := "secret";
  aws_access_key_id := "access";
  endpoint_url := default_host_url
|}.

Definition connection : s3_connection := {|
  connection_access_key_id := "access";
  connection_secret_access_key := "secret";
  connection_host := default_host
|}.

(** An environment without the credentials. *)
Definition no_credentials : world := {|
  environ := [("SE_HOST_URL", "http://localhost:9000")];
  endpoint_error := Fixture.check_endpoint;
  s3_read := fun _ _ _ => inl (ClientError "NoSuchKey")
|}.

Definition one_bucket (objects : list (string * string))
  (history : list (string * Memory.version)) : Memory.state :=
  [{| Memory.name := "archive";
      Memory.versioned := false;
      Memory.objects :=
        map (fun o => (fst o, list_byte_of_string (snd o))) objects;
      Memory.history := history |}].

(** Three partitions, one of them left by [upload]. *)
Definition partitions : Memory.state :=
  one_bucket [("GDL/GDL-1900.jsonl.bz2", "a");
              ("GDL/GDL-1901.jsonl", "b");
              ("/GDL/GDL-1902.jsonl.bz2", "c");
              ("GDL/", "d")] [].

(** ['{"id":"a1","m":{"tp":"article"}}'] and the like. *)
Definition item (id tp : string) : string :=
  json_object [("id", quoted id); ("m", json_object [("tp", quoted tp)])].

Definition issue_of (items : list string) : string :=
  json_object [("i", "[" ++ join ","%char items ++ "]")].

Definition issue_path : string := "GDL/1900/01/01/a/GDL-1900-01-01-a-issue".

Definition issue_key : string := issue_path ++ ".json".

(** An issue with two articles around an advertisement, and a second
    object under the same prefix. *)
Definition issue_text : string :=
  issue_of [item "a1" "article"; item "a2" "ad"; item "a3" "article"].

Definition with_issue (text : string) : Memory.state :=
  one_bucket [(issue_key, text); (issue_path ++ ".txt", "not json")] [].

(** The same with other objects after the first. *)
Definition with_issue_only (text : string) : Memory.state :=
  one_bucket [(issue_key, text)] [].

(** An issue whose second item has no [m]. *)
Definition untyped_text : string :=
  issue_of [item "a1" "article"; json_object [("id", quoted "a2")];
            item "a3" "article"].

(** An issue whose items are in a dict. *)
Definition dict_text : string :=
  json_object [("i", json_object [("a1", item "a1" "article")])].

(** What [json.loads] makes of an item. *)
Definition item_json (id tp : string) : json Z :=
  JDict [("id", JStr id); ("m", JDict [("tp", JStr tp)])].

(** The pages of an issue, two of them with the same file name. *)
Definition issue_id : string := "GDL-1900-01-01-a".

Definition page_text (id : string) : string := json_object [("id", quoted id)].

Definition page_json (id : string) : json Z := JDict [("id", JStr id)].

Definition with_pages : Memory.state :=
  one_bucket [("GDL/1900/01/01/a/p1.json", page_text "p1");
              ("GDL/1900/01/01/a/old/p2.json", page_text "old p2");
              ("GDL/1900/01/01/a/new/p2.json", page_text "new p2");
              ("/p3.json", page_text "p3")] [].

Definition page_names : dict string :=
  [("1", "p1.json"); ("2", "old/p2.json"); ("3", "new/p2.json")].

(** The same with a page that is not in the store. *)
Definition page_names_missing : dict string :=
  [("1", "p1.json"); ("2", "p4.json"); ("3", "new/p2.json")].

(** Pages given with their full keys. *)
Definition page_names_rooted : dict string :=
  [("3", "/p3.json")].

Definition value_of (page : string) : json Z :=
  if String.eqb page "p1.json" then page_json "p1"
  else if String.eqb page "old/p2.json" then page_json "old p2"
  else page_json "new p2".

(** The versions of a key: the second is a delete marker, the third
    has no date. *)
Definition answered (id : string) (date : option string)
  : exn + dict string :=
  inr (("VersionId", id)
       :: match date with
          | Some d => [("LastModified", d)]
          | None => []
          end).

Definition refused : exn + dict string :=
  inl (ClientError "MethodNotAllowed").

Definition with_versions : Memory.state :=
  one_bucket []
    [("k", (Some 3, answered "v1" (Some "monday")));
     ("k", (None, refused));
     ("k", (Some 5, answered "v3" None))].

(** The same when a version with a size does not answer. *)
Definition with_lost_version : Memory.state :=
  one_bucket []
    [("k", (Some 3, answered "v1" (Some "monday")));
     ("k", (Some 4, refused));
     ("k", (Some 5, answered "v3" None))].

End Examples.

(* ===================================================================== *)
(** * Generators: general facts *)
(* ===================================================================== *)

Lemma gbind_assoc {Y A B C}
  (g : gen Y A) (f : A -> gen Y B) (h : B -> gen Y C) :
  gbind (gbind g f) h = gbind g (fun a => gbind (f a) h).
Proof.
  induction g as [a | e | y k IH]; simpl; [reflexivity | reflexivity |].
  now rewrite IH.
Qed.

Lemma yields_gbind_ok {Y B} (g : gen Y unit) (f : unit -> gen Y B) :
  failure g = None -> yields (gbind g f) = (yields g ++ yields (f tt))%list.
Proof.
  induction g as [[] | e | y k IH]; simpl; intros H.
  - reflexivity.
  - discriminate.
  - now rewrite IH.
Qed.

Lemma failure_gbind_ok {Y B} (g : gen Y unit) (f : unit -> gen Y B) :
  failure g = None -> failure (gbind g f) = failure (f tt).
Proof.
  induction g as [[] | e | y k IH]; simpl; intros H;
    [reflexivity | discriminate | now apply IH].
Qed.

Lemma yields_gbind_fail {Y A B} (g : gen Y A) (f : A -> gen Y B) e :
  failure g = Some e -> yields (gbind g f) = yields g.
Proof.
  induction g as [a | e' | y k IH]; simpl; intros H;
    [discriminate | reflexivity | now rewrite IH].
Qed.

Lemma failure_gbind_fail {Y A B} (g : gen Y A) (f : A -> gen Y B) e :
  failure g = Some e -> failure (gbind g f) = Some e.
Proof.
  induction g as [a | e' | y k IH]; simpl; intros H;
    [discriminate | assumption | now apply IH].
Qed.

(** A body that ends by raising: what was yielded before stays, nothing
    is added, and the end is never normal. *)
Lemma yields_then_raise {Y A B} (g : gen Y A) (e : exn) :
  yields (gbind g (fun _ => Raise e : gen Y B)) = yields g.
Proof.
  induction g as [a | e' | y k IH]; simpl; [reflexivity | reflexivity |].
  now rewrite IH.
Qed.

Lemma failure_then_raise {Y A B} (g : gen Y A) (e : exn) :
  failure (gbind g (fun _ => Raise e : gen Y B))
  = match failure g with Some e' => Some e' | None => Some e end.
Proof.
  induction g as [a | e' | y k IH]; simpl; auto.
Qed.

Lemma for_each_app {Y A} (xs ys : list A) (body : A -> gen Y unit) :
  for_each (xs ++ ys)%list body
  = gbind (for_each xs body) (fun _ => for_each ys body).
Proof.
  induction xs as [| x xs IH]; simpl; [reflexivity |].
  now rewrite gbind_assoc, IH.
Qed.

(** Pulling to the end and twice more: the values, then how the run
    ended, then [StopIteration]. *)
Lemma pulls_yields {Y} (g : gen Y unit) :
  pulls (List.length (yields g) + 2) g
  = (map Got (yields g)
     ++ [match failure g with Some e => Raised e | None => StopIteration end;
         StopIteration])%list.
Proof.
  induction g as [[] | e | y k IH]; simpl; [reflexivity | reflexivity |].
  simpl in IH. now rewrite IH.
Qed.

(* ===================================================================== *)
(** * Splitting into lines *)
(* ===================================================================== *)

Lemma split_not_nil sep s : split sep s <> [].
Proof.
  destruct s as [| c s]; simpl; [discriminate |].
  destruct (Ascii.eqb c sep); [discriminate |].
  destruct (split sep s); discriminate.
Qed.

Lemma join_split sep s : join sep (split sep s) = s.
Proof.
  induction s as [| c s IH]; simpl; [reflexivity |].
  destruct (Ascii.eqb_spec c sep) as [-> | Hc].
  - pose proof (split_not_nil sep s) as Hn.
    destruct (split sep s) as [| p ps]; [congruence |].
    cbn [join]. now rewrite <- IH.
  - destruct (split sep s) as [| p ps] eqn:E.
    + now apply split_not_nil in E.
    + rewrite <- IH. destruct ps; reflexivity.
Qed.

Lemma split_no_sep sep s :
  Forall (fun piece => contains sep piece = false) (split sep s).
Proof.
  induction s as [| c s IH]; simpl.
  - constructor; [reflexivity | constructor].
  - destruct (Ascii.eqb_spec c sep) as [-> | Hc].
    + constructor; [reflexivity | assumption].
    + destruct (split sep s) as [| p ps].
      * constructor; [| constructor]. simpl.
        destruct (Ascii.eqb_spec c sep); [contradiction | reflexivity].
      * inversion IH; subst. constructor; [| assumption]. simpl.
        destruct (Ascii.eqb_spec c sep); [contradiction | assumption].
Qed.

(* ===================================================================== *)
(** * read_jsonlines *)
(* ===================================================================== *)

Section ReadJsonlines.

Context {number : Type} {L : Libs number}.

Lemma keep_lines_yields lines :
  yields (for_each lines keep_line) = filter nonempty lines.
Proof.
  induction lines as [| l ls IH]; simpl; [reflexivity |].
  unfold keep_line at 1, nonempty at 1.
  destruct (String.eqb l ""); simpl; now rewrite IH.
Qed.

Lemma keep_lines_failure lines : failure (for_each lines keep_line) = None.
Proof.
  induction lines as [| l ls IH]; simpl; [reflexivity |].
  unfold keep_line at 1. destruct (String.eqb l ""); simpl; exact IH.
Qed.

Lemma read_jsonlines_text w key_name bucket_name text :
  fetch_text w key_name bucket_name = inr text ->
  read_jsonlines w key_name bucket_name
  = for_each (split newline text) keep_line.
Proof. intros H. unfold read_jsonlines. now rewrite H. Qed.

Lemma read_jsonlines_error w key_name bucket_name e :
  fetch_text w key_name bucket_name = inl e ->
  read_jsonlines w key_name bucket_name = Raise e.
Proof. intros H. unfold read_jsonlines. now rewrite H. Qed.

(** C1.  When the object decompresses to [text], [read_jsonlines] ends
    normally and yields exactly the non-empty pieces of [text] between
    line ends, in their order: the pieces are those whose ['
'.join] is
    [text] again, and filtering neither repeats nor reorders them.  For
    the text ['{"a":1}

{"a":2}
'] the yields are the two records. *)
Theorem read_jsonlines_nonempty_lines w key_name bucket_name text :
  fetch_text w key_name bucket_name = inr text ->
  let out := read_jsonlines w key_name bucket_name in
  yields out = filter nonempty (split newline text)
  /\ failure out = None
  /\ join newline (split newline text) = text
  /\ (text = text_with_empty_line ->
      yields out = ["{" ++ quoted "a" ++ ":1}"; "{" ++ quoted "a" ++ ":2}"]).
Proof.
  intros H out. subst out. rewrite (read_jsonlines_text _ _ _ _ H).
  rewrite keep_lines_yields, keep_lines_failure.
  repeat split; [apply join_split |].
  intros ->. reflexivity.
Qed.

(** C10.  Every string [read_jsonlines] yields is non-empty and has no
    line end in it. *)
Theorem read_jsonlines_yields_lines w key_name bucket_name line :
  In line (yields (read_jsonlines w key_name bucket_name)) ->
  line <> "" /\ contains newline line = false.
Proof.
  destruct (fetch_text w key_name bucket_name) as [e | text] eqn:H.
  - rewrite (read_jsonlines_error _ _ _ _ H). intros [].
  - rewrite (read_jsonlines_text _ _ _ _ H), keep_lines_yields.
    intros Hin. apply filter_In in Hin as [Hin Hne]. split.
    + intros ->. discriminate.
    + pose proof (split_no_sep newline text) as Hall.
      rewrite Forall_forall in Hall. now apply Hall.
Qed.

End ReadJsonlines.

(* ===================================================================== *)
(** * Dicts *)
(* ===================================================================== *)

Lemma dict_get_none_iff {V} (d : dict V) k :
  dict_get d k = None <-> ~ In k (dict_keys d).
Proof.
  induction d as [| [k' v] d IH]; simpl; [tauto |].
  destruct (String.eqb_spec k' k) as [-> | Hk].
  - split; [discriminate | intros H; exfalso; apply H; now left].
  - rewrite IH. tauto.
Qed.

Lemma dict_get_app_notin {V} (d1 d2 : dict V) k :
  ~ In k (dict_keys d1) -> dict_get (d1 ++ d2)%list k = dict_get d2 k.
Proof.
  induction d1 as [| [k' v] d1 IH]; simpl; [reflexivity |].
  intros H. destruct (String.eqb_spec k' k) as [-> | Hk]; [tauto |].
  apply IH. tauto.
Qed.

Lemma dict_set_notin {V} (d : dict V) k v :
  ~ In k (dict_keys d) -> dict_set d k v = (d ++ [(k, v)])%list.
Proof.
  induction d as [| [k' v'] d IH]; simpl; [reflexivity |].
  intros H. destruct (String.eqb_spec k' k) as [-> | Hk]; [tauto |].
  rewrite IH; tauto.
Qed.

Lemma dict_get_filter_key {V} (p : string -> bool) (d : dict V) k :
  dict_get (filter (fun kv => p (fst kv)) d) k
  = if p k then dict_get d k else None.
Proof.
  induction d as [| [k' v] d IH]; simpl; [now destruct (p k) |].
  destruct (p k') eqn:Hp; simpl;
    destruct (String.eqb_spec k' k) as [-> | Hk]; try assumption.
  - now rewrite Hp.
  - now rewrite IH, Hp.
Qed.

Lemma dict_keys_filter {V} (p : string -> bool) (d : dict V) :
  dict_keys (filter (fun kv => p (fst kv)) d) = filter p (dict_keys d).
Proof.
  induction d as [| [k v] d IH]; simpl; [reflexivity |].
  destruct (p k); simpl; now rewrite IH.
Qed.

Lemma allowed_key_iff k : allowed_key k = true <-> In k allow_list.
Proof.
  unfold allowed_key, allow_list. simpl.
  repeat rewrite orb_true_iff. repeat rewrite String.eqb_eq.
  intuition congruence.
Qed.

(* ===================================================================== *)
(** * The reduced record *)
(* ===================================================================== *)

Section Reduced.

Context {number : Type} {L : Libs number}.

Lemma reduce_keys_total (d : dict (json number)) ks acc :
  incl ks (dict_keys d) ->
  exists red, reduce_keys (JDict d) ks acc = inr red.
Proof.
  revert acc. induction ks as [| k ks IH]; intros acc Hincl; simpl.
  - now exists acc.
  - assert (Hks : incl ks (dict_keys d))
      by (intros x Hx; apply Hincl; now right).
    destruct (allowed_key k); [| now apply IH].
    destruct (dict_get d k) as [v |] eqn:Hget; simpl.
    + now apply IH.
    + apply dict_get_none_iff in Hget. exfalso. apply Hget, Hincl. now left.
Qed.

(** The comprehension never raises on a dict. *)
Lemma article_reduced_total (d : dict (json number)) :
  exists red, article_reduced (JDict d) = inr red.
Proof. apply reduce_keys_total, incl_refl. Qed.

Lemma reduce_keys_nodup (d1 d2 : dict (json number)) :
  NoDup (dict_keys (d1 ++ d2)%list) ->
  reduce_keys (JDict (d1 ++ d2)%list) (dict_keys d2) (allowed_entries d1)
  = inr (allowed_entries (d1 ++ d2)%list).
Proof.
  revert d1. induction d2 as [| [k v] d2 IH]; intros d1 Hnd; simpl.
  - now rewrite app_nil_r.
  - assert (Hk : ~ In k (dict_keys d1)).
    { unfold dict_keys in Hnd. rewrite map_app in Hnd. simpl in Hnd.
      apply NoDup_remove_2 in Hnd. intros Hin. apply Hnd, in_or_app. now left. }
    assert (Hre : (d1 ++ (k, v) :: d2 = (d1 ++ [(k, v)]) ++ d2)%list)
      by now rewrite <- app_assoc.
    destruct (allowed_key k) eqn:Ha.
    + rewrite (dict_get_app_notin _ _ _ Hk). simpl. rewrite String.eqb_refl.
      simpl. rewrite dict_set_notin.
      * rewrite Hre. rewrite <- IH by now rewrite <- Hre.
        f_equal. unfold allowed_entries. rewrite filter_app. simpl.
        now rewrite Ha.
      * unfold allowed_entries. rewrite dict_keys_filter.
        intros Hin. apply filter_In in Hin. tauto.
    + rewrite Hre. rewrite <- IH by now rewrite <- Hre.
      f_equal. unfold allowed_entries. rewrite filter_app. simpl.
      rewrite Ha. now rewrite app_nil_r.
Qed.

(** On a dict (no key twice) the reduced record is the allowed entries
    in the order of the source record. *)
Lemma article_reduced_nodup (d : dict (json number)) :
  NoDup (dict_keys d) -> article_reduced (JDict d) = inr (allowed_entries d).
Proof. intros H. exact (reduce_keys_nodup [] d H). Qed.

Lemma allowed_entries_wf (d : dict (json number)) :
  json_wf (JDict d) -> json_wf (JDict (allowed_entries d)).
Proof.
  intros H. inversion H as [| | | | | d' Hnd Hall]; subst. constructor.
  - unfold allowed_entries. rewrite dict_keys_filter. now apply NoDup_filter.
  - rewrite Forall_forall in *. intros kv Hin. apply Hall.
    unfold allowed_entries in Hin. apply filter_In in Hin. tauto.
Qed.

End Reduced.

(* ===================================================================== *)
(** * readtext_jsonlines *)
(* ===================================================================== *)

Section ReadText.

Context {number : Type} {L : Libs number}.

Lemma readtext_jsonlines_text w key_name bucket_name text :
  fetch_text w key_name bucket_name = inr text ->
  readtext_jsonlines w key_name bucket_name
  = for_each (split newline text) readtext_line.
Proof. intros H. unfold readtext_jsonlines. now rewrite H. Qed.

Lemma readtext_jsonlines_error w key_name bucket_name e :
  fetch_text w key_name bucket_name = inl e ->
  readtext_jsonlines w key_name bucket_name = Raise e.
Proof. intros H. unfold readtext_jsonlines. now rewrite H. Qed.

Lemma getitem_inr (v ft : json number) k :
  getitem v k = inr ft -> exists d, v = JDict d /\ dict_get d k = Some ft.
Proof.
  destruct v as [| b | n | s | l | d]; simpl; try discriminate.
  destruct (dict_get d k) eqn:E; [| discriminate].
  intros [= <-]. now exists d.
Qed.

Lemma readtext_line_run line : line_run line (readtext_line line).
Proof.
  unfold readtext_line.
  destruct (String.eqb_spec line "") as [-> | Hne]; simpl.
  - now constructor.
  - destruct (json_loads line) as [e | v] eqn:Hl; simpl.
    { eapply run_not_json; eassumption. }
    destruct (getitem v "ft") as [e | ft] eqn:Hg; simpl.
    { eapply run_no_ft; eassumption. }
    destruct (py_len ft) as [e | n] eqn:Hn; simpl.
    { eapply run_no_len; eassumption. }
    destruct n as [| n]; simpl.
    { eapply run_no_text; eassumption. }
    destruct (getitem_inr _ _ _ Hg) as (d & -> & Hd).
    destruct (article_reduced_total d) as [red Hred].
    rewrite Hred. simpl. eapply run_text; eassumption.
Qed.

(** Every value of the output is the reduced record of one of the lines. *)
Lemma readtext_yields_inv lines s :
  In s (yields (for_each lines readtext_line)) ->
  exists line d ft n red,
    In line lines /\ line <> "" /\ json_loads line = inr (JDict d)
    /\ dict_get d "ft" = Some ft /\ py_len ft = inr (S n)
    /\ article_reduced (JDict d) = inr red
    /\ s = json_dumps (JDict red).
Proof.
  induction lines as [| l ls IH]; simpl; [intros [] |].
  destruct (readtext_line_run l) as
    [H0 | e H0 H1 | v e H0 H1 H2 | v ft e H0 H1 H2 H3 | v ft H0 H1 H2 H3
     | d ft n red H0 H1 H2 H3 H4]; simpl; try (intros []; fail).
  - intros Hin. destruct (IH Hin) as (line & d' & ft' & n' & red' & Hl & Hr).
    exists line, d', ft', n', red'. split; [now right | exact Hr].
  - intros Hin. destruct (IH Hin) as (line & d' & ft' & n' & red' & Hl & Hr).
    exists line, d', ft', n', red'. split; [now right | exact Hr].
  - intros [<- | Hin].
    + exists l, d, ft, n, red. repeat split; auto.
    + destruct (IH Hin) as (line & d' & ft' & n' & red' & Hl & Hr).
      exists line, d', ft', n', red'. split; [now right | exact Hr].
Qed.

Lemma readtext_yields_count lines :
  List.length (yields (for_each lines readtext_line))
  <= List.length (filter nonempty lines).
Proof.
  induction lines as [| l ls IH]; simpl; [constructor |].
  destruct (readtext_line_run l) as
    [H0 | e H0 H1 | v e H0 H1 H2 | v ft e H0 H1 H2 H3 | v ft H0 H1 H2 H3
     | d ft n red H0 H1 H2 H3 H4]; simpl.
  - subst l. exact IH.
  - apply Nat.le_0_l.
  - apply Nat.le_0_l.
  - apply Nat.le_0_l.
  - apply String.eqb_neq in H0. unfold nonempty at 1. rewrite H0. simpl. lia.
  - apply String.eqb_neq in H0. unfold nonempty at 1. rewrite H0. simpl. lia.
Qed.

(** The run on a text in which processing stops at [line]: the lines
    before it, then the exception. *)
Lemma readtext_stops_at pre line post e :
  readtext_line line = Raise e ->
  for_each (pre ++ line :: post)%list readtext_line
  = gbind (for_each pre readtext_line) (fun _ => Raise e).
Proof.
  intros H. rewrite for_each_app. simpl. now rewrite H.
Qed.

End ReadText.

Section ReadTextClaims.

Context {number : Type} {L : Libs number}.

Lemma readtext_line_not_json line e :
  line <> "" -> json_loads line = inl e -> readtext_line line = Raise e.
Proof.
  intros Hne Hl. unfold readtext_line.
  apply String.eqb_neq in Hne. rewrite Hne. simpl. now rewrite Hl.
Qed.

Lemma readtext_line_no_ft line d :
  line <> "" -> json_loads line = inr (JDict d) -> dict_get d "ft" = None ->
  readtext_line line = Raise (KeyError "ft").
Proof.
  intros Hne Hl Hd. unfold readtext_line.
  apply String.eqb_neq in Hne. rewrite Hne. simpl. rewrite Hl. simpl.
  now rewrite Hd.
Qed.

(** A line that is an object whose [ft] is a string: a reduced record
    when the string is not empty, nothing otherwise. *)
Lemma readtext_line_str line d s :
  line <> "" -> json_loads line = inr (JDict d) ->
  dict_get d "ft" = Some (JStr s) ->
  readtext_line line
  = if has_text line then yield (reduced_line line) else pass.
Proof.
  intros Hne Hl Hd. unfold readtext_line, has_text, ft_text, reduced_line.
  apply String.eqb_neq in Hne. rewrite Hne. simpl. rewrite Hl. simpl.
  rewrite Hd. simpl. destruct s as [| c s]; simpl; [reflexivity |].
  destruct (article_reduced_total d) as [red Hred].
  unfold article_reduced in Hred. now rewrite Hred.
Qed.

Lemma readtext_text_lines lines :
  (forall line, In line lines -> line <> "" ->
     exists d s, json_loads line = inr (JDict d)
                 /\ dict_get d "ft" = Some (JStr s)) ->
  yields (for_each lines readtext_line)
  = map reduced_line (filter has_text (filter nonempty lines))
  /\ failure (for_each lines readtext_line) = None.
Proof.
  induction lines as [| l ls IH]; intros H; simpl; [now split |].
  destruct IH as [IHy IHf]; [intros line Hin; apply H; now right |].
  unfold nonempty at 1.
  destruct (String.eqb_spec l "") as [-> | Hne]; simpl.
  - now split.
  - destruct (H l (or_introl eq_refl) Hne) as (d & s & Hl & Hd).
    rewrite (readtext_line_str _ _ _ Hne Hl Hd).
    destruct (has_text l); simpl; rewrite IHy; now split.
Qed.

End ReadTextClaims.


(* ===================================================================== *)
(** * The model of [json]: what it parses is what it wrote *)
(* ===================================================================== *)

Module PyJsonFacts.

Import PyJson.

Lemma append_assoc (a b c : string) : (a ++ b) ++ c = a ++ (b ++ c).
Proof. induction a as [| x a IH]; simpl; [reflexivity | now rewrite IH]. Qed.

Lemma length_append (a b : string) :
  String.length (a ++ b) = String.length a + String.length b.
Proof. induction a as [| x a IH]; simpl; [reflexivity | now rewrite IH]. Qed.

(** ** Strings *)

Lemma scanstring_escape_char c s :
  scanstring (escape_char c ++ s) = cons_char c (scanstring s).
Proof.
  destruct c as [[] [] [] [] [] [] [] []]; reflexivity.
Qed.

Lemma scanstring_escape s rest :
  scanstring (escape s ++ String dq rest) = Some (s, rest).
Proof.
  induction s as [| c s IH]; [reflexivity |].
  cbn [escape]. rewrite append_assoc, scanstring_escape_char, IH.
  reflexivity.
Qed.

Lemma dump_str_append k rest :
  dump_str k ++ rest = String dq (escape k ++ String dq rest).
Proof. unfold dump_str. cbn [append]. now rewrite append_assoc. Qed.

Lemma scan_once_dump_str fuel k rest :
  scan_once (S fuel) (dump_str k ++ rest) = Some (JStr k, rest).
Proof.
  rewrite dump_str_append. cbn [scan_once].
  change (Ascii.eqb dq dq) with true. cbv iota.
  now rewrite scanstring_escape.
Qed.

(** ** Numbers *)

Lemma delimited_cases rest :
  delimited rest = true ->
  rest = "" \/ exists c s, rest = String c s
                           /\ (c = "," \/ c = "]" \/ c = "}")%char.
Proof.
  destruct rest as [| c s]; [now left |]. simpl. intros H. right.
  exists c, s. split; [reflexivity |].
  repeat rewrite orb_true_iff in H. repeat rewrite Ascii.eqb_eq in H. tauto.
Qed.

Lemma span_digits_delimited rest :
  delimited rest = true -> span_digits rest = (Decimal.Nil, rest).
Proof.
  intros H.
  destruct (delimited_cases _ H)
    as [-> | (c & s & -> & [-> | [-> | ->]])];
    reflexivity.
Qed.

Lemma float_tail_delimited rest :
  delimited rest = true -> float_tail rest = false.
Proof.
  intros H.
  destruct (delimited_cases _ H)
    as [-> | (c & s & -> & [-> | [-> | ->]])];
    try reflexivity; destruct s; reflexivity.
Qed.

Lemma span_digits_uint u rest :
  delimited rest = true ->
  span_digits (DecimalString.NilEmpty.string_of_uint u ++ rest) = (u, rest).
Proof.
  intros H. induction u as [| u IH | u IH | u IH | u IH | u IH | u IH
                            | u IH | u IH | u IH | u IH];
    [now apply span_digits_delimited | ..];
    cbn [DecimalString.NilEmpty.string_of_uint append span_digits];
    rewrite IH; reflexivity.
Qed.

Lemma nzhead_not_D0 d u : Decimal.nzhead d <> Decimal.D0 u.
Proof. induction d; simpl; try discriminate. assumption. Qed.

Lemma to_uint_not_D0 p u : Pos.to_uint p <> Decimal.D0 u.
Proof.
  intros H.
  pose proof (DecimalPos.Unsigned.to_of (Pos.to_uint p)) as Hn.
  rewrite DecimalPos.Unsigned.of_to in Hn. simpl in Hn.
  unfold Decimal.unorm in Hn.
  destruct (Decimal.nzhead (Pos.to_uint p)) eqn:E.
  - apply (DecimalPos.Unsigned.to_uint_nonzero p). exact Hn.
  - apply (nzhead_not_D0 (Pos.to_uint p) u0). rewrite E. congruence.
  - rewrite H in Hn. discriminate.
  - rewrite H in Hn. discriminate.
  - rewrite H in Hn. discriminate.
  - rewrite H in Hn. discriminate.
  - rewrite H in Hn. discriminate.
  - rewrite H in Hn. discriminate.
  - rewrite H in Hn. discriminate.
  - rewrite H in Hn. discriminate.
  - rewrite H in Hn. discriminate.
Qed.

Lemma scan_integer_digits c s :
  is_digit c = true -> Ascii.eqb c "0" = false ->
  scan_integer (String c s)
  = (let (u, rest) := span_digits (String c s) in
     Some (Z.of_int (Decimal.Pos u), rest))
  /\ scan_integer (String "-" (String c s))
    = (let (u, rest) := span_digits (String c s) in
       Some (Z.of_int (Decimal.Neg u), rest)).
Proof.
  destruct c as [[] [] [] [] [] [] [] []]; intros H H0;
    try (cbv in H; discriminate H); try (cbv in H0; discriminate H0);
    split; reflexivity.
Qed.

Lemma to_uint_head p rest :
  exists c s,
    DecimalString.NilEmpty.string_of_uint (Pos.to_uint p) ++ rest = String c s
    /\ is_digit c = true /\ Ascii.eqb c "0" = false.
Proof.
  pose proof (to_uint_not_D0 p) as H0.
  pose proof (DecimalPos.Unsigned.to_uint_nonnil p) as Hnil.
  destruct (Pos.to_uint p) as [| u | u | u | u | u | u | u | u | u | u];
    [congruence | now elim (H0 u) | ..];
    cbn [DecimalString.NilEmpty.string_of_uint append]; eexists _, _;
    (split; [reflexivity | split; reflexivity]).
Qed.

(** The digits [dumps] writes for an integer are read back as it. *)
Lemma scan_integer_dump z rest :
  delimited rest = true -> scan_integer (dump_int z ++ rest) = Some (z, rest).
Proof.
  intros H. unfold dump_int.
  rewrite <- (DecimalZ.of_to z) at 2.
  destruct z as [| p | p]; cbn [Z.to_int DecimalString.NilEmpty.string_of_int].
  - reflexivity.
  - destruct (to_uint_head p rest) as (c & s & E & Hd & Hz).
    pose proof (span_digits_uint (Pos.to_uint p) rest H) as Hs.
    rewrite E in *.
    rewrite (proj1 (scan_integer_digits c s Hd Hz)). now rewrite Hs.
  - destruct (to_uint_head p rest) as (c & s & E & Hd & Hz).
    pose proof (span_digits_uint (Pos.to_uint p) rest H) as Hs.
    cbn [append]. rewrite E in *.
    rewrite (proj2 (scan_integer_digits c s Hd Hz)). now rewrite Hs.
Qed.

Lemma scan_number_dump z rest :
  delimited rest = true -> scan_number (dump_int z ++ rest) = Some (z, rest).
Proof.
  intros H. unfold scan_number.
  now rewrite (scan_integer_dump z rest H), (float_tail_delimited rest H).
Qed.

(** A text that starts with a digit or a minus sign is read as a number. *)
Lemma scan_once_number fuel c s :
  is_digit c || Ascii.eqb c "-" = true ->
  scan_once (S fuel) (String c s)
  = match scan_number (String c s) with
    | Some (z, rest) => Some (JNum z, rest)
    | None => None
    end.
Proof.
  destruct c as [[] [] [] [] [] [] [] []]; intros H;
    try (cbv in H; discriminate H); reflexivity.
Qed.

Lemma dump_int_head z :
  exists c s, dump_int z = String c s /\ is_digit c || Ascii.eqb c "-" = true.
Proof.
  unfold dump_int. destruct z as [| p | p];
    cbn [Z.to_int DecimalString.NilEmpty.string_of_int].
  - now exists "0"%char, "".
  - pose proof (DecimalPos.Unsigned.to_uint_nonnil p) as Hnil.
    destruct (Pos.to_uint p); [congruence | ..];
      cbn [DecimalString.NilEmpty.string_of_uint]; eexists _, _;
      (split; [reflexivity | reflexivity]).
  - eexists _, _. split; reflexivity.
Qed.

Lemma scan_once_dump_int fuel z rest :
  delimited rest = true ->
  scan_once (S fuel) (dump_int z ++ rest) = Some (JNum z, rest).
Proof.
  intros H. pose proof (scan_number_dump z rest H) as Hn.
  destruct (dump_int_head z) as (c & s & E & Hc).
  rewrite E in *. cbn [append] in *.
  now rewrite (scan_once_number fuel c _ Hc), Hn.
Qed.

(** ** Values *)

Lemma skip_ws_head c s : is_ws c = false -> skip_ws (String c s) = String c s.
Proof. intros H. simpl. now rewrite H. Qed.

Lemma value_head_digit c :
  is_digit c || Ascii.eqb c "-" = true ->
  is_ws c = false /\ Ascii.eqb c "]" = false.
Proof.
  destruct c as [[] [] [] [] [] [] [] []]; intros H;
    try (cbv in H; discriminate H); split; reflexivity.
Qed.

(** A value never starts with white space nor with a closing bracket. *)
Lemma dumps_head v rest :
  exists c s, dumps v ++ rest = String c s
              /\ is_ws c = false /\ Ascii.eqb c "]" = false.
Proof.
  destruct v as [| [] | z | k | l | d];
    try (eexists _, _; split; [reflexivity | split; reflexivity]).
  destruct (dump_int_head z) as (c & s & E & Hc).
  exists c, (s ++ rest). cbn [dumps]. rewrite E. split; [reflexivity |].
  now apply value_head_digit.
Qed.

Lemma skip_ws_dumps v rest : skip_ws (dumps v ++ rest) = dumps v ++ rest.
Proof.
  destruct (dumps_head v rest) as (c & s & -> & Hws & _).
  now apply skip_ws_head.
Qed.

Lemma dump_items_cons x y l :
  dump_items (x :: y :: l) = dumps x ++ ", " ++ dump_items (y :: l).
Proof. reflexivity. Qed.

Lemma dump_members_cons k x kv d :
  dump_members ((k, x) :: kv :: d)
  = dump_str k ++ ": " ++ dumps x ++ ", " ++ dump_members (kv :: d).
Proof. reflexivity. Qed.

Lemma scan_elements_items l :
  Forall reads_back l -> l <> [] ->
  forall fuel rest,
    need_items l <= fuel ->
    scan_elements fuel (dump_items l ++ String "]" rest) = Some (l, rest).
Proof.
  induction l as [| x l IH]; [congruence |].
  intros HQ _ fuel rest Hf. inversion HQ as [| x' l' Hx Hl]; subst.
  cbn [need_items] in Hf. fold (need_items l) in Hf.
  destruct fuel as [| fuel]; [lia |].
  destruct l as [| y l].
  - cbn [dump_items scan_elements].
    rewrite (Hx fuel (String "]" rest)) by (try reflexivity; lia).
    reflexivity.
  - rewrite dump_items_cons. repeat rewrite append_assoc.
    cbn [scan_elements].
    rewrite (Hx fuel) by (try reflexivity; lia).
    cbn [append skip_ws is_ws Ascii.eqb Bool.eqb orb].
    destruct (dumps_head y
                (match l with [] => "" | _ => ", " ++ dump_items l end
                 ++ String "]" rest)) as (c & s & E & Hws & _).
    assert (Hitems : dump_items (y :: l) ++ String "]" rest = String c s).
    { rewrite <- E. destruct l; [reflexivity |].
      rewrite dump_items_cons. now repeat rewrite append_assoc. }
    rewrite Hitems, (skip_ws_head _ _ Hws), <- Hitems.
    rewrite IH; [reflexivity | assumption | discriminate | lia].
Qed.

Lemma scan_members_dump d :
  Forall (fun kv => reads_back (snd kv)) d -> d <> [] ->
  forall fuel rest,
    need_members d <= fuel ->
    exists s, dump_members d ++ String "}" rest = String dq s
              /\ scan_members fuel s = Some (d, rest).
Proof.
  induction d as [| [k x] d IH]; [congruence |].
  intros HQ _ fuel rest Hf. inversion HQ as [| kv d' Hx Hd]; subst.
  simpl in Hx. cbn [need_members] in Hf. fold (need_members d) in Hf.
  destruct fuel as [| fuel]; [lia |].
  destruct d as [| kv d].
  - exists (escape k ++ String dq (": " ++ dumps x ++ String "}" rest)).
    split.
    + cbn [dump_members]. repeat rewrite append_assoc.
      now rewrite dump_str_append.
    + cbn [scan_members]. rewrite scanstring_escape.
      cbn [append skip_ws is_ws Ascii.eqb Bool.eqb orb].
      rewrite skip_ws_dumps.
      rewrite (Hx fuel (String "}" rest)) by (try reflexivity; lia).
      reflexivity.
  - destruct (IH Hd ltac:(discriminate) fuel rest ltac:(lia)) as (s' & E & Hs').
    exists (escape k ++ String dq (": " ++ dumps x ++ ", " ++ String dq s')).
    split.
    + rewrite dump_members_cons. repeat rewrite append_assoc.
      rewrite E. now rewrite dump_str_append.
    + cbn [scan_members]. rewrite scanstring_escape.
      cbn [append skip_ws is_ws Ascii.eqb Bool.eqb orb].
      rewrite skip_ws_dumps.
      rewrite (Hx fuel) by (try reflexivity; lia).
      cbn [skip_ws is_ws Ascii.eqb Bool.eqb orb]. unfold dq at 1 2.
      cbn [skip_ws is_ws Ascii.eqb Bool.eqb orb]. fold dq.
      now rewrite Hs'.
Qed.

Lemma dict_of_pairs_acc {V} (d1 d2 : dict V) :
  NoDup (dict_keys (d1 ++ d2)%list) ->
  fold_left (fun d kv => dict_set d (fst kv) (snd kv)) d2 d1 = (d1 ++ d2)%list.
Proof.
  revert d1. induction d2 as [| [k v] d2 IH]; intros d1 Hnd; simpl.
  - now rewrite List.app_nil_r.
  - assert (Hre : (d1 ++ (k, v) :: d2 = (d1 ++ [(k, v)]) ++ d2)%list)
      by now rewrite <- app_assoc.
    rewrite dict_set_notin.
    + rewrite Hre. apply IH. now rewrite <- Hre.
    + unfold dict_keys in Hnd. rewrite map_app in Hnd. simpl in Hnd.
      apply NoDup_remove_2 in Hnd. intros Hin. apply Hnd, in_or_app. now left.
Qed.

Lemma dict_of_pairs_nodup {V} (d : dict V) :
  NoDup (dict_keys d) -> dict_of_pairs d = d.
Proof. intros H. exact (dict_of_pairs_acc [] d H). Qed.

(** Every value without a repeated key is read back from what [dumps]
    writes for it. *)
Lemma reads_back_wf v : json_wf v -> reads_back v.
Proof.
  induction v as [| b | z | k | l IH | d IH] using json_ind;
    intros Hwf fuel rest Hf Hrest;
    (destruct fuel as [| fuel]; [simpl in Hf; lia |]).
  - reflexivity.
  - destruct b; reflexivity.
  - now apply scan_once_dump_int.
  - apply scan_once_dump_str.
  - inversion Hwf as [| | | | l' Hall |]; subst.
    assert (HQ : Forall reads_back l).
    { rewrite Forall_forall in *. auto. }
    change (dumps (JList l)) with ("[" ++ dump_items l ++ "]").
    cbn [need] in Hf. fold (need_items l) in Hf.
    destruct l as [| x l]; [reflexivity |].
    pose proof (scan_elements_items (x :: l) HQ ltac:(discriminate) fuel rest
                  ltac:(lia)) as Hs.
    repeat rewrite append_assoc. cbn [append].
    destruct (dumps_head x
                (match l with [] => "" | _ => ", " ++ dump_items l end
                 ++ String "]" rest)) as (c & s & E & Hws & Hc).
    assert (Hitems : dump_items (x :: l) ++ String "]" rest = String c s).
    { rewrite <- E. destruct l; [reflexivity |].
      rewrite dump_items_cons. now repeat rewrite append_assoc. }
    rewrite Hitems in *. cbn [scan_once Ascii.eqb Bool.eqb].
    rewrite (skip_ws_head _ _ Hws), Hc, Hs. reflexivity.
  - inversion Hwf as [| | | | | d' Hnd Hall]; subst.
    assert (HQ : Forall (fun kv => reads_back (snd kv)) d).
    { rewrite Forall_forall in *. auto. }
    change (dumps (JDict d)) with ("{" ++ dump_members d ++ "}").
    cbn [need] in Hf. fold (need_members d) in Hf.
    destruct d as [| kv d]; [reflexivity |].
    destruct (scan_members_dump (kv :: d) HQ ltac:(discriminate) fuel rest
                ltac:(lia)) as (s & E & Hs).
    repeat rewrite append_assoc. cbn [append]. rewrite E.
    cbn [scan_once Ascii.eqb Bool.eqb]. unfold dq at 1 2 3.
    cbn [skip_ws is_ws Ascii.eqb Bool.eqb orb]. fold dq.
    rewrite Hs. now rewrite (dict_of_pairs_nodup _ Hnd).
Qed.

(** ** The fuel of [loads] *)

Lemma need_items_length l :
  Forall (fun x => need x <= String.length (dumps x)) l ->
  need_items l <= String.length (dump_items l) + 1.
Proof.
  induction l as [| x l IH]; intros H; [apply Nat.le_0_l |].
  inversion H as [| x' l' Hx Hl]; subst. specialize (IH Hl).
  cbn [need_items]. fold (need_items l). destruct l as [| y l].
  - cbn [dump_items need_items]. lia.
  - rewrite dump_items_cons. repeat rewrite length_append.
    cbn [String.length]. lia.
Qed.

Lemma need_members_length d :
  Forall (fun kv => need (snd kv) <= String.length (dumps (snd kv))) d ->
  need_members d <= String.length (dump_members d) + 1.
Proof.
  induction d as [| [k x] d IH]; intros H; [apply Nat.le_0_l |].
  inversion H as [| kv d' Hx Hd]; subst. specialize (IH Hd). simpl in Hx.
  cbn [need_members]. fold (need_members d). destruct d as [| kv d].
  - cbn [dump_members need_members]. repeat rewrite length_append.
    cbn [String.length]. lia.
  - rewrite dump_members_cons. repeat rewrite length_append.
    cbn [String.length]. lia.
Qed.

Lemma need_length v : need v <= String.length (dumps v).
Proof.
  induction v as [| b | z | k | l IH | d IH] using json_ind.
  - simpl. lia.
  - destruct b; simpl; lia.
  - cbn [need dumps]. destruct (dump_int_head z) as (c & s & -> & _).
    simpl. lia.
  - cbn [need dumps]. unfold dump_str. simpl. lia.
  - change (dumps (JList l)) with ("[" ++ dump_items l ++ "]").
    cbn [need]. fold (need_items l).
    pose proof (need_items_length l IH).
    repeat rewrite length_append. cbn [String.length]. lia.
  - change (dumps (JDict d)) with ("{" ++ dump_members d ++ "}").
    cbn [need]. fold (need_members d).
    pose proof (need_members_length d IH).
    repeat rewrite length_append. cbn [String.length]. lia.
Qed.

Lemma append_empty (s : string) : s ++ "" = s.
Proof. induction s as [| c s IH]; simpl; [reflexivity | now rewrite IH]. Qed.

(** [json.loads(json.dumps(v)) == v]. *)
Theorem loads_dumps v : json_wf v -> loads (dumps v) = inr v.
Proof.
  intros Hwf. unfold loads.
  pose proof (skip_ws_dumps v "") as Hws. rewrite append_empty in Hws.
  pose proof (reads_back_wf v Hwf (2 * String.length (dumps v) + 2) "") as Hr.
  rewrite append_empty in Hr. rewrite Hws, Hr; [reflexivity | | reflexivity].
  pose proof (need_length v). lia.
Qed.

(** ** What [loads] returns has no repeated key *)

Lemma dict_set_keys {V} (d : dict V) k v x :
  In x (dict_keys (dict_set d k v)) -> In x (dict_keys d) \/ x = k.
Proof.
  induction d as [| [k' v'] d IH]; simpl.
  - intros [<- | []]. now right.
  - destruct (String.eqb_spec k' k) as [-> | Hk]; simpl; [tauto |].
    intros [<- | Hin]; [tauto |]. destruct (IH Hin); tauto.
Qed.

Lemma dict_set_nodup {V} (d : dict V) k v :
  NoDup (dict_keys d) -> NoDup (dict_keys (dict_set d k v)).
Proof.
  induction d as [| [k' v'] d IH]; simpl; intros H.
  - constructor; [intros [] | constructor].
  - inversion H as [| k0 ks Hnotin Hnd]; subst.
    destruct (String.eqb_spec k' k) as [-> | Hk]; simpl.
    + now constructor.
    + constructor; [| now apply IH].
      intros Hin. destruct (dict_set_keys _ _ _ _ Hin); congruence.
Qed.

Lemma dict_set_forall {V} (P : V -> Prop) (d : dict V) k v :
  Forall (fun kv => P (snd kv)) d -> P v ->
  Forall (fun kv => P (snd kv)) (dict_set d k v).
Proof.
  induction d as [| [k' v'] d IH]; simpl; intros H Hv.
  - constructor; [exact Hv | constructor].
  - inversion H; subst. destruct (String.eqb k' k); constructor; auto.
Qed.

Lemma dict_of_pairs_wf (pairs : list (string * json Z)) :
  Forall (fun kv => json_wf (snd kv)) pairs ->
  json_wf (JDict (dict_of_pairs pairs)).
Proof.
  unfold dict_of_pairs.
  assert (Hgen : forall acc : dict (json Z),
             NoDup (dict_keys acc) ->
             Forall (fun kv => json_wf (snd kv)) acc ->
             Forall (fun kv => json_wf (snd kv)) pairs ->
             json_wf (JDict (fold_left
                                (fun d kv => dict_set d (fst kv) (snd kv))
                                pairs acc))).
  { induction pairs as [| [k v] pairs IH]; intros acc Hnd Hacc Hp; simpl.
    - now constructor.
    - inversion Hp; subst. apply IH; [| | assumption].
      + now apply dict_set_nodup.
      + now apply dict_set_forall. }
  intros H. apply Hgen; [constructor | constructor | exact H].
Qed.

Ltac break_match H :=
  match type of H with
  | context [match ?x with _ => _ end] => destruct x eqn:?; try discriminate H
  end.

Lemma scan_wf fuel :
  (forall s v r, scan_once fuel s = Some (v, r) -> json_wf v)
  /\ (forall s l r, scan_elements fuel s = Some (l, r) -> Forall json_wf l)
  /\ (forall s d r, scan_members fuel s = Some (d, r) ->
       Forall (fun kv => json_wf (snd kv)) d).
Proof.
  induction fuel as [| fuel (IHv & IHl & IHd)];
    [repeat split; intros; discriminate |].
  repeat split.
  - intros s v r H. cbn [scan_once] in H.
    repeat break_match H; injection H as <- <-;
      first [ apply dict_of_pairs_wf; eapply IHd; eassumption
            | constructor; eapply IHl; eassumption
            | repeat constructor ].
  - intros s l r H. cbn [scan_elements] in H.
    repeat break_match H; injection H as <- <-.
    + constructor; [eapply IHv; eassumption | constructor].
    + constructor; [eapply IHv; eassumption | eapply IHl; eassumption].
  - intros s d r H. cbn [scan_members] in H.
    repeat break_match H; injection H as <- <-.
    + constructor; [simpl; eapply IHv; eassumption | constructor].
    + constructor; [simpl; eapply IHv; eassumption | eapply IHd; eassumption].
Qed.

Theorem loads_wf s v : loads s = inr v -> json_wf v.
Proof.
  unfold loads. intros H. repeat break_match H. injection H as <-.
  eapply (proj1 (scan_wf _)); eassumption.
Qed.

(** ** The fuel of [loads] is never what makes it fail *)

Lemma skip_ws_length s : String.length (skip_ws s) <= String.length s.
Proof.
  induction s as [| c s IH]; simpl; [constructor |].
  destruct (is_ws c); simpl; lia.
Qed.

Lemma skip_ws_cons s c r :
  skip_ws s = String c r -> String.length r < String.length s.
Proof.
  intros H. pose proof (skip_ws_length s) as Hl. rewrite H in Hl.
  simpl in Hl. lia.
Qed.

Lemma cons_char_some c o k r :
  cons_char c o = Some (k, r) -> exists t, o = Some (t, r).
Proof.
  destruct o as [[t r'] |]; simpl; [| discriminate].
  intros [= _ <-]. now exists t.
Qed.

Lemma scanstring_shorter s k r :
  scanstring s = Some (k, r) -> String.length r < String.length s.
Proof.
  remember (String.length s) as n eqn:Hn.
  assert (Hle : String.length s <= n) by lia. clear Hn.
  revert s k r Hle. induction n as [| n IH]; intros s k r Hle H.
  - destruct s; [discriminate | simpl in Hle; lia].
  - destruct s as [| c s1]; [discriminate |]. cbn [scanstring] in H.
    simpl in Hle.
    repeat break_match H;
      try (apply cons_char_some in H as [t H]; apply IH in H);
      try injection H as <- <-; subst; simpl in *; lia.
Qed.

Lemma span_digits_length s :
  String.length (snd (span_digits s)) <= String.length s.
Proof.
  induction s as [| c s IH]; simpl; [constructor |].
  destruct (digit_of c); simpl; [| lia].
  destruct (span_digits s); simpl in *. lia.
Qed.

Lemma scan_digits_shorter (negative : bool) s z r :
  match s with
  | EmptyString => None
  | String c s2 =>
      if Ascii.eqb c "0" then Some (0%Z, s2)
      else if is_digit c then
        let (u, rest) := span_digits s in
        Some (Z.of_int (if negative then Decimal.Neg u else Decimal.Pos u),
              rest)
      else None
  end = Some (z, r) ->
  String.length r < String.length s.
Proof.
  destruct s as [| c s2]; [discriminate |].
  destruct (Ascii.eqb c "0"); [intros [= _ <-]; simpl; lia |].
  destruct (is_digit c) eqn:Hd; [| discriminate].
  pose proof (span_digits_length s2) as Hl.
  cbn [span_digits]. unfold is_digit in Hd.
  destruct (digit_of c) as [d |]; [| discriminate].
  destruct (span_digits s2) as [u' rest']. intros [= _ <-]. simpl in *. lia.
Qed.

Lemma scan_integer_shorter s z r :
  scan_integer s = Some (z, r) -> String.length r < String.length s.
Proof.
  unfold scan_integer. destruct s as [| c s']; [discriminate |].
  destruct (Ascii.eqb c "-"); intros H.
  - pose proof (scan_digits_shorter true s' z r H). simpl. lia.
  - exact (scan_digits_shorter false (String c s') z r H).
Qed.

Lemma scan_number_shorter s z r :
  scan_number s = Some (z, r) -> String.length r < String.length s.
Proof.
  unfold scan_number. intros H.
  destruct (scan_integer s) as [[z' r'] |] eqn:E; [| discriminate].
  destruct (float_tail r'); [discriminate |]. injection H as <- <-.
  now apply scan_integer_shorter in E.
Qed.

Lemma strip_prefix_shorter p s r :
  p <> "" -> strip_prefix p s = Some r -> String.length r < String.length s.
Proof.
  intros Hp.
  assert (H : forall p s r, strip_prefix p s = Some r ->
                String.length s = String.length p + String.length r).
  { clear. induction p as [| a p IH]; intros s r H; simpl in H.
    - now injection H as <-.
    - destruct s as [| b s]; [discriminate |].
      destruct (Ascii.eqb a b); [| discriminate].
      simpl. now rewrite (IH s r H). }
  intros E. apply H in E. destruct p; [congruence | simpl in E; lia].
Qed.

(** Every scan consumes at least one character. *)
Lemma scan_shorter fuel :
  (forall s v r, scan_once fuel s = Some (v, r) ->
     String.length r < String.length s)
  /\ (forall s l r, scan_elements fuel s = Some (l, r) ->
        String.length r < String.length s)
  /\ (forall s d r, scan_members fuel s = Some (d, r) ->
        String.length r < String.length s).
Proof.
  induction fuel as [| fuel (IHv & IHl & IHd)];
    [repeat split; intros; discriminate |].
  repeat split.
  - intros s v r H. cbn [scan_once] in H.
    repeat break_match H; injection H as <- <-; subst;
      repeat match goal with
        | E : scanstring _ = Some _ |- _ => apply scanstring_shorter in E
        | E : skip_ws _ = String _ _ |- _ => apply skip_ws_cons in E
        | E : scan_members _ _ = Some _ |- _ => apply IHd in E
        | E : scan_elements _ _ = Some _ |- _ => apply IHl in E
        | E : scan_number _ = Some _ |- _ => apply scan_number_shorter in E
        | E : strip_prefix _ _ = Some _ |- _ =>
            apply strip_prefix_shorter in E; [| discriminate]
        end;
      simpl in *; lia.
  - intros s l r H. cbn [scan_elements] in H.
    repeat break_match H; injection H as <- <-; subst;
      repeat match goal with
        | E : scan_once _ _ = Some _ |- _ => apply IHv in E
        | E : skip_ws ?x = String _ _ |- _ => apply skip_ws_cons in E
        | E : scan_elements _ (skip_ws ?x) = Some _ |- _ =>
            apply IHl in E; pose proof (skip_ws_length x)
        end;
      simpl in *; lia.
  - intros s d r H. cbn [scan_members] in H.
    repeat break_match H; injection H as <- <-; subst;
      repeat match goal with
        | E : scanstring _ = Some _ |- _ => apply scanstring_shorter in E
        | E : scan_once _ (skip_ws ?x) = Some _ |- _ =>
            apply IHv in E; pose proof (skip_ws_length x)
        | E : skip_ws _ = String _ _ |- _ => apply skip_ws_cons in E
        | E : scan_members _ _ = Some _ |- _ => apply IHd in E
        end;
      simpl in *; lia.
Qed.

(** With more fuel than twice the length of the text, the amount of
    fuel does not matter. *)
Lemma scan_stable f :
  forall g,
    (forall s, 2 * String.length s < f -> 2 * String.length s < g ->
       scan_once f s = scan_once g s)
    /\ (forall s, 2 * String.length s + 1 < f -> 2 * String.length s + 1 < g ->
          scan_elements f s = scan_elements g s)
    /\ (forall s, 2 * String.length s + 1 < f -> 2 * String.length s + 1 < g ->
          scan_members f s = scan_members g s).
Proof.
  induction f as [| f IH]; intros g; [repeat split; intros; lia |].
  destruct g as [| g]; [repeat split; intros; lia |].
  destruct (IH g) as (IHv & IHl & IHd). repeat split.
  - intros s Hf Hg. cbn [scan_once].
    destruct s as [| c s1]; [reflexivity |]. simpl in Hf, Hg.
    destruct (Ascii.eqb c dq); [reflexivity |].
    destruct (Ascii.eqb c "{").
    { destruct (skip_ws s1) as [| c2 s2] eqn:E; [reflexivity |].
      apply skip_ws_cons in E.
      destruct (Ascii.eqb c2 "}"); [reflexivity |].
      destruct (Ascii.eqb c2 dq); [| reflexivity].
      rewrite (IHd s2) by lia. reflexivity. }
    destruct (Ascii.eqb c "[").
    { destruct (skip_ws s1) as [| c2 s2] eqn:E; [reflexivity |].
      apply skip_ws_cons in E.
      destruct (Ascii.eqb c2 "]"); [reflexivity |].
      rewrite (IHl (String c2 s2)) by (simpl; lia). reflexivity. }
    reflexivity.
  - intros s Hf Hg. cbn [scan_elements].
    rewrite (IHv s) by lia.
    destruct (scan_once g s) as [[v s1] |] eqn:E; [| reflexivity].
    apply (proj1 (scan_shorter g)) in E.
    destruct (skip_ws s1) as [| c s2] eqn:E1; [reflexivity |].
    apply skip_ws_cons in E1.
    destruct (Ascii.eqb c "]"); [reflexivity |].
    destruct (Ascii.eqb c ","); [| reflexivity].
    pose proof (skip_ws_length s2).
    rewrite (IHl (skip_ws s2)) by lia. reflexivity.
  - intros s Hf Hg. cbn [scan_members].
    destruct (scanstring s) as [[k s1] |] eqn:E; [| reflexivity].
    apply scanstring_shorter in E.
    destruct (skip_ws s1) as [| c s2] eqn:E1; [reflexivity |].
    apply skip_ws_cons in E1.
    destruct (Ascii.eqb c ":"); [| reflexivity].
    pose proof (skip_ws_length s2).
    rewrite (IHv (skip_ws s2)) by lia.
    destruct (scan_once g (skip_ws s2)) as [[v s3] |] eqn:E2; [| reflexivity].
    apply (proj1 (scan_shorter g)) in E2.
    destruct (skip_ws s3) as [| c4 s4] eqn:E3; [reflexivity |].
    apply skip_ws_cons in E3.
    destruct (Ascii.eqb c4 "}"); [reflexivity |].
    destruct (Ascii.eqb c4 ","); [| reflexivity].
    destruct (skip_ws s4) as [| c5 s5] eqn:E4; [reflexivity |].
    apply skip_ws_cons in E4.
    destruct (Ascii.eqb c5 dq); [| reflexivity].
    rewrite (IHd s5) by lia. reflexivity.
Qed.

(** The fuel [loads] gives is enough for every text: any larger fuel
    gives the same answer. *)
Theorem loads_fuel s fuel :
  2 * String.length s + 2 <= fuel ->
  scan_once fuel (skip_ws s)
  = scan_once (2 * String.length s + 2) (skip_ws s).
Proof.
  intros H. pose proof (skip_ws_length s).
  apply (proj1 (scan_stable fuel (2 * String.length s + 2))); lia.
Qed.

End PyJsonFacts.

Section Claims.

Context {number : Type} {L : Libs number}.

Lemma fetch_text_fails w key_name bucket_name data e :
  retrieve w key_name bucket_name = inr data ->
  bz2_decompress data = inl e ->
  fetch_text w key_name bucket_name = inl e.
Proof.
  intros Hr Hd. unfold fetch_text, decompress_text. rewrite Hr. simpl.
  now rewrite Hd.
Qed.

(** C7, as amended.  Which bytes are a compressed stream is for
    [bz2.decompress] to say: the extractors have no test of their own.
    When it rejects the retrieved bytes with [e], the run of either
    extractor is the raise of [e] at the first pull, not the empty run.
    When it gives bytes that decode to the empty text, as it does for
    no bytes at all, the run of either is the empty one: the first pull
    stops without an exception. *)
Theorem invalid_stream_raises w key_name bucket_name data :
  retrieve w key_name bucket_name = inr data ->
  (forall e,
      bz2_decompress data = inl e ->
      read_jsonlines w key_name bucket_name = Raise e
      /\ readtext_jsonlines w key_name bucket_name = Raise e
      /\ pulls 1 (read_jsonlines w key_name bucket_name) = [Raised e]
      /\ pulls 1 (readtext_jsonlines w key_name bucket_name) = [Raised e])
  /\ (forall raw,
        bz2_decompress data = inr raw -> utf8_decode raw = inr "" ->
        read_jsonlines w key_name bucket_name = Return tt
        /\ readtext_jsonlines w key_name bucket_name = Return tt
        /\ pulls 1 (read_jsonlines w key_name bucket_name) = [StopIteration]
        /\ pulls 1 (readtext_jsonlines w key_name bucket_name)
           = [StopIteration]).
Proof.
  intros Hr. split.
  - intros e Hd. pose proof (fetch_text_fails _ _ _ _ _ Hr Hd) as Hf.
    rewrite (read_jsonlines_error _ _ _ _ Hf).
    rewrite (readtext_jsonlines_error _ _ _ _ Hf).
    repeat split.
  - intros raw Hd Hu.
    assert (Hf : fetch_text w key_name bucket_name = inr "").
    { unfold fetch_text, decompress_text. rewrite Hr. simpl.
      now rewrite Hd. }
    unfold read_jsonlines, readtext_jsonlines. rewrite Hf.
    repeat split.
Qed.

(** C6.  A non-empty line that is not JSON ends the run: the output is
    what the lines before it give and nothing of the lines after it, the
    run never ends normally, and when the lines before it are processed
    without error the consumer gets their records, then the error of
    [json.loads], then [StopIteration]. *)
Theorem malformed_line_fails_fast w key_name bucket_name text pre line post e :
  fetch_text w key_name bucket_name = inr text ->
  split newline text = (pre ++ line :: post)%list ->
  line <> "" ->
  json_loads line = inl e ->
  let out := readtext_jsonlines w key_name bucket_name in
  let before := for_each pre readtext_line in
  yields out = yields before
  /\ failure out <> None
  /\ (failure before = None ->
      failure out = Some e
      /\ pulls (List.length (yields before) + 2) out
         = (map Got (yields before) ++ [Raised e; StopIteration])%list).
Proof.
  intros Hf Hs Hne Hl out before. subst out before.
  rewrite (readtext_jsonlines_text _ _ _ _ Hf), Hs.
  rewrite (readtext_stops_at pre line post e
             (readtext_line_not_json _ _ Hne Hl)).
  set (g := gbind (for_each pre readtext_line) (fun _ : unit => Raise e)).
  assert (Hy : yields g = yields (for_each pre readtext_line))
    by apply yields_then_raise.
  assert (Hfail : failure g = match failure (for_each pre readtext_line) with
                              | Some e' => Some e'
                              | None => Some e
                              end)
    by apply failure_then_raise.
  split; [exact Hy |]. split.
  - rewrite Hfail. now destruct (failure (for_each pre readtext_line)).
  - intros Hpre. rewrite Hpre in Hfail. split; [exact Hfail |].
    rewrite <- Hy, pulls_yields. now rewrite Hfail.
Qed.

(** C2, as amended.  A line that is an object without [ft] ends the run:
    the output is what the lines before it give, nothing for this line
    and nothing of the lines after it, the run never ends normally, and
    when the lines before it are processed without error the consumer
    gets [KeyError('ft')] at this line. *)
Theorem missing_ft_raises w key_name bucket_name text pre line post d :
  fetch_text w key_name bucket_name = inr text ->
  split newline text = (pre ++ line :: post)%list ->
  line <> "" ->
  json_loads line = inr (JDict d) ->
  dict_get d "ft" = None ->
  let out := readtext_jsonlines w key_name bucket_name in
  let before := for_each pre readtext_line in
  yields out = yields before
  /\ failure out <> None
  /\ (failure before = None ->
      failure out = Some (KeyError "ft")
      /\ pulls (List.length (yields before) + 2) out
         = (map Got (yields before)
            ++ [Raised (KeyError "ft"); StopIteration])%list).
Proof.
  intros Hf Hs Hne Hl Hd out before. subst out before.
  rewrite (readtext_jsonlines_text _ _ _ _ Hf), Hs.
  rewrite (readtext_stops_at pre line post _
             (readtext_line_no_ft _ _ Hne Hl Hd)).
  set (g := gbind (for_each pre readtext_line)
                  (fun _ : unit => Raise (KeyError "ft"))).
  assert (Hy : yields g = yields (for_each pre readtext_line))
    by apply yields_then_raise.
  assert (Hfail : failure g = match failure (for_each pre readtext_line) with
                              | Some e' => Some e'
                              | None => Some (KeyError "ft")
                              end)
    by apply failure_then_raise.
  split; [exact Hy |]. split.
  - rewrite Hfail. now destruct (failure (for_each pre readtext_line)).
  - intros Hpre. rewrite Hpre in Hfail. split; [exact Hfail |].
    rewrite <- Hy, pulls_yields. now rewrite Hfail.
Qed.

(** The output never has more values than there are lines. *)
Lemma readtext_count_le w key_name bucket_name :
  List.length (yields (readtext_jsonlines w key_name bucket_name))
  <= List.length (yields (read_jsonlines w key_name bucket_name)).
Proof.
  destruct (fetch_text w key_name bucket_name) as [e | text] eqn:Hf.
  - rewrite (readtext_jsonlines_error _ _ _ _ Hf). apply Nat.le_0_l.
  - rewrite (readtext_jsonlines_text _ _ _ _ Hf).
    rewrite (read_jsonlines_text _ _ _ _ Hf), keep_lines_yields.
    apply readtext_yields_count.
Qed.

(** C3, as amended.  When every line that [read_jsonlines] yields is an
    object whose [ft] is a string, the output of [readtext_jsonlines]
    is, in order, the reduced record of each of those lines whose [ft]
    is not empty: one value for each such line, none for a line whose
    [ft] is empty, no error of its own, and no more values than lines. *)
Theorem projection_of_text_lines w key_name bucket_name :
  let lines := yields (read_jsonlines w key_name bucket_name) in
  let out := readtext_jsonlines w key_name bucket_name in
  (forall line, In line lines ->
     exists d s, json_loads line = inr (JDict d)
                 /\ dict_get d "ft" = Some (JStr s)) ->
  yields out = map reduced_line (filter has_text lines)
  /\ failure out = failure (read_jsonlines w key_name bucket_name)
  /\ List.length (yields out) <= List.length lines.
Proof.
  intros lines out H. split; [| split]; [| | apply readtext_count_le].
  - subst lines out.
    destruct (fetch_text w key_name bucket_name) as [e | text] eqn:Hf.
    + rewrite (readtext_jsonlines_error _ _ _ _ Hf).
      now rewrite (read_jsonlines_error _ _ _ _ Hf).
    + rewrite (read_jsonlines_text _ _ _ _ Hf), keep_lines_yields in *.
      rewrite (readtext_jsonlines_text _ _ _ _ Hf).
      apply readtext_text_lines. intros line Hin Hne. apply H.
      apply filter_In. split; [exact Hin |].
      unfold nonempty. apply String.eqb_neq in Hne. now rewrite Hne.
  - subst lines out.
    destruct (fetch_text w key_name bucket_name) as [e | text] eqn:Hf.
    + rewrite (readtext_jsonlines_error _ _ _ _ Hf).
      now rewrite (read_jsonlines_error _ _ _ _ Hf).
    + rewrite (read_jsonlines_text _ _ _ _ Hf), keep_lines_yields in *.
      rewrite (readtext_jsonlines_text _ _ _ _ Hf), keep_lines_failure.
      apply readtext_text_lines. intros line Hin Hne. apply H.
      apply filter_In. split; [exact Hin |].
      unfold nonempty. apply String.eqb_neq in Hne. now rewrite Hne.
Qed.

End Claims.

Section RoundTrip.

Context {number : Type} {L : Libs number}.

(** What the statements on parsed output take from [json]: [loads]
    returns dicts without a repeated key, and reads back what [dumps]
    wrote for such a value. *)
Hypothesis loads_wf : forall s v, json_loads s = inr v -> json_wf v.
Hypothesis loads_dumps :
  forall v, json_wf v -> json_loads (json_dumps v) = inr v.

(** Every value of the output comes from a line of [read_jsonlines]
    that is an object with a sized, non-empty [ft], and parses to the
    allowed entries of that object. *)
Lemma readtext_yield_parsed w key_name bucket_name s :
  In s (yields (readtext_jsonlines w key_name bucket_name)) ->
  exists line d ft n,
    In line (yields (read_jsonlines w key_name bucket_name))
    /\ json_loads line = inr (JDict d)
    /\ dict_get d "ft" = Some ft /\ py_len ft = inr (S n)
    /\ json_loads s = inr (JDict (allowed_entries d)).
Proof.
  destruct (fetch_text w key_name bucket_name) as [e | text] eqn:Hf.
  - rewrite (readtext_jsonlines_error _ _ _ _ Hf). intros [].
  - rewrite (readtext_jsonlines_text _ _ _ _ Hf).
    rewrite (read_jsonlines_text _ _ _ _ Hf), keep_lines_yields.
    intros Hin.
    destruct (readtext_yields_inv _ _ Hin)
      as (line & d & ft & n & red & Hl & Hne & Hj & Hft & Hlen & Hred & ->).
    exists line, d, ft, n.
    assert (Hwf : json_wf (JDict d)) by now apply (loads_wf line).
    assert (Hnd : NoDup (dict_keys d)) by now inversion Hwf.
    rewrite (article_reduced_nodup d Hnd) in Hred. injection Hred as <-.
    repeat split; try assumption.
    + apply filter_In. split; [exact Hl |].
      unfold nonempty. apply String.eqb_neq in Hne. now rewrite Hne.
    + apply loads_dumps. now apply allowed_entries_wf.
Qed.

(** C4.  Every string of the output parses to an object whose keys are
    among the eight allowed ones, each with the value it has in the
    record of the line it comes from. *)
Theorem reduced_keys_allowed w key_name bucket_name s :
  In s (yields (readtext_jsonlines w key_name bucket_name)) ->
  exists line src red,
    In line (yields (read_jsonlines w key_name bucket_name))
    /\ json_loads line = inr (JDict src)
    /\ json_loads s = inr (JDict red)
    /\ incl (dict_keys red) allow_list
    /\ (forall k v, dict_get red k = Some v -> dict_get src k = Some v).
Proof.
  intros Hin.
  destruct (readtext_yield_parsed _ _ _ _ Hin)
    as (line & d & ft & n & Hl & Hj & _ & _ & Hs).
  exists line, d, (allowed_entries d). repeat split; try assumption.
  - intros k Hk. unfold allowed_entries in Hk. rewrite dict_keys_filter in Hk.
    apply filter_In in Hk. now apply allowed_key_iff.
  - intros k v. unfold allowed_entries. rewrite dict_get_filter_key.
    now destruct (allowed_key k).
Qed.

(** C9.  Every string of the output parses to an object that has the
    key [ft], with a value of non-zero length. *)
Theorem reduced_keeps_ft w key_name bucket_name s :
  In s (yields (readtext_jsonlines w key_name bucket_name)) ->
  exists red ft n,
    json_loads s = inr (JDict red)
    /\ dict_get red "ft" = Some ft
    /\ py_len ft = inr (S n).
Proof.
  intros Hin.
  destruct (readtext_yield_parsed _ _ _ _ Hin)
    as (line & d & ft & n & _ & _ & Hft & Hlen & Hs).
  exists (allowed_entries d), ft, n. repeat split; try assumption.
  unfold allowed_entries. now rewrite dict_get_filter_key.
Qed.

End RoundTrip.

Section Scenario.

Context {number : Type} {L : Libs number}.

(** C5.  For the archive of the end-to-end scenario, with [json]
    reading its two lines as the two records and reading back the
    first record from what it writes for it: [read_jsonlines] yields
    the two lines, [readtext_jsonlines] yields one string, which parses
    to the first record. *)
Theorem end_to_end_scenario w :
  fetch_text w "ABC-1900-01-01-a.jsonl.bz2" "test-bucket" = inr scenario_text ->
  json_loads scenario_line1 = inr (JDict scenario_record1) ->
  json_loads scenario_line2 = inr (JDict scenario_record2) ->
  json_loads (json_dumps (JDict scenario_record1))
  = inr (JDict scenario_record1) ->
  let lines := read_jsonlines w "ABC-1900-01-01-a.jsonl.bz2" "test-bucket" in
  let out := readtext_jsonlines w "ABC-1900-01-01-a.jsonl.bz2" "test-bucket" in
  yields lines = [scenario_line1; scenario_line2]
  /\ failure lines = None
  /\ failure out = None
  /\ exists s, yields out = [s] /\ json_loads s = inr (JDict scenario_record1).
Proof.
  intros Hf H1 H2 Hrt lines out. subst lines out.
  rewrite (read_jsonlines_text _ _ _ _ Hf).
  rewrite (readtext_jsonlines_text _ _ _ _ Hf).
  rewrite keep_lines_yields, keep_lines_failure.
  assert (Hs : split newline scenario_text
               = [scenario_line1; scenario_line2; ""]) by reflexivity.
  rewrite Hs. cbn [for_each].
  assert (R1 : readtext_line scenario_line1
               = yield (json_dumps (JDict scenario_record1))).
  { unfold readtext_line. change (negb (scenario_line1 =? "")) with true.
    cbv iota. rewrite H1. reflexivity. }
  assert (R2 : readtext_line scenario_line2 = pass).
  { unfold readtext_line. change (negb (scenario_line2 =? "")) with true.
    cbv iota. rewrite H2. reflexivity. }
  rewrite R1, R2. repeat split.
  exists (json_dumps (JDict scenario_record1)).
  split; [reflexivity | exact Hrt].
Qed.

End Scenario.

(* ===================================================================== *)
(** * The claims on the fixture *)
(* ===================================================================== *)

Section OnTheFixture.

Import Fixture.

Lemma read_jsonlines_nonempty_lines_witness :
  fetch_text (holding text_with_empty_line) key bucket
  = inr text_with_empty_line
  /\ yields (read_jsonlines (holding text_with_empty_line) key bucket)
     = ["{" ++ quoted "a" ++ ":1}"; "{" ++ quoted "a" ++ ":2}"].
Proof.
  split; [reflexivity |].
  apply (read_jsonlines_nonempty_lines
           (holding text_with_empty_line) key bucket text_with_empty_line);
    reflexivity.
Defined.

Lemma read_jsonlines_yields_lines_witness :
  In scenario_line1
     (yields (read_jsonlines (holding scenario_text) key bucket))
  /\ scenario_line1 <> ""
  /\ contains newline scenario_line1 = false.
Proof.
  assert (H : In scenario_line1
                (yields (read_jsonlines (holding scenario_text) key bucket)))
    by (left; reflexivity).
  split; [exact H |].
  exact (read_jsonlines_yields_lines (holding scenario_text) key bucket
           scenario_line1 H).
Defined.

Lemma invalid_stream_raises_witness :
  (retrieve (store bucket key plain_data) key bucket = inr plain_data
   /\ bz2_decompress plain_data = inl OSError
   /\ read_jsonlines (store bucket key plain_data) key bucket = Raise OSError
   /\ readtext_jsonlines (store bucket key plain_data) key bucket
      = Raise OSError)
  /\ (retrieve (store bucket key []) key bucket = inr []
      /\ bz2_decompress [] = inr []
      /\ read_jsonlines (store bucket key []) key bucket = Return tt
      /\ readtext_jsonlines (store bucket key []) key bucket = Return tt).
Proof.
  assert (Hr : retrieve (store bucket key plain_data) key bucket
               = inr plain_data) by reflexivity.
  assert (Hd : bz2_decompress plain_data = inl OSError) by reflexivity.
  assert (Hr' : retrieve (store bucket key []) key bucket = inr [])
    by reflexivity.
  assert (Hd' : bz2_decompress [] = inr []) by reflexivity.
  assert (Hu : utf8_decode [] = inr "") by reflexivity.
  split; (split; [assumption |]); (split; [assumption |]).
  - destruct (invalid_stream_raises _ _ _ _ Hr) as [Hrejected _].
    destruct (Hrejected _ Hd) as (H1 & H2 & _). split; assumption.
  - destruct (invalid_stream_raises _ _ _ _ Hr') as [_ Hempty].
    destruct (Hempty _ Hd' Hu) as (H1 & H2 & _). split; assumption.
Defined.

Lemma malformed_line_fails_fast_witness :
  split newline text_not_json
  = ([line_with_ft] ++ "not json" :: [line_with_ft; ""])%list
  /\ json_loads "not json" = inl JSONDecodeError
  /\ yields (readtext_jsonlines (holding text_not_json) key bucket)
     = [json_dumps (JDict [("ft", JStr "a")])]
  /\ pulls 3 (readtext_jsonlines (holding text_not_json) key bucket)
     = [Got (json_dumps (JDict [("ft", JStr "a")]));
        Raised JSONDecodeError; StopIteration].
Proof.
  assert (Hs : split newline text_not_json
               = ([line_with_ft] ++ "not json" :: [line_with_ft; ""])%list)
    by reflexivity.
  assert (Hl : json_loads "not json" = inl JSONDecodeError) by reflexivity.
  assert (Hne : "not json" <> "") by discriminate.
  assert (Hf : fetch_text (holding text_not_json) key bucket
               = inr text_not_json) by reflexivity.
  split; [exact Hs |]. split; [exact Hl |].
  destruct (malformed_line_fails_fast (holding text_not_json) key bucket
              text_not_json [line_with_ft] "not json" [line_with_ft; ""]
              JSONDecodeError Hf Hs Hne Hl) as (Hy & _ & Hp).
  split; [exact Hy |].
  exact (proj2 (Hp eq_refl)).
Defined.

Lemma missing_ft_raises_witness :
  split newline text_without_ft
  = ([] ++ line_without_ft :: [line_with_ft; ""])%list
  /\ json_loads line_without_ft = inr (JDict [("id", JStr "x")])
  /\ yields (readtext_jsonlines (holding text_without_ft) key bucket) = []
  /\ failure (readtext_jsonlines (holding text_without_ft) key bucket)
     = Some (KeyError "ft").
Proof.
  assert (Hs : split newline text_without_ft
               = ([] ++ line_without_ft :: [line_with_ft; ""])%list)
    by reflexivity.
  assert (Hl : json_loads line_without_ft = inr (JDict [("id", JStr "x")]))
    by reflexivity.
  assert (Hne : line_without_ft <> "") by discriminate.
  assert (Hf : fetch_text (holding text_without_ft) key bucket
               = inr text_without_ft) by reflexivity.
  assert (Hd : dict_get [("id", JStr "x" : json Z)] "ft" = None)
    by reflexivity.
  split; [exact Hs |]. split; [exact Hl |].
  destruct (missing_ft_raises (holding text_without_ft) key bucket
              text_without_ft [] line_without_ft [line_with_ft; ""]
              [("id", JStr "x")] Hf Hs Hne Hl Hd) as (Hy & _ & Hp).
  split; [exact Hy |].
  exact (proj1 (Hp eq_refl)).
Defined.

(** C7, the claim as stated fails.  No bytes at all are not a compressed
    stream, every stream starts with the magic, but [bz2.decompress]
    does not reject them: it gives no bytes.  Both extractors then end
    at the first pull without a record and without an exception, the
    silent empty result the claim excludes. *)
Lemma empty_object_not_rejected :
  (forall content, compress content <> [])
  /\ retrieve (store bucket key []) key bucket = inr []
  /\ bz2_decompress [] = inr []
  /\ read_jsonlines (store bucket key []) key bucket = Return tt
  /\ readtext_jsonlines (store bucket key []) key bucket = Return tt
  /\ pulls 1 (read_jsonlines (store bucket key []) key bucket)
     = [StopIteration]
  /\ pulls 1 (readtext_jsonlines (store bucket key []) key bucket)
     = [StopIteration].
Proof. split; [discriminate | repeat split]. Qed.

(** C2, the claim as stated fails: the line ['{"id":"x"}'] parses to an
    object without [ft], and on it [readtext_jsonlines] raises
    [KeyError('ft')]; the line after it, which has text and alone gives
    a record, is never reached. *)
Lemma missing_ft_not_skipped :
  json_loads line_without_ft = inr (JDict [("id", JStr "x")])
  /\ failure (readtext_jsonlines (holding text_without_ft) key bucket)
     = Some (KeyError "ft")
  /\ yields (readtext_jsonlines (holding text_without_ft) key bucket) = []
  /\ yields (readtext_jsonlines (holding (line_with_ft ++ nl)) key bucket)
     = [json_dumps (JDict [("ft", JStr "a")])].
Proof. repeat split. Qed.

(** C3, the claim as stated fails.  In ['{"id":"x"}\n{"ft":"a"}\n'] both
    lines are objects and one has a non-empty string as [ft], but the
    output is empty.  In ['{"ft":[1]}\n'] the line is an object whose
    [ft] is not a string, but the output has a value for it. *)
Lemma projection_not_bijective :
  (Forall (fun line => exists d, json_loads line = inr (JDict d))
     (yields (read_jsonlines (holding text_without_ft) key bucket))
   /\ List.length
        (filter has_text
           (yields (read_jsonlines (holding text_without_ft) key bucket)))
      = 1
   /\ List.length
        (yields (readtext_jsonlines (holding text_without_ft) key bucket))
      = 0)
  /\ (Forall (fun line => exists d, json_loads line = inr (JDict d))
        (yields (read_jsonlines (holding (line_list_ft ++ nl)) key bucket))
      /\ List.length
           (filter has_text
              (yields
                 (read_jsonlines (holding (line_list_ft ++ nl)) key bucket)))
         = 0
      /\ List.length
           (yields
              (readtext_jsonlines (holding (line_list_ft ++ nl)) key bucket))
         = 1).
Proof.
  split; (split; [| split; reflexivity]).
  - repeat constructor; eexists; reflexivity.
  - repeat constructor; eexists; reflexivity.
Qed.

Lemma projection_of_text_lines_witness :
  (forall line,
     In line (yields (read_jsonlines (holding scenario_text) key bucket)) ->
     exists d s, json_loads line = inr (JDict d)
                 /\ dict_get d "ft" = Some (JStr s))
  /\ yields (readtext_jsonlines (holding scenario_text) key bucket)
     = map reduced_line
         (filter has_text
            (yields (read_jsonlines (holding scenario_text) key bucket)))
  /\ List.length
       (yields (readtext_jsonlines (holding scenario_text) key bucket)) = 1
  /\ List.length
       (yields (read_jsonlines (holding scenario_text) key bucket)) = 2.
Proof.
  assert (H : forall line,
             In line
                (yields (read_jsonlines (holding scenario_text) key bucket)) ->
             exists d s, json_loads line = inr (JDict d)
                         /\ dict_get d "ft" = Some (JStr s)).
  { intros line [<- | [<- | []]]; eexists _, _; split; reflexivity. }
  split; [exact H |].
  destruct (projection_of_text_lines (holding scenario_text) key bucket H)
    as (Hy & _ & _).
  split; [exact Hy |]. split; reflexivity.
Defined.

Lemma reduced_keys_allowed_witness :
  In (json_dumps (JDict scenario_record1))
     (yields (readtext_jsonlines (holding scenario_text) key bucket))
  /\ exists line src red,
       In line (yields (read_jsonlines (holding scenario_text) key bucket))
       /\ json_loads line = inr (JDict src)
       /\ json_loads (json_dumps (JDict scenario_record1)) = inr (JDict red)
       /\ incl (dict_keys red) allow_list
       /\ (forall k v, dict_get red k = Some v -> dict_get src k = Some v).
Proof.
  assert (H : In (json_dumps (JDict scenario_record1))
                (yields
                   (readtext_jsonlines (holding scenario_text) key bucket)))
    by (left; reflexivity).
  split; [exact H |].
  exact (reduced_keys_allowed PyJsonFacts.loads_wf PyJsonFacts.loads_dumps
           (holding scenario_text) key bucket _ H).
Defined.

Lemma reduced_keeps_ft_witness :
  In (json_dumps (JDict scenario_record1))
     (yields (readtext_jsonlines (holding scenario_text) key bucket))
  /\ exists red ft n,
       json_loads (json_dumps (JDict scenario_record1)) = inr (JDict red)
       /\ dict_get red "ft" = Some ft
       /\ py_len ft = inr (S n).
Proof.
  assert (H : In (json_dumps (JDict scenario_record1))
                (yields
                   (readtext_jsonlines (holding scenario_text) key bucket)))
    by (left; reflexivity).
  split; [exact H |].
  exact (reduced_keeps_ft PyJsonFacts.loads_wf PyJsonFacts.loads_dumps
           (holding scenario_text) key bucket _ H).
Defined.

Lemma end_to_end_scenario_witness :
  fetch_text (holding scenario_text) "ABC-1900-01-01-a.jsonl.bz2" "test-bucket"
  = inr scenario_text
  /\ json_loads scenario_line1 = inr (JDict scenario_record1)
  /\ json_loads scenario_line2 = inr (JDict scenario_record2)
  /\ yields (read_jsonlines (holding scenario_text) key bucket)
     = [scenario_line1; scenario_line2]
  /\ exists s,
       yields (readtext_jsonlines (holding scenario_text) key bucket) = [s]
       /\ json_loads s = inr (JDict scenario_record1).
Proof.
  assert (Hf : fetch_text (holding scenario_text)
                 "ABC-1900-01-01-a.jsonl.bz2" "test-bucket" = inr scenario_text)
    by reflexivity.
  assert (H1 : json_loads scenario_line1 = inr (JDict scenario_record1))
    by reflexivity.
  assert (H2 : json_loads scenario_line2 = inr (JDict scenario_record2))
    by reflexivity.
  assert (Hrt : json_loads (json_dumps (JDict scenario_record1))
                = inr (JDict scenario_record1)) by reflexivity.
  split; [exact Hf |]. split; [exact H1 |]. split; [exact H2 |].
  destruct (end_to_end_scenario (holding scenario_text) Hf H1 H2 Hrt)
    as (Hy & _ & _ & Hs).
  split; [exact Hy | exact Hs].
Defined.

End OnTheFixture.

(* ===================================================================== *)
(** * Strings and paths *)
(* ===================================================================== *)

Lemma str_app_assoc (a b c : string) : (a ++ b) ++ c = a ++ (b ++ c).
Proof. induction a as [| x a IH]; simpl; [reflexivity | now rewrite IH]. Qed.

Lemma str_app_empty (s : string) : s ++ "" = s.
Proof. induction s as [| c s IH]; simpl; [reflexivity | now rewrite IH]. Qed.

Lemma str_app_length (a b : string) :
  String.length (a ++ b) = String.length a + String.length b.
Proof. induction a as [| x a IH]; simpl; [reflexivity | now rewrite IH]. Qed.

Lemma startswith_iff s p :
  startswith s p = true <-> exists r, s = p ++ r.
Proof.
  revert s. induction p as [| a p IH]; intros s; simpl.
  - split; [intros _; now exists s | reflexivity].
  - destruct s as [| b s].
    + split; [discriminate | intros [r Hr]; discriminate].
    + rewrite andb_true_iff, Ascii.eqb_eq, IH. split.
      * intros [-> [r ->]]. now exists r.
      * intros [r [= -> ->]]. split; [reflexivity | now exists r].
Qed.

Lemma endswith_iff s p :
  endswith s p = true <-> exists q, s = q ++ p.
Proof.
  induction s as [| c s IH]; cbn [endswith].
  - rewrite orb_false_r. destruct (String.eqb_spec "" p) as [<- | Hp].
    + split; [now exists "" | reflexivity].
    + split; [discriminate |].
      intros [q Hq]. destruct q; [now elim Hp | discriminate].
  - destruct (String.eqb_spec (String c s) p) as [<- | Hp]; simpl.
    + split; [now exists "" | reflexivity].
    + rewrite IH. split.
      * intros [q ->]. now exists (String c q).
      * intros [q Hq]. destruct q as [| c' q]; [now elim Hp |].
        injection Hq as -> ->. now exists q.
Qed.

Lemma endswith_app q p : endswith (q ++ p) p = true.
Proof. apply endswith_iff. now exists q. Qed.

Lemma contains_app c a b :
  contains c (a ++ b) = contains c a || contains c b.
Proof.
  induction a as [| x a IH]; simpl; [reflexivity |].
  now rewrite IH, orb_assoc.
Qed.

Lemma count_char_zero c s : count_char c s = 0 <-> contains c s = false.
Proof.
  induction s as [| x s IH]; simpl; [tauto |].
  destruct (Ascii.eqb x c); simpl; [split; discriminate | exact IH].
Qed.

Lemma count_char_app c a b :
  count_char c (a ++ b) = count_char c a + count_char c b.
Proof.
  induction a as [| x a IH]; simpl; [reflexivity |].
  rewrite IH. lia.
Qed.

(** [split] gives one piece more than there are separators. *)
Lemma split_length sep s :
  List.length (split sep s) = S (count_char sep s).
Proof.
  induction s as [| c s IH]; simpl; [reflexivity |].
  destruct (Ascii.eqb c sep); simpl; [now rewrite IH |].
  destruct (split sep s); simpl in *; [discriminate | exact IH].
Qed.

Lemma split_none sep s : contains sep s = false -> split sep s = [s].
Proof.
  induction s as [| c s IH]; simpl; [reflexivity |].
  destruct (Ascii.eqb c sep); simpl; [discriminate |].
  intros H. now rewrite (IH H).
Qed.

Lemma split_app sep a b :
  contains sep a = false ->
  split sep (a ++ String sep b) = a :: split sep b.
Proof.
  induction a as [| c a IH]; simpl.
  - intros _. now rewrite Ascii.eqb_refl.
  - destruct (Ascii.eqb c sep); simpl; [discriminate |].
    intros H. now rewrite (IH H).
Qed.

Lemma split_one_sep sep a b :
  contains sep a = false -> contains sep b = false ->
  split sep (a ++ String sep b) = [a; b].
Proof. intros Ha Hb. now rewrite (split_app _ _ _ Ha), (split_none _ _ Hb). Qed.

(** A text with one separator is its two pieces around it. *)
Lemma split_two sep s a b :
  split sep s = [a; b] ->
  s = a ++ String sep b /\ contains sep a = false /\ contains sep b = false.
Proof.
  intros H. pose proof (join_split sep s) as Hj.
  pose proof (split_no_sep sep s) as Hn. rewrite H in *.
  simpl in Hj. inversion Hn as [| x l Ha Hl]; subst.
  inversion Hl as [| y l' Hb _]; subst. now split.
Qed.

Lemma last_item_split sep s :
  last_item (split sep s) = inr (last_piece sep s).
Proof.
  induction s as [| c s IH]; [reflexivity |].
  cbn [split last_piece contains].
  pose proof (split_length sep s) as Hlen.
  destruct (Ascii.eqb_spec c sep) as [-> | Hc]; simpl.
  - destruct (split sep s) eqn:E; [discriminate | exact IH].
  - destruct (split sep s) as [| p ps] eqn:E; [discriminate |].
    destruct ps as [| p' ps].
    + simpl in Hlen. injection Hlen as Hlen. symmetry in Hlen.
      apply count_char_zero in Hlen. rewrite Hlen.
      rewrite (split_none _ _ Hlen) in E. now injection E as ->.
    + simpl in Hlen. destruct (contains sep s) eqn:Hs.
      * exact IH.
      * apply count_char_zero in Hs. rewrite Hs in Hlen. discriminate.
Qed.

Lemma last_piece_app sep a b :
  last_piece sep (a ++ String sep b) = last_piece sep b.
Proof.
  induction a as [| c a IH].
  - cbn [append last_piece contains]. now rewrite Ascii.eqb_refl.
  - cbn [append last_piece]. rewrite <- IH.
    assert (H : contains sep (String c (a ++ String sep b)) = true).
    { simpl. rewrite contains_app. simpl. rewrite Ascii.eqb_refl.
      now rewrite orb_true_r, orb_true_r. }
    now rewrite H.
Qed.

Lemma last_piece_none sep s : contains sep s = false -> last_piece sep s = s.
Proof.
  destruct s as [| c s]; [reflexivity |]. cbn [last_piece]. now intros ->.
Qed.

Lemma last_piece_clean sep s : contains sep (last_piece sep s) = false.
Proof.
  induction s as [| c s IH]; [reflexivity |]. cbn [last_piece].
  destruct (contains sep (String c s)) eqn:E; [exact IH | exact E].
Qed.

(** A path is a directory part, empty or ending with the separator,
    and its last piece. *)
Lemma last_piece_split sep s :
  exists d, s = d ++ last_piece sep s
            /\ (d = "" \/ exists d', d = d' ++ String sep "").
Proof.
  induction s as [| c s (d & Hd & Hsep)];
    [exists ""; split; [reflexivity | now left] |].
  cbn [last_piece]. destruct (contains sep (String c s)) eqn:E.
  - exists (String c d). split; [simpl; now rewrite <- Hd |]. right.
    destruct Hsep as [-> | [d' ->]].
    + simpl in Hd. assert (Hs : contains sep s = false).
      { rewrite Hd. apply last_piece_clean. }
      simpl in E. rewrite Hs, orb_false_r in E. apply Ascii.eqb_eq in E.
      subst c. now exists "".
    + now exists (String c d').
  - exists "". split; [reflexivity | now left].
Qed.

Lemma file_name_clean path : contains slash (file_name path) = false.
Proof. apply last_piece_clean. Qed.

Lemma startswith_slash_contains s :
  startswith s "/" = true -> contains slash s = true.
Proof.
  destruct s as [| c s]; [discriminate |]. cbn [startswith contains].
  rewrite andb_true_r. intros H. apply Ascii.eqb_eq in H. subst c.
  unfold slash. now rewrite Ascii.eqb_refl.
Qed.

Lemma file_name_not_rooted path : startswith (file_name path) "/" = false.
Proof.
  destruct (startswith (file_name path) "/") eqn:E; [| reflexivity].
  apply startswith_slash_contains in E.
  now rewrite file_name_clean in E.
Qed.

(** The last component given to [os.path.join] decides the file name of
    the result. *)
Lemma file_name_join_step a b : file_name (join_step a b) = file_name b.
Proof.
  unfold join_step, file_name.
  destruct (startswith b "/"); [reflexivity |].
  destruct (String.eqb_spec a "") as [-> | Ha]; [reflexivity |]. simpl.
  destruct (endswith a "/") eqn:E.
  - apply endswith_iff in E as [q ->]. rewrite str_app_assoc. simpl.
    apply last_piece_app.
  - apply last_piece_app.
Qed.

Lemma file_name_os_path_join a ps b :
  file_name (os_path_join a (ps ++ [b])%list) = file_name b.
Proof.
  unfold os_path_join. rewrite fold_left_app. simpl.
  apply file_name_join_step.
Qed.

Lemma join_step_rooted a b :
  startswith a "/" = true -> startswith (join_step a b) "/" = true.
Proof.
  intros Ha. unfold join_step.
  destruct (startswith b "/") eqn:Hb; [exact Hb |].
  apply startswith_iff in Ha as [r ->].
  destruct (String.eqb ("/" ++ r) "" || endswith ("/" ++ r) "/"); reflexivity.
Qed.

(* ===================================================================== *)
(** * The readers of the credentials *)
(* ===================================================================== *)

(** X1.  The four readers of the credentials agree on the environment.
    With both variables set, [get_s3_connection] and
    [get_storage_options] return the access key and the secret of the
    environment; [get_s3_resource] and [get_s3_client] return them too
    for an endpoint boto3 takes, and both raise its exception for one
    it refuses.  With a variable missing all four raise the same
    [KeyError], for [SE_ACCESS_KEY] when it is missing and for
    [SE_SECRET_KEY] otherwise, whatever the endpoint: the environment
    is read before boto3 is called. *)
Theorem credentials_agree w url :
  (exists access secret,
      dict_get (environ w) "SE_ACCESS_KEY" = Some access
      /\ dict_get (environ w) "SE_SECRET_KEY" = Some secret
      /\ get_s3_connection w default_host
         = inr {| connection_access_key_id := access;
                  connection_secret_access_key := secret;
                  connection_host := default_host |}
      /\ get_storage_options w
         = inr {| options_endpoint_url := "https://os.zhdk.cloud.switch.ch";
                  options_key := access;
                  options_secret := secret |}
      /\ match endpoint_error w url with
         | None =>
             get_s3_resource w (Some url)
             = inr {| aws_secret_access_key := secret;
                      aws_access_key_id := access;
                      endpoint_url := url |}
             /\ get_s3_client w (Some url)
                = inr {| client_secret_access_key := secret;
                         client_access_key_id := access;
                         client_endpoint_url := url |}
         | Some e =>
             get_s3_resource w (Some url) = inl e
             /\ get_s3_client w (Some url) = inl e
         end)
  \/ (exists missing,
        dict_get (environ w) missing = None
        /\ (missing = "SE_ACCESS_KEY"
            \/ missing = "SE_SECRET_KEY"
               /\ dict_get (environ w) "SE_ACCESS_KEY" <> None)
        /\ get_s3_resource w (Some url) = inl (KeyError missing)
        /\ get_s3_client w (Some url) = inl (KeyError missing)
        /\ get_s3_connection w default_host = inl (KeyError missing)
        /\ get_storage_options w = inl (KeyError missing)).
Proof.
  unfold get_s3_resource, get_s3_client, get_s3_connection,
    get_storage_options, boto3_resource, boto3_client, os_environ. simpl.
  destruct (dict_get (environ w) "SE_ACCESS_KEY") as [access |] eqn:Ha; simpl.
  - destruct (dict_get (environ w) "SE_SECRET_KEY") as [secret |] eqn:Hs; simpl.
    + left. exists access, secret.
      destruct (endpoint_error w url); repeat split.
    + right. exists "SE_SECRET_KEY". repeat split; try assumption.
      right. split; [reflexivity | discriminate].
  - right. exists "SE_ACCESS_KEY". repeat split; try assumption. now left.
Qed.

(** With [host_url=None] the endpoint comes from [SE_HOST_URL], which is
    looked up before the credentials. *)
Lemma resource_default_endpoint w :
  (dict_get (environ w) "SE_HOST_URL" = None ->
   get_s3_resource w None = inl (KeyError "SE_HOST_URL")
   /\ get_s3_client w None = inl (KeyError "SE_HOST_URL"))
  /\ (forall url, dict_get (environ w) "SE_HOST_URL" = Some url ->
      get_s3_resource w None = get_s3_resource w (Some url)
      /\ get_s3_client w None = get_s3_client w (Some url)).
Proof.
  unfold get_s3_resource, get_s3_client, os_environ. split.
  - intros ->. now split.
  - intros url ->. now split.
Qed.

Section NoCredentials.

Context {number : Type} {L : Libs number} {sdk : Sdk}.

(** X2.  Without the credentials nothing reaches the store: when
    [get_s3_resource] raises, both extractors raise the same exception
    at the first pull, and [get_bucket_boto3], [upload] and
    [get_s3_versions] raise it with the store as it was and nothing
    printed. *)
Theorem no_credentials_no_request w e :
  get_s3_resource w (Some default_host_url) = inl e ->
  (forall key_name bucket_name,
      read_jsonlines w key_name bucket_name = Raise e
      /\ readtext_jsonlines w key_name bucket_name = Raise e)
  /\ (forall name create versioning st,
        get_bucket_boto3 w name create versioning st
        = {| ended := inl (Lib e); left := st; printed := [] |})
  /\ (forall partition_name newspaper_prefix bucket_name st,
        upload w partition_name newspaper_prefix bucket_name st
        = {| ended := inl (Lib e); left := st; printed := [] |})
  /\ (forall bucket_name key_name st,
        get_s3_versions w bucket_name key_name st = inl e)
  /\ (forall path st, fixed_s3fs_glob w path None st = inl (Lib e)).
Proof.
  intros H. repeat split.
  - unfold read_jsonlines, fetch_text, retrieve. now rewrite H.
  - unfold readtext_jsonlines, fetch_text, retrieve. now rewrite H.
  - intros. unfold get_bucket_boto3, io_bind, io_pure. now rewrite H.
  - intros. unfold upload, upload_key_name.
    rewrite last_item_split. simpl. now rewrite H.
  - intros. unfold get_s3_versions. now rewrite H.
  - intros path st. unfold fixed_s3fs_glob, get_boto3_bucket.
    set (p := if startswith path "s3://" then drop 5 path else path).
    pose proof (split_not_nil slash p) as Hn.
    destruct (split slash p); [congruence |]. simpl. now rewrite H.
Qed.

End NoCredentials.

(* ===================================================================== *)
(** * upload *)
(* ===================================================================== *)

Section Upload.

Context {sdk : Sdk}.

Lemma upload_key_name_eq partition_name newspaper_prefix :
  upload_key_name partition_name newspaper_prefix
  = inr (os_path_join "/" [newspaper_prefix; file_name partition_name]).
Proof. unfold upload_key_name. now rewrite last_item_split. Qed.

Lemma upload_key_rooted newspaper_prefix file :
  startswith (os_path_join "/" [newspaper_prefix; file]) "/" = true.
Proof.
  unfold os_path_join. simpl. apply join_step_rooted.
  unfold join_step. destruct (startswith newspaper_prefix "/") eqn:E;
    [exact E | reflexivity].
Qed.

(** X3.  The key [upload] stores a file under is always made, starts
    with a slash and has the file name of the partition as its file
    name; for a prefix that is not empty and neither starts nor ends
    with a slash it is [/prefix/file]. *)
Theorem upload_key_shape partition_name newspaper_prefix :
  exists key,
    upload_key_name partition_name newspaper_prefix = inr key
    /\ startswith key "/" = true
    /\ file_name key = file_name partition_name
    /\ contains slash (file_name partition_name) = false
    /\ (newspaper_prefix <> "" ->
        startswith newspaper_prefix "/" = false ->
        endswith newspaper_prefix "/" = false ->
        key = "/" ++ newspaper_prefix ++ "/" ++ file_name partition_name).
Proof.
  eexists. split; [apply upload_key_name_eq |].
  split; [| split; [| split]].
  - apply upload_key_rooted.
  - pose proof (file_name_os_path_join "/" [newspaper_prefix]
                  (file_name partition_name)) as Hf.
    cbn [app] in Hf. rewrite Hf.
    unfold file_name. apply last_piece_none. apply last_piece_clean.
  - apply file_name_clean.
  - intros Hne Hs He. unfold os_path_join. simpl.
    unfold join_step at 2. rewrite Hs. simpl.
    unfold join_step. rewrite file_name_not_rooted.
    assert (Hend : endswith ("/" ++ newspaper_prefix) "/" = false).
    { destruct newspaper_prefix as [| c p]; [congruence |].
      change (endswith ("/" ++ String c p) "/")
        with (String.eqb ("/" ++ String c p) "/" || endswith (String c p) "/").
      now rewrite He. }
    cbn [append] in Hend. rewrite Hend. reflexivity.
Qed.

(** X4.  With the credentials in the environment [upload] never raises
    and prints nothing: it returns the partition name with [True] when
    the bucket could be made and the file was uploaded, and with
    [False] for any exception of the two calls; the store is what
    [upload_file] left, or untouched when the bucket could not be
    made. *)
Theorem upload_reports_failure
  w partition_name newspaper_prefix bucket_name st s3 :
  get_s3_resource w (Some default_host_url) = inr s3 ->
  let key := os_path_join "/" [newspaper_prefix; file_name partition_name] in
  let r := upload w partition_name newspaper_prefix bucket_name st in
  printed r = []
  /\ match s3_Bucket s3 bucket_name with
     | inl _ => ended r = inr (false, partition_name) /\ left r = st
     | inr bucket =>
         left r = snd (upload_file bucket partition_name key st)
         /\ match fst (upload_file bucket partition_name key st) with
            | inl _ => ended r = inr (false, partition_name)
            | inr _ => ended r = inr (true, partition_name)
            end
     end.
Proof.
  intros H key r. subst key r. unfold upload.
  rewrite upload_key_name_eq, H.
  destruct (s3_Bucket s3 bucket_name) as [e | bucket]; [repeat split |].
  destruct (upload_file bucket partition_name
              (os_path_join "/" [newspaper_prefix; file_name partition_name])
              st) as [[e | []] st']; repeat split.
Qed.

End Upload.

(* ===================================================================== *)
(** * fixed_s3fs_glob *)
(* ===================================================================== *)

Section Glob.

Context {sdk : Sdk}.

(** X5.  A pattern must have exactly one star: with none or with more
    than one, [fixed_s3fs_glob] on a given bucket raises [ValueError]
    whatever the bucket holds. *)
Theorem glob_needs_one_star w path bucket st :
  count_char star path <> 1 ->
  fixed_s3fs_glob w path (Some bucket) st = inl (Lib ValueError).
Proof.
  intros H. unfold fixed_s3fs_glob, glob_in.
  pose proof (split_length star path) as Hl.
  destruct (split star path) as [| a [| b [| c l]]]; try reflexivity.
  simpl in Hl. congruence.
Qed.

(** X6.  With exactly one star the pattern is a prefix, the star and an
    ending; the keys are listed under the prefix, and the result names,
    in the order of the listing, those that end with the ending. *)
Theorem glob_lists_prefix_and_ending w path bucket st :
  count_char star path = 1 ->
  exists base ending,
    path = base ++ String star ending
    /\ contains star base = false /\ contains star ending = false
    /\ fixed_s3fs_glob w path (Some bucket) st
       = match objects_filter bucket base st with
         | inl e => inl (Lib e)
         | inr keys =>
             inr (map (glob_name (bucket3_name bucket))
                    (filter (fun key => endswith key ending) keys))
         end.
Proof.
  intros H. unfold fixed_s3fs_glob, glob_in.
  pose proof (split_length star path) as Hl. rewrite H in Hl.
  destruct (split star path) as [| a [| b [| c l]]] eqn:E; try discriminate.
  destruct (split_two _ _ _ _ E) as (Hp & Ha & Hb).
  exists a, b. repeat split; try assumption.
  now destruct (objects_filter bucket a st).
Qed.

(** A key that starts with [base], ends with [ending] and is long enough
    for both is [base], something and [ending]. *)
Lemma prefix_and_ending key base ending :
  startswith key base = true -> endswith key ending = true ->
  String.length base + String.length ending <= String.length key ->
  exists middle, key = base ++ middle ++ ending.
Proof.
  revert key. induction base as [| a base IH]; intros key Hs He Hl.
  - apply endswith_iff in He as [q ->]. now exists q.
  - apply startswith_iff in Hs as [r ->]. cbn [append] in *.
    apply endswith_iff in He as [q Hq].
    destruct q as [| a' q].
    + simpl in Hq. rewrite <- Hq in Hl. simpl in Hl. lia.
    + injection Hq as <- Hq.
      destruct (IH (base ++ r)) as [middle Hm].
      * apply startswith_iff. now exists r.
      * apply endswith_iff. now exists q.
      * simpl in Hl. lia.
      * exists middle. now rewrite Hm.
Qed.

(** X7.  When the store lists under a prefix only keys that start with
    it, every name [fixed_s3fs_glob] returns is the name of a listed
    key that starts with the text before the star and ends with the
    text after it; a key long enough for both is the one, something
    and the other. *)
Theorem glob_names_match w base ending bucket st keys name :
  contains star base = false -> contains star ending = false ->
  objects_filter bucket base st = inr keys ->
  (forall key, In key keys -> startswith key base = true) ->
  forall names,
    fixed_s3fs_glob w (base ++ String star ending) (Some bucket) st
    = inr names ->
    In name names ->
    exists key,
      In key keys /\ name = glob_name (bucket3_name bucket) key
      /\ startswith key base = true /\ endswith key ending = true
      /\ (String.length base + String.length ending <= String.length key ->
          exists middle, key = base ++ middle ++ ending).
Proof.
  intros Hb He Hk Hpre names Hg Hin.
  unfold fixed_s3fs_glob, glob_in in Hg.
  rewrite (split_one_sep _ _ _ Hb He), Hk in Hg. simpl in Hg.
  injection Hg as <-. apply in_map_iff in Hin as (key & <- & Hkey).
  apply filter_In in Hkey as [Hkey Hend].
  exists key. split; [exact Hkey |]. split; [reflexivity |].
  split; [now apply Hpre |]. split; [exact Hend |].
  intros Hl. apply prefix_and_ending; auto.
Qed.

(** X8.  The ending may overlap the prefix: for the pattern [s*s] the
    key [s] itself is named, although it is not [s], something and [s]
    again. *)
Theorem glob_accepts_overlap w s bucket st keys :
  s <> "" -> contains star s = false ->
  objects_filter bucket s st = inr keys -> In s keys ->
  exists names,
    fixed_s3fs_glob w (s ++ String star s) (Some bucket) st = inr names
    /\ In (glob_name (bucket3_name bucket) s) names
    /\ forall middle, s <> s ++ middle ++ s.
Proof.
  intros Hne Hs Hk Hin. eexists. split; [| split].
  - unfold fixed_s3fs_glob, glob_in.
    rewrite (split_one_sep _ _ _ Hs Hs), Hk. reflexivity.
  - apply in_map. apply filter_In. split; [exact Hin |].
    apply endswith_iff. now exists "".
  - intros middle H. apply (f_equal String.length) in H.
    repeat rewrite str_app_length in H.
    destruct s; [congruence | simpl in H; lia].
Qed.

Lemma not_s3_scheme bucket_name pattern :
  contains slash bucket_name = false -> bucket_name <> "s3:" ->
  startswith (bucket_name ++ String slash pattern) "s3://" = false.
Proof.
  intros Hs Hne.
  destruct (startswith (bucket_name ++ String slash pattern) "s3://") eqn:E;
    [| reflexivity].
  exfalso. apply startswith_iff in E as [r E].
  destruct bucket_name as [| c1 [| c2 [| c3 [| c4 b]]]];
    cbn [append] in E; try discriminate E.
  - injection E as -> -> ->. now apply Hne.
  - injection E as -> -> -> -> _. discriminate Hs.
Qed.

(** X9.  Without a bucket the path is read as bucket, slash, pattern,
    with or without [s3://] in front: the bucket is made from the text
    before the first slash and the rest is the pattern, as if that
    bucket had been given. *)
Theorem glob_bucket_from_path w bucket_name pattern st :
  contains slash bucket_name = false -> bucket_name <> "s3:" ->
  (forall bucket, get_boto3_bucket w bucket_name = inr bucket ->
                  bucket3_name bucket = bucket_name) ->
  let found :=
    match get_boto3_bucket w bucket_name with
    | inl e => inl (Lib e)
    | inr bucket => fixed_s3fs_glob w pattern (Some bucket) st
    end in
  fixed_s3fs_glob w (bucket_name ++ String slash pattern) None st = found
  /\ fixed_s3fs_glob w ("s3://" ++ bucket_name ++ String slash pattern) None st
     = found.
Proof.
  intros Hs Hne Hname found.
  assert (H : fixed_s3fs_glob w (bucket_name ++ String slash pattern) None st
              = found).
  { unfold fixed_s3fs_glob at 1. rewrite (not_s3_scheme _ _ Hs Hne).
    rewrite (split_app _ _ _ Hs). cbn [first_item xbind tl].
    rewrite join_split. subst found.
    destruct (get_boto3_bucket w bucket_name) as [e | bucket] eqn:E;
      [reflexivity |].
    cbn [lift xbind fixed_s3fs_glob]. now rewrite (Hname bucket eq_refl). }
  split; [exact H |]. rewrite <- H. unfold fixed_s3fs_glob.
  rewrite (not_s3_scheme _ _ Hs Hne). reflexivity.
Qed.

Lemma glob_name_rooted bucket_name key :
  startswith key "/" = true -> glob_name bucket_name key = "s3://" ++ key.
Proof.
  intros H. unfold glob_name, os_path_join. cbn [fold_left].
  unfold join_step. now rewrite H.
Qed.

(** X10.  A key that starts with a slash is named without its bucket,
    and [upload] makes only such keys: the name [fixed_s3fs_glob] gives
    to an uploaded file is [s3://] and the key, the same for every
    bucket.  A key that does not start with a slash is named
    [s3://bucket/key]. *)
Theorem glob_name_of_uploaded partition_name newspaper_prefix key :
  upload_key_name partition_name newspaper_prefix = inr key ->
  (forall bucket_name, glob_name bucket_name key = "s3://" ++ key)
  /\ (forall bucket_name other,
        startswith other "/" = false -> bucket_name <> "" ->
        endswith bucket_name "/" = false ->
        glob_name bucket_name other = "s3://" ++ bucket_name ++ "/" ++ other).
Proof.
  intros H. rewrite upload_key_name_eq in H. injection H as <-.
  pose proof (upload_key_rooted newspaper_prefix (file_name partition_name))
    as Hroot.
  split.
  - intros bucket_name. now apply glob_name_rooted.
  - intros bucket_name other Ho Hne He.
    unfold glob_name, os_path_join. simpl. unfold join_step.
    rewrite Ho, He. apply String.eqb_neq in Hne. now rewrite Hne.
Qed.

End Glob.

(* ===================================================================== *)
(** * get_bucket and get_bucket_boto3 *)
(* ===================================================================== *)

Section BucketsFacts.

Context {sdk : Sdk}.

Lemma filter_first {A} (p : A -> bool) (l : list A) (x : A) :
  In x l -> p x = true ->
  exists found rest, filter p l = found :: rest /\ In found l /\ p found = true.
Proof.
  intros Hin Hp.
  assert (H : In x (filter p l)) by (apply filter_In; now split).
  destruct (filter p l) as [| found rest] eqn:E; [destruct H |].
  exists found, rest. split; [reflexivity |].
  assert (Hf : In found (filter p l)) by (rewrite E; now left).
  apply filter_In in Hf. exact Hf.
Qed.

Lemma filter_none {A} (p : A -> bool) (l : list A) :
  (forall x, In x l -> p x = false) -> filter p l = [].
Proof.
  induction l as [| x l IH]; intros H; simpl; [reflexivity |].
  rewrite (H x (or_introl eq_refl)). apply IH. intros y Hy. apply H. now right.
Qed.

(** X11.  Without [create] neither function writes to the store,
    however the call ends. *)
Theorem lookup_leaves_store w name versioning st :
  left (get_bucket_boto3 w name false versioning st) = st
  /\ left (get_bucket w name false versioning st) = st.
Proof.
  split.
  - unfold get_bucket_boto3, io_bind, io_pure, io_read, io_ret, io_print.
    simpl. destruct (get_s3_resource w (Some default_host_url)) as [e | s3];
      simpl; [reflexivity |].
    destruct (buckets_all s3 st) as [e | all]; simpl; [reflexivity |].
    now destruct (filter _ all).
  - unfold get_bucket, io_bind, io_pure, io_read, io_ret, io_print.
    simpl. destruct (get_s3_connection w default_host) as [e | conn];
      simpl; [reflexivity |].
    destruct (get_all_buckets conn st) as [e | all]; simpl; [reflexivity |].
    now destruct (filter _ all).
Qed.

(** X12.  A bucket that is listed under the name is returned as it is,
    the first if there are several: nothing is created, the versioning
    is not enabled even when asked for, nothing is printed. *)
Theorem existing_bucket_is_returned w name create versioning st s3 all b :
  get_s3_resource w (Some default_host_url) = inr s3 ->
  buckets_all s3 st = inr all ->
  In b all -> bucket3_name b = name ->
  exists found,
    get_bucket_boto3 w name create versioning st
    = {| ended := inr (Some found); left := st; printed := [] |}
    /\ In found all /\ bucket3_name found = name.
Proof.
  intros Hr Ha Hin Hn.
  destruct (filter_first (fun b => String.eqb (bucket3_name b) name) all b Hin)
    as (found & rest & Hf & Hfin & Hname);
    [now apply String.eqb_eq |].
  exists found. split; [| split; [exact Hfin | now apply String.eqb_eq]].
  unfold get_bucket_boto3, io_bind, io_pure, io_read, io_ret.
  simpl. rewrite Hr. simpl. rewrite Ha. simpl. now rewrite Hf.
Qed.

(** X13.  A bucket that is not listed and not to be created: [None] is
    returned, the one line says so, the store is as it was. *)
Theorem missing_bucket_not_created w name versioning st s3 all :
  get_s3_resource w (Some default_host_url) = inr s3 ->
  buckets_all s3 st = inr all ->
  (forall b, In b all -> bucket3_name b <> name) ->
  get_bucket_boto3 w name false versioning st
  = {| ended := inr None; left := st;
       printed := ["Bucket " ++ name ++ " not found"] |}.
Proof.
  intros Hr Ha Hnone.
  unfold get_bucket_boto3, io_bind, io_pure, io_read, io_ret, io_print.
  simpl. rewrite Hr. simpl. rewrite Ha. simpl.
  rewrite filter_none; [reflexivity |].
  intros b Hb. apply String.eqb_neq. now apply Hnone.
Qed.

(** X14.  [get_bucket_boto3] without versioning returns a bucket only
    when it was already there.  For a bucket it has to create, the last
    [print] reads [bucket_versioning], which is bound only under
    [if versioning]: the bucket is created, the line about it printed,
    and the call ends with [UnboundLocalError]. *)
Theorem boto3_create_needs_versioning w name st s3 all :
  get_s3_resource w (Some default_host_url) = inr s3 ->
  buckets_all s3 st = inr all ->
  (forall b, In b all -> bucket3_name b <> name) ->
  (forall b, ended (get_bucket_boto3 w name true false st) <> inr (Some b))
  /\ (forall b st',
        create_bucket3 s3 name st = (inr b, st') ->
        get_bucket_boto3 w name true false st
        = {| ended := inl (UnboundLocalError "bucket_versioning");
             left := st';
             printed := ["New bucket " ++ name ++ " was created"] |}).
Proof.
  intros Hr Ha Hnone.
  assert (Hf : filter (fun b => String.eqb (bucket3_name b) name) all = []).
  { apply filter_none. intros b Hb. apply String.eqb_neq. now apply Hnone. }
  split.
  - intros b. unfold get_bucket_boto3, boto3_after_create, io_bind, io_pure,
      io_read, io_write, io_ret, io_print, io_raise.
    simpl. rewrite Hr. simpl. rewrite Ha. simpl. rewrite Hf. simpl.
    destruct (create_bucket3 s3 name st) as [[e | b'] st']; simpl; discriminate.
  - intros b st' Hc.
    unfold get_bucket_boto3, boto3_after_create, io_bind, io_pure,
      io_read, io_write, io_ret, io_print, io_raise.
    simpl. rewrite Hr. simpl. rewrite Ha. simpl. rewrite Hf. simpl.
    rewrite Hc. reflexivity.
Qed.

(** X15.  [get_bucket] in the same case returns the bucket it created:
    it asks the bucket itself for the status it prints. *)
Theorem boto_create_without_versioning w name st conn all b st' status :
  get_s3_connection w default_host = inr conn ->
  get_all_buckets conn st = inr all ->
  (forall b, In b all -> bucket2_name b <> name) ->
  create_bucket2 conn name st = (inr b, st') ->
  get_versioning_status b st' = inr status ->
  get_bucket w name true false st
  = {| ended := inr (Some b); left := st';
       printed := ["New bucket " ++ name ++ " was created"; status] |}.
Proof.
  intros Hr Ha Hnone Hc Hs.
  unfold get_bucket, boto_after_create, io_bind, io_pure,
    io_read, io_write, io_ret, io_print.
  simpl. rewrite Hr. simpl. rewrite Ha. simpl.
  rewrite filter_none;
    [| intros x Hx; apply String.eqb_neq; now apply Hnone].
  simpl. rewrite Hc. simpl. rewrite Hs. reflexivity.
Qed.

End BucketsFacts.

(* ===================================================================== *)
(** * s3_get_articles *)
(* ===================================================================== *)

Section Articles.

Context {number : Type} {L : Libs number} {sdk : Sdk}.

(** X16.  Only the first object listed under the issue is read: an
    empty listing gives [IndexError], and two listings whose first
    objects have the same content give the same result, whatever else
    they list. *)
Theorem articles_from_first_object
  issue_path bucket workers st issue_path' bucket' workers' st'
  listing listing' :
  s3_iter_bucket bucket issue_path (workers_used workers) st = inr listing ->
  s3_iter_bucket bucket' issue_path' (workers_used workers') st'
  = inr listing' ->
  (listing = [] ->
   s3_get_articles issue_path bucket workers st = inl IndexError)
  /\ (forall first rest first' rest',
        listing = first :: rest -> listing' = first' :: rest' ->
        snd first = snd first' ->
        s3_get_articles issue_path bucket workers st
        = s3_get_articles issue_path' bucket' workers' st').
Proof.
  intros H H'. unfold s3_get_articles. fold (workers_used workers).
  fold (workers_used workers'). rewrite H, H'. split.
  - now intros ->.
  - intros first rest first' rest' -> -> Hc. simpl. now rewrite Hc.
Qed.

Lemma select_articles_typed (items : list (json number)) :
  (forall item, In item items -> exists keep, is_article item = inr keep) ->
  select_articles items = inr (filter is_article_item items).
Proof.
  induction items as [| item items IH]; intros H; [reflexivity |].
  cbn [select_articles filter]. unfold is_article_item at 1.
  destruct (H item (or_introl eq_refl)) as [keep ->]. simpl.
  rewrite IH by (intros x Hx; apply H; now right). simpl.
  now destruct keep.
Qed.

Lemma select_articles_stops
  (pre : list (json number)) (bad : json number) post e :
  (forall item, In item pre -> exists keep, is_article item = inr keep) ->
  is_article bad = inl e ->
  select_articles (pre ++ bad :: post)%list = inl e.
Proof.
  intros Hpre Hbad. induction pre as [| item pre IH]; simpl.
  - now rewrite Hbad.
  - destruct (Hpre item (or_introl eq_refl)) as [keep ->]. simpl.
    rewrite IH by (intros x Hx; apply Hpre; now right). reflexivity.
Qed.

(** X17.  When the issue holds under [i] a list of items that all have
    a type under [m], the result is the items whose type is
    ["article"], in their order: no advertisement, nothing else. *)
Theorem articles_are_the_article_items
  issue_path bucket workers st first rest text issue_json items :
  s3_iter_bucket bucket issue_path (workers_used workers) st
  = inr (first :: rest) ->
  utf8_decode (snd first) = inr text ->
  json_loads text = inr issue_json ->
  getitem issue_json "i" = inr (JList items) ->
  (forall item, In item items ->
     exists m tp, getitem item "m" = inr m /\ getitem m "tp" = inr tp) ->
  s3_get_articles issue_path bucket workers st
  = inr (filter is_article_item items)
  /\ forall item,
       In item (filter is_article_item items) ->
       In item items
       /\ exists m, getitem item "m" = inr m
                    /\ getitem m "tp" = inr (JStr "article").
Proof.
  intros Hl Hd Hj Hi Hitems. split.
  - unfold s3_get_articles. fold (workers_used workers). rewrite Hl. simpl.
    rewrite Hd. simpl. rewrite Hj. simpl. rewrite Hi. simpl.
    rewrite select_articles_typed; [reflexivity |].
    intros item Hin. destruct (Hitems item Hin) as (m & tp & Hm & Htp).
    exists (eq_str tp "article"). unfold is_article. rewrite Hm. simpl.
    now rewrite Htp.
  - intros item Hin. apply filter_In in Hin as [Hin Hkeep].
    split; [exact Hin |].
    destruct (Hitems item Hin) as (m & tp & Hm & Htp). exists m.
    split; [exact Hm |].
    unfold is_article_item, is_article in Hkeep. rewrite Hm in Hkeep.
    simpl in Hkeep. rewrite Htp in Hkeep. simpl in Hkeep.
    destruct tp; try discriminate. simpl in Hkeep.
    apply String.eqb_eq in Hkeep. now subst.
Qed.

(** X18.  One item without a type ends the call with its exception,
    whatever the other items are: no article is returned. *)
Theorem articles_stop_at_untyped_item
  issue_path bucket workers st first rest text issue_json pre bad post e :
  s3_iter_bucket bucket issue_path (workers_used workers) st
  = inr (first :: rest) ->
  utf8_decode (snd first) = inr text ->
  json_loads text = inr issue_json ->
  getitem issue_json "i" = inr (JList (pre ++ bad :: post)%list) ->
  (forall item, In item pre -> exists keep, is_article item = inr keep) ->
  is_article bad = inl e ->
  s3_get_articles issue_path bucket workers st = inl (Lib e).
Proof.
  intros Hl Hd Hj Hi Hpre Hbad.
  unfold s3_get_articles. fold (workers_used workers). rewrite Hl. simpl.
  rewrite Hd. simpl. rewrite Hj. simpl. rewrite Hi. simpl.
  now rewrite (select_articles_stops pre bad post e Hpre Hbad).
Qed.

(** X19.  The items must be in a list: when [i] holds a dict with a key
    or a str with a character, the loop runs over strs and the first
    subscript raises [TypeError]. *)
Theorem articles_need_a_list
  issue_path bucket workers st first rest text issue_json items :
  s3_iter_bucket bucket issue_path (workers_used workers) st
  = inr (first :: rest) ->
  utf8_decode (snd first) = inr text ->
  json_loads text = inr issue_json ->
  getitem issue_json "i" = inr items ->
  (exists k v d, items = JDict ((k, v) :: d))
  \/ (exists c s, items = JStr (String c s)) ->
  s3_get_articles issue_path bucket workers st = inl (Lib TypeError).
Proof.
  intros Hl Hd Hj Hi Hshape.
  unfold s3_get_articles. fold (workers_used workers). rewrite Hl. simpl.
  rewrite Hd. simpl. rewrite Hj. simpl. rewrite Hi. simpl.
  destruct Hshape as [(k & v & d & ->) | (c & s & ->)]; reflexivity.
Qed.

End Articles.

(* ===================================================================== *)
(** * s3_get_pages *)
(* ===================================================================== *)

Lemma dict_get_set_same {V} (d : dict V) k v :
  dict_get (dict_set d k v) k = Some v.
Proof.
  induction d as [| [k' v'] d IH]; simpl.
  - now rewrite String.eqb_refl.
  - destruct (String.eqb_spec k' k) as [-> | Hk]; simpl.
    + now rewrite String.eqb_refl.
    + apply String.eqb_neq in Hk. now rewrite Hk.
Qed.

Lemma dict_get_set_other {V} (d : dict V) k v k' :
  k' <> k -> dict_get (dict_set d k v) k' = dict_get d k'.
Proof.
  intros Hne. induction d as [| [k0 v0] d IH]; simpl.
  - apply not_eq_sym in Hne. apply String.eqb_neq in Hne. now rewrite Hne.
  - destruct (String.eqb_spec k0 k) as [-> | Hk]; simpl.
    + apply not_eq_sym in Hne. apply String.eqb_neq in Hne. now rewrite Hne.
    + now rewrite IH.
Qed.

Lemma dict_set_keys_iff {V} (d : dict V) k v x :
  In x (dict_keys (dict_set d k v)) <-> In x (dict_keys d) \/ x = k.
Proof.
  induction d as [| [k' v'] d IH]; simpl.
  - split; [intros [<- | []]; now right | intros [[] | ->]; now left].
  - destruct (String.eqb_spec k' k) as [-> | Hk]; simpl.
    + split; [tauto | intros [H | ->]; [exact H | now left]].
    + rewrite IH. tauto.
Qed.

Lemma replace_char_clean old new s :
  old <> new -> contains old (replace_char old new s) = false.
Proof.
  intros Hne. induction s as [| c s IH]; [reflexivity |]. simpl.
  rewrite IH, orb_false_r.
  destruct (Ascii.eqb_spec c old) as [-> | Hc].
  - apply Ascii.eqb_neq. now apply not_eq_sym.
  - now apply Ascii.eqb_neq.
Qed.

Section Pages.

Context {number : Type} {L : Libs number} {sdk : Sdk}.

Lemma file_name_page_key issue_id page :
  file_name (page_key issue_id page) = file_name page.
Proof. exact (file_name_os_path_join _ [] page). Qed.

Lemma read_page_ok issue_id bucket st pages page content value :
  key_name (get_key bucket (page_key issue_id page)) = page_key issue_id page ->
  get_contents_as_string (get_key bucket (page_key issue_id page)) st
  = inr content ->
  ebind (utf8_decode content) json_loads = inr value ->
  read_page issue_id bucket st pages page
  = inr (dict_set pages (file_name page) value).
Proof.
  intros Hn Hc Hv. unfold read_page.
  rewrite Hc. simpl. rewrite Hv. simpl. rewrite Hn, last_item_split. simpl.
  fold (file_name (page_key issue_id page)).
  now rewrite file_name_page_key.
Qed.

Lemma read_page_fails issue_id bucket st pages page e :
  get_contents_as_string (get_key bucket (page_key issue_id page)) st = inl e
  \/ (exists content,
        get_contents_as_string (get_key bucket (page_key issue_id page)) st
        = inr content
        /\ ebind (utf8_decode content) json_loads = inl e) ->
  read_page issue_id bucket st pages page = inl (Lib e).
Proof.
  unfold read_page.
  intros [-> | (content & -> & Hv)]; [reflexivity |]. simpl.
  now rewrite Hv.
Qed.

Lemma read_pages_ok issue_id bucket st value_of values pages :
  (forall n, key_name (get_key bucket n) = n) ->
  Forall (readable issue_id bucket st value_of) values ->
  read_pages issue_id bucket st pages values
  = inr (fold_left (store_page value_of) values pages).
Proof.
  intros Hn Hall. revert pages.
  induction Hall as [| page values (content & Hc & Hv) _ IH]; intros pages;
    [reflexivity |].
  cbn [read_pages fold_left].
  rewrite (read_page_ok _ _ _ _ _ _ _ (Hn _) Hc Hv). simpl. apply IH.
Qed.

(** X20.  Each page is stored under its file name: whatever the issue
    id and the directories in the page name, the key of a page in the
    result is what follows the last slash of its name. *)
Theorem pages_by_file_name issue_id page_names bucket st value_of :
  (forall n, key_name (get_key bucket n) = n) ->
  Forall (readable issue_id bucket st value_of) (map snd page_names) ->
  s3_get_pages issue_id page_names bucket st
  = inr (fold_left (store_page value_of) (map snd page_names) []).
Proof. intros Hn Hall. now apply read_pages_ok. Qed.

(** X21.  The first page that cannot be read ends the call with its
    exception: the pages read before it are not returned. *)
Theorem pages_fail_fast
  issue_id page_names bucket st value_of pre page post e :
  (forall n, key_name (get_key bucket n) = n) ->
  map snd page_names = (pre ++ page :: post)%list ->
  Forall (readable issue_id bucket st value_of) pre ->
  get_contents_as_string (get_key bucket (page_key issue_id page)) st = inl e
  \/ (exists content,
        get_contents_as_string (get_key bucket (page_key issue_id page)) st
        = inr content
        /\ ebind (utf8_decode content) json_loads = inl e) ->
  s3_get_pages issue_id page_names bucket st = inl (Lib e).
Proof.
  intros Hn Hv Hpre Hbad. unfold s3_get_pages. rewrite Hv. clear Hv.
  generalize (@nil (string * json number)).
  induction Hpre as [| p pre (content & Hc & Hval) _ IH]; intros pages.
  - cbn [app read_pages]. now rewrite (read_page_fails _ _ _ _ _ _ Hbad).
  - cbn [app read_pages].
    rewrite (read_page_ok _ _ _ _ _ _ _ (Hn _) Hc Hval). simpl. apply IH.
Qed.

Lemma store_pages_keys (value_of : string -> json number) values pages k :
  In k (dict_keys (fold_left (store_page value_of) values pages))
  <-> In k (dict_keys pages) \/ In k (map file_name values).
Proof.
  revert pages. induction values as [| page values IH]; intros pages; simpl.
  - tauto.
  - rewrite IH. unfold store_page. rewrite dict_set_keys_iff.
    split; [intros [[H | ->] | H] | intros [H | [<- | H]]]; auto.
Qed.

Lemma store_pages_nodup (value_of : string -> json number) values pages :
  NoDup (dict_keys pages) ->
  NoDup (dict_keys (fold_left (store_page value_of) values pages)).
Proof.
  revert pages. induction values as [| page values IH]; intros pages H;
    [exact H |].
  simpl. apply IH. now apply PyJsonFacts.dict_set_nodup.
Qed.

Lemma store_pages_get (value_of : string -> json number) post pages k :
  ~ In k (map file_name post) ->
  dict_get (fold_left (store_page value_of) post pages) k = dict_get pages k.
Proof.
  revert pages. induction post as [| page post IH]; intros pages H;
    [reflexivity |].
  simpl. rewrite IH by (intros Hin; apply H; now right).
  apply dict_get_set_other. intros ->. apply H. now left.
Qed.

(** X22.  The result has one entry for each file name among the pages;
    of two pages with the same file name the later one is kept. *)
Theorem pages_later_wins
  issue_id page_names bucket st value_of pre page post :
  (forall n, key_name (get_key bucket n) = n) ->
  Forall (readable issue_id bucket st value_of) (map snd page_names) ->
  map snd page_names = (pre ++ page :: post)%list ->
  ~ In (file_name page) (map file_name post) ->
  exists pages,
    s3_get_pages issue_id page_names bucket st = inr pages
    /\ NoDup (dict_keys pages)
    /\ (forall k, In k (dict_keys pages)
                  <-> In k (map file_name (map snd page_names)))
    /\ dict_get pages (file_name page) = Some (value_of page).
Proof.
  intros Hn Hall Hv Hlast. eexists.
  split; [exact (read_pages_ok _ _ _ _ _ [] Hn Hall) |]. split; [| split].
  - apply store_pages_nodup. constructor.
  - intros k. rewrite store_pages_keys. simpl. tauto.
  - rewrite Hv, fold_left_app. simpl.
    rewrite (store_pages_get _ _ _ _ Hlast). unfold store_page at 1.
    apply dict_get_set_same.
Qed.

Lemma page_key_rooted issue_id page :
  startswith page "/" = true -> page_key issue_id page = page.
Proof.
  intros H. unfold page_key, os_path_join. cbn [fold_left].
  unfold join_step. now rewrite H.
Qed.

Lemma read_pages_rooted issue_id issue_id' bucket st values :
  Forall (fun page => startswith page "/" = true) values ->
  forall pages,
    read_pages issue_id bucket st pages values
    = read_pages issue_id' bucket st pages values.
Proof.
  induction 1 as [| page values Hp _ IH]; intros pages; [reflexivity |].
  cbn [read_pages]. unfold read_page.
  rewrite (page_key_rooted issue_id page Hp).
  rewrite (page_key_rooted issue_id' page Hp).
  match goal with
  | |- xbind ?r _ = _ => destruct r as [e | pages']
  end; [reflexivity | apply IH].
Qed.

Lemma ends_with_slash_after_replace s :
  endswith (replace_char dash slash s) "/"
  = endswith s "-" || endswith s "/".
Proof.
  induction s as [| c s IH]; [reflexivity |].
  cbn [replace_char endswith]. rewrite IH.
  assert (H : String.eqb (String (if Ascii.eqb c dash then slash else c)
                            (replace_char dash slash s)) "/"
              = String.eqb (String c s) "-" || String.eqb (String c s) "/").
  { cbn [String.eqb].
    assert (Hs : String.eqb (replace_char dash slash s) "" = String.eqb s "")
      by now destruct s.
    rewrite Hs. destruct (Ascii.eqb_spec c dash) as [-> | Hc].
    - now destruct (String.eqb s "").
    - apply Ascii.eqb_neq in Hc. unfold dash in Hc. now rewrite Hc. }
  rewrite H.
  destruct (String.eqb (String c s) "-"), (String.eqb (String c s) "/"),
    (endswith s "-"), (endswith s "/"); reflexivity.
Qed.

(** X23.  The key a page is asked under.  For an issue id that is not
    empty and ends neither with a dash nor with a slash, and a page name
    that does not start with a slash, it is the issue id with a slash
    for each dash, a slash and the page name.  A page name that starts
    with a slash is asked as it is: when all do, the issue id counts for
    nothing. *)
Theorem pages_asked_under issue_id page_names bucket st :
  (forall page,
      startswith page "/" = false -> issue_id <> "" ->
      endswith issue_id "-" = false -> endswith issue_id "/" = false ->
      page_key issue_id page
      = replace_char dash slash issue_id ++ "/" ++ page
      /\ contains dash (replace_char dash slash issue_id) = false)
  /\ (Forall (fun page => startswith page "/" = true) (map snd page_names) ->
      forall issue_id',
        s3_get_pages issue_id page_names bucket st
        = s3_get_pages issue_id' page_names bucket st).
Proof.
  split.
  - intros page Hp Hne Hd Hs. split; [| apply replace_char_clean; discriminate].
    unfold page_key, os_path_join. cbn [fold_left]. unfold join_step.
    rewrite Hp, ends_with_slash_after_replace, Hd, Hs.
    destruct issue_id; [congruence | reflexivity].
  - intros Hall issue_id'. unfold s3_get_pages. now apply read_pages_rooted.
Qed.

End Pages.

(* ===================================================================== *)
(** * get_s3_versions and get_s3_versions_client *)
(* ===================================================================== *)

Section Versions.

Context {sdk : Sdk}.

Lemma version_ids_sized (versions : list Version) st :
  (forall v, In v versions -> sized v = true ->
             exists answer, version_get v st = inr answer) ->
  exists ids,
    version_ids versions st = inr ids
    /\ Forall2 (id_of st) (filter sized versions) ids.
Proof.
  induction versions as [| v versions IH]; intros H.
  - exists []. split; [reflexivity | constructor].
  - destruct IH as (ids & Hids & Hall);
      [intros x Hx; apply H; now right |].
    cbn [version_ids filter]. unfold sized at 1.
    destruct (version_size v) as [size |] eqn:Hsize.
    + destruct (H v (or_introl eq_refl)) as [answer Ha];
        [unfold sized; now rewrite Hsize |].
      exists ((dict_get answer "VersionId", dict_get answer "LastModified")
              :: ids).
      rewrite Ha, Hids. split; [reflexivity |].
      constructor; [now exists answer | exact Hall].
    + exists ids. now split.
Qed.

Lemma version_ids_stops (pre : list Version) v post st e :
  (forall x, In x pre -> sized x = true ->
             exists answer, version_get x st = inr answer) ->
  sized v = true -> version_get v st = inl e ->
  version_ids (pre ++ v :: post)%list st = inl e.
Proof.
  intros Hpre Hv He. induction pre as [| x pre IH]; cbn [app version_ids].
  - unfold sized in Hv. destruct (version_size v); [| discriminate].
    now rewrite He.
  - rewrite IH by (intros y Hy; apply Hpre; now right).
    destruct (version_size x) eqn:Hsize; [| reflexivity].
    destruct (Hpre x (or_introl eq_refl)) as [answer ->];
      [unfold sized; now rewrite Hsize | reflexivity].
Qed.

(** X24.  The versions of a key: one pair for each listed version that
    has a size, in the order of the listing, made of the [VersionId] and
    the [LastModified] of its answer, [None] for a field the answer does
    not have.  A version without a size is never asked.  Both functions
    give the same on the resource of the environment. *)
Theorem versions_of_sized client bucket_name key_name st bucket versions :
  s3_Bucket client (Some bucket_name) = inr bucket ->
  object_versions_filter bucket key_name st = inr versions ->
  (forall v, In v versions -> sized v = true ->
             exists answer, version_get v st = inr answer) ->
  exists ids,
    get_s3_versions_client client bucket_name key_name st = inr ids
    /\ Forall2 (id_of st) (filter sized versions) ids
    /\ forall w,
         get_s3_resource w (Some default_host_url) = inr client ->
         get_s3_versions w bucket_name key_name st = inr ids.
Proof.
  intros Hb Hv Hget.
  destruct (version_ids_sized versions st Hget) as (ids & Hids & Hall).
  exists ids. split; [| split; [exact Hall |]].
  - unfold get_s3_versions_client. rewrite Hb. simpl. rewrite Hv. exact Hids.
  - intros w Hw. unfold get_s3_versions. rewrite Hw. simpl.
    rewrite Hb. simpl. rewrite Hv. exact Hids.
Qed.

(** X25.  The first version with a size that does not answer ends the
    call with its exception: no pair is returned, whatever the versions
    listed after it. *)
Theorem versions_fail_fast
  client bucket_name key_name st bucket pre v post e :
  s3_Bucket client (Some bucket_name) = inr bucket ->
  object_versions_filter bucket key_name st = inr (pre ++ v :: post)%list ->
  (forall x, In x pre -> sized x = true ->
             exists answer, version_get x st = inr answer) ->
  sized v = true -> version_get v st = inl e ->
  get_s3_versions_client client bucket_name key_name st = inl e.
Proof.
  intros Hb Hv Hpre Hs He.
  unfold get_s3_versions_client. rewrite Hb. simpl. rewrite Hv. simpl.
  now apply version_ids_stops.
Qed.

End Versions.

(* ===================================================================== *)
(** * The functions on the store in memory *)
(* ===================================================================== *)

Section OnTheMemoryStore.

Import Examples.

#[local] Existing Instance Memory.sdk.
#[local] Existing Instance Fixture.libs.

Lemma no_credentials_no_request_witness :
  get_s3_resource no_credentials (Some default_host_url)
  = inl (KeyError "SE_ACCESS_KEY")
  /\ read_jsonlines (L:=Fixture.libs) no_credentials Fixture.key Fixture.bucket
     = Raise (KeyError "SE_ACCESS_KEY")
  /\ get_bucket_boto3 (sdk:=Memory.sdk) no_credentials "new" true true
       partitions
     = {| ended := inl (Lib (KeyError "SE_ACCESS_KEY"));
          left := partitions; printed := [] |}
  /\ fixed_s3fs_glob (sdk:=Memory.sdk) no_credentials "archive/GDL/*" None
       partitions
     = inl (Lib (KeyError "SE_ACCESS_KEY")).
Proof.
  assert (H : get_s3_resource no_credentials (Some default_host_url)
              = inl (KeyError "SE_ACCESS_KEY")) by reflexivity.
  split; [exact H |].
  destruct (no_credentials_no_request (L:=Fixture.libs) (sdk:=Memory.sdk)
              no_credentials _ H) as (Hread & Hbucket & _ & _ & Hglob).
  split; [apply Hread |]. split; [apply Hbucket | apply Hglob].
Defined.

Lemma upload_key_shape_witness :
  upload_key_name "out/GDL-1903.jsonl.bz2" "GDL"
  = inr "/GDL/GDL-1903.jsonl.bz2".
Proof.
  destruct (upload_key_shape "out/GDL-1903.jsonl.bz2" "GDL")
    as (key & H & _ & _ & _ & Hkey).
  rewrite H, Hkey; [reflexivity | discriminate | reflexivity | reflexivity].
Defined.

Lemma upload_reports_failure_witness :
  get_s3_resource Memory.env (Some default_host_url) = inr resource
  /\ printed (upload (sdk:=Memory.sdk) Memory.env "out/GDL-1903.jsonl.bz2"
                "GDL" (Some "lost") partitions) = []
  /\ ended (upload (sdk:=Memory.sdk) Memory.env "out/GDL-1903.jsonl.bz2"
              "GDL" (Some "lost") partitions)
     = inr (false, "out/GDL-1903.jsonl.bz2")
  /\ left (upload (sdk:=Memory.sdk) Memory.env "out/GDL-1903.jsonl.bz2"
             "GDL" (Some "lost") partitions) = partitions.
Proof.
  assert (H : get_s3_resource Memory.env (Some default_host_url)
              = inr resource) by reflexivity.
  split; [exact H |].
  destruct (upload_reports_failure (sdk:=Memory.sdk) Memory.env
              "out/GDL-1903.jsonl.bz2" "GDL" (Some "lost") partitions
              resource H) as (Hp & _ & He).
  split; [exact Hp |]. split; [exact He | reflexivity].
Defined.

Lemma glob_needs_one_star_witness :
  count_char star "GDL/*/*.bz2" = 2
  /\ fixed_s3fs_glob (sdk:=Memory.sdk) Memory.env "GDL/*/*.bz2"
       (Some "archive") partitions
     = inl (Lib ValueError).
Proof.
  assert (H : count_char star "GDL/*/*.bz2" = 2) by reflexivity.
  split; [exact H |].
  apply (glob_needs_one_star (sdk:=Memory.sdk)). rewrite H. discriminate.
Defined.

Lemma glob_lists_prefix_and_ending_witness :
  count_char star "GDL/*.bz2" = 1
  /\ exists base ending,
       "GDL/*.bz2" = base ++ String star ending
       /\ contains star base = false /\ contains star ending = false
       /\ fixed_s3fs_glob (sdk:=Memory.sdk) Memory.env "GDL/*.bz2"
            (Some "archive") partitions
          = match objects_filter (Sdk:=Memory.sdk) "archive" base partitions
            with
            | inl e => inl (Lib e)
            | inr keys =>
                inr (map (glob_name "archive")
                       (filter (fun key => endswith key ending) keys))
            end.
Proof.
  assert (H : count_char star "GDL/*.bz2" = 1) by reflexivity.
  split; [exact H |].
  exact (glob_lists_prefix_and_ending (sdk:=Memory.sdk) Memory.env
           "GDL/*.bz2" "archive" partitions H).
Defined.

Lemma glob_names_match_witness :
  objects_filter (Sdk:=Memory.sdk) "archive" "GDL/" partitions
  = inr ["GDL/GDL-1900.jsonl.bz2"; "GDL/GDL-1901.jsonl"; "GDL/"]
  /\ fixed_s3fs_glob (sdk:=Memory.sdk) Memory.env "GDL/*.bz2"
       (Some "archive") partitions
     = inr ["s3://archive/GDL/GDL-1900.jsonl.bz2"]
  /\ exists key,
       In key ["GDL/GDL-1900.jsonl.bz2"; "GDL/GDL-1901.jsonl"; "GDL/"]
       /\ "s3://archive/GDL/GDL-1900.jsonl.bz2" = glob_name "archive" key
       /\ startswith key "GDL/" = true /\ endswith key ".bz2" = true
       /\ (4 + 4 <= String.length key ->
           exists middle, key = "GDL/" ++ middle ++ ".bz2").
Proof.
  assert (Hk : objects_filter (Sdk:=Memory.sdk) "archive" "GDL/" partitions
               = inr ["GDL/GDL-1900.jsonl.bz2"; "GDL/GDL-1901.jsonl"; "GDL/"])
    by reflexivity.
  assert (Hg : fixed_s3fs_glob (sdk:=Memory.sdk) Memory.env "GDL/*.bz2"
                 (Some "archive") partitions
               = inr ["s3://archive/GDL/GDL-1900.jsonl.bz2"]) by reflexivity.
  assert (Hpre : forall key,
             In key ["GDL/GDL-1900.jsonl.bz2"; "GDL/GDL-1901.jsonl"; "GDL/"] ->
             startswith key "GDL/" = true)
    by (intros key [<- | [<- | [<- | []]]]; reflexivity).
  split; [exact Hk |]. split; [exact Hg |].
  exact (glob_names_match (sdk:=Memory.sdk) Memory.env "GDL/" ".bz2" "archive"
           partitions _ "s3://archive/GDL/GDL-1900.jsonl.bz2"
           eq_refl eq_refl Hk Hpre _ Hg (or_introl eq_refl)).
Defined.

Lemma glob_accepts_overlap_witness :
  In "GDL/" ["GDL/GDL-1900.jsonl.bz2"; "GDL/GDL-1901.jsonl"; "GDL/"]
  /\ exists names,
       fixed_s3fs_glob (sdk:=Memory.sdk) Memory.env "GDL/*GDL/"
         (Some "archive") partitions = inr names
       /\ In "s3://archive/GDL/" names.
Proof.
  assert (Hin : In "GDL/"
                  ["GDL/GDL-1900.jsonl.bz2"; "GDL/GDL-1901.jsonl"; "GDL/"])
    by (right; right; left; reflexivity).
  assert (Hk : objects_filter (Sdk:=Memory.sdk) "archive" "GDL/" partitions
               = inr ["GDL/GDL-1900.jsonl.bz2"; "GDL/GDL-1901.jsonl"; "GDL/"])
    by reflexivity.
  assert (Hne : "GDL/" <> "") by discriminate.
  split; [exact Hin |].
  destruct (glob_accepts_overlap (sdk:=Memory.sdk) Memory.env "GDL/" "archive"
              partitions _ Hne eq_refl Hk Hin) as (names & Hg & Hn & _).
  exists names. split; [exact Hg | exact Hn].
Defined.

Lemma glob_bucket_from_path_witness :
  get_boto3_bucket (sdk:=Memory.sdk) Memory.env "archive" = inr "archive"
  /\ fixed_s3fs_glob (sdk:=Memory.sdk) Memory.env "archive/GDL/*.bz2" None
       partitions
     = inr ["s3://archive/GDL/GDL-1900.jsonl.bz2"]
  /\ fixed_s3fs_glob (sdk:=Memory.sdk) Memory.env "s3://archive/GDL/*.bz2"
       None partitions
     = inr ["s3://archive/GDL/GDL-1900.jsonl.bz2"].
Proof.
  assert (Hb : get_boto3_bucket (sdk:=Memory.sdk) Memory.env "archive"
               = inr "archive") by reflexivity.
  assert (Hne : "archive" <> "s3:") by discriminate.
  assert (Hname : forall bucket,
             get_boto3_bucket (sdk:=Memory.sdk) Memory.env "archive"
             = inr bucket ->
             bucket3_name bucket = "archive").
  { intros bucket H. rewrite Hb in H. now injection H as <-. }
  split; [exact Hb |].
  exact (glob_bucket_from_path (sdk:=Memory.sdk) Memory.env "archive"
           "GDL/*.bz2" partitions eq_refl Hne Hname).
Defined.

Lemma glob_name_of_uploaded_witness :
  upload_key_name "out/GDL-1902.jsonl.bz2" "GDL"
  = inr "/GDL/GDL-1902.jsonl.bz2"
  /\ glob_name "archive" "/GDL/GDL-1902.jsonl.bz2"
     = "s3:///GDL/GDL-1902.jsonl.bz2"
  /\ glob_name "archive" "GDL/GDL-1900.jsonl.bz2"
     = "s3://archive/GDL/GDL-1900.jsonl.bz2".
Proof.
  assert (H : upload_key_name "out/GDL-1902.jsonl.bz2" "GDL"
              = inr "/GDL/GDL-1902.jsonl.bz2") by reflexivity.
  assert (Hne : "archive" <> "") by discriminate.
  split; [exact H |].
  destruct (glob_name_of_uploaded _ _ _ H) as [Hrooted Hother].
  split; [apply Hrooted |].
  exact (Hother "archive" "GDL/GDL-1900.jsonl.bz2" eq_refl Hne eq_refl).
Defined.

Lemma existing_bucket_is_returned_witness :
  buckets_all (Sdk:=Memory.sdk) resource partitions = inr ["archive"]
  /\ exists found,
       get_bucket_boto3 (sdk:=Memory.sdk) Memory.env "archive" true true
         partitions
       = {| ended := inr (Some found); left := partitions; printed := [] |}
       /\ In found ["archive"] /\ bucket3_name found = "archive".
Proof.
  assert (Hr : get_s3_resource Memory.env (Some default_host_url)
               = inr resource) by reflexivity.
  assert (Ha : buckets_all (Sdk:=Memory.sdk) resource partitions
               = inr ["archive"]) by reflexivity.
  split; [exact Ha |].
  exact (existing_bucket_is_returned (sdk:=Memory.sdk) Memory.env "archive"
           true true partitions resource ["archive"] "archive"
           Hr Ha (or_introl eq_refl) eq_refl).
Defined.

Lemma missing_bucket_not_created_witness :
  buckets_all (Sdk:=Memory.sdk) resource partitions = inr ["archive"]
  /\ get_bucket_boto3 (sdk:=Memory.sdk) Memory.env "new" false true partitions
     = {| ended := inr None; left := partitions;
          printed := ["Bucket new not found"] |}.
Proof.
  assert (Hr : get_s3_resource Memory.env (Some default_host_url)
               = inr resource) by reflexivity.
  assert (Ha : buckets_all (Sdk:=Memory.sdk) resource partitions
               = inr ["archive"]) by reflexivity.
  assert (Hnone : forall b : string,
             In b ["archive"] -> bucket3_name (Sdk:=Memory.sdk) b <> "new")
    by (intros b [<- | []]; discriminate).
  split; [exact Ha |].
  exact (missing_bucket_not_created (sdk:=Memory.sdk) Memory.env "new" true
           partitions resource ["archive"] Hr Ha Hnone).
Defined.

Lemma boto3_create_needs_versioning_witness :
  buckets_all (Sdk:=Memory.sdk) resource partitions = inr ["archive"]
  /\ get_bucket_boto3 (sdk:=Memory.sdk) Memory.env "new" true false partitions
     = {| ended := inl (UnboundLocalError "bucket_versioning");
          left := (partitions ++ [Memory.empty_bucket "new"])%list;
          printed := ["New bucket new was created"] |}.
Proof.
  assert (Hr : get_s3_resource Memory.env (Some default_host_url)
               = inr resource) by reflexivity.
  assert (Ha : buckets_all (Sdk:=Memory.sdk) resource partitions
               = inr ["archive"]) by reflexivity.
  assert (Hnone : forall b : string,
             In b ["archive"] -> bucket3_name (Sdk:=Memory.sdk) b <> "new")
    by (intros b [<- | []]; discriminate).
  split; [exact Ha |].
  destruct (boto3_create_needs_versioning (sdk:=Memory.sdk) Memory.env "new"
              partitions resource ["archive"] Hr Ha Hnone) as [_ H].
  exact (H "new" _ eq_refl).
Defined.

Lemma boto_create_without_versioning_witness :
  get_all_buckets (Sdk:=Memory.sdk) connection partitions = inr ["archive"]
  /\ get_bucket (sdk:=Memory.sdk) Memory.env "new" true false partitions
     = {| ended := inr (Some "new");
          left := (partitions ++ [Memory.empty_bucket "new"])%list;
          printed := ["New bucket new was created"; "{}"] |}.
Proof.
  assert (Hc : get_s3_connection Memory.env default_host = inr connection)
    by reflexivity.
  assert (Ha : get_all_buckets (Sdk:=Memory.sdk) connection partitions
               = inr ["archive"]) by reflexivity.
  assert (Hnone : forall b : string,
             In b ["archive"] -> bucket2_name (Sdk:=Memory.sdk) b <> "new")
    by (intros b [<- | []]; discriminate).
  split; [exact Ha |].
  exact (boto_create_without_versioning (sdk:=Memory.sdk) Memory.env "new"
           partitions connection ["archive"] "new"
           (partitions ++ [Memory.empty_bucket "new"])%list "{}"
           Hc Ha Hnone eq_refl eq_refl).
Defined.

Lemma articles_from_first_object_witness :
  s3_get_articles (L:=Fixture.libs) (sdk:=Memory.sdk) "none" "archive" None
    (with_issue issue_text)
  = inl IndexError
  /\ s3_get_articles (L:=Fixture.libs) (sdk:=Memory.sdk) issue_path "archive"
       None (with_issue issue_text)
     = s3_get_articles (L:=Fixture.libs) (sdk:=Memory.sdk) issue_key "archive"
         (Some 2) (with_issue_only issue_text).
Proof.
  assert (Hnone : s3_iter_bucket (Sdk:=Memory.sdk) "archive" "none"
                    (workers_used None) (with_issue issue_text) = inr [])
    by reflexivity.
  assert (Hall : s3_iter_bucket (Sdk:=Memory.sdk) "archive" issue_path
                   (workers_used None) (with_issue issue_text)
                 = inr [(("archive", issue_key),
                         list_byte_of_string issue_text);
                        (("archive", issue_path ++ ".txt"),
                         list_byte_of_string "not json")])
    by reflexivity.
  assert (Hone : s3_iter_bucket (Sdk:=Memory.sdk) "archive" issue_key
                   (workers_used (Some 2)) (with_issue_only issue_text)
                 = inr [(("archive", issue_key),
                         list_byte_of_string issue_text)])
    by reflexivity.
  split.
  - destruct (articles_from_first_object (L:=Fixture.libs) (sdk:=Memory.sdk)
                _ _ _ _ _ _ _ _ _ _
                Hnone Hone) as [H _].
    exact (H eq_refl).
  - destruct (articles_from_first_object (L:=Fixture.libs) (sdk:=Memory.sdk)
                _ _ _ _ _ _ _ _ _ _
                Hall Hone) as [_ H].
    exact (H _ _ _ _ eq_refl eq_refl eq_refl).
Defined.

Lemma articles_are_the_article_items_witness :
  json_loads issue_text
  = inr (JDict [("i", JList [item_json "a1" "article"; item_json "a2" "ad";
                             item_json "a3" "article"])])
  /\ s3_get_articles (L:=Fixture.libs) (sdk:=Memory.sdk) issue_path "archive"
       None (with_issue issue_text)
     = inr [item_json "a1" "article"; item_json "a3" "article"].
Proof.
  assert (Hl : s3_iter_bucket (Sdk:=Memory.sdk) "archive" issue_path
                 (workers_used None) (with_issue issue_text)
               = inr ((("archive", issue_key), list_byte_of_string issue_text)
                      :: [(("archive", issue_path ++ ".txt"),
                           list_byte_of_string "not json")]))
    by reflexivity.
  assert (Hd : utf8_decode (list_byte_of_string issue_text) = inr issue_text)
    by reflexivity.
  assert (Hj : json_loads issue_text
               = inr (JDict [("i", JList [item_json "a1" "article";
                                          item_json "a2" "ad";
                                          item_json "a3" "article"])]))
    by reflexivity.
  assert (Hitems : forall item,
             In item [item_json "a1" "article"; item_json "a2" "ad";
                      item_json "a3" "article"] ->
             exists m tp, getitem item "m" = inr m /\ getitem m "tp" = inr tp).
  { intros item [<- | [<- | [<- | []]]]; eexists _, _; split; reflexivity. }
  split; [exact Hj |].
  destruct (articles_are_the_article_items (L:=Fixture.libs) (sdk:=Memory.sdk)
                _ _ _ _ _ _ _ _ _
              Hl Hd Hj eq_refl Hitems) as [H _].
  exact H.
Defined.

Lemma articles_stop_at_untyped_item_witness :
  is_article (JDict [("id", JStr "a2")] : json Z) = inl (KeyError "m")
  /\ s3_get_articles (L:=Fixture.libs) (sdk:=Memory.sdk) issue_path "archive"
       None (with_issue untyped_text)
     = inl (Lib (KeyError "m")).
Proof.
  assert (Hl : s3_iter_bucket (Sdk:=Memory.sdk) "archive" issue_path
                 (workers_used None) (with_issue untyped_text)
               = inr ((("archive", issue_key),
                       list_byte_of_string untyped_text)
                      :: [(("archive", issue_path ++ ".txt"),
                           list_byte_of_string "not json")]))
    by reflexivity.
  assert (Hd : utf8_decode (list_byte_of_string untyped_text)
               = inr untyped_text) by reflexivity.
  assert (Hj : json_loads untyped_text
               = inr (JDict [("i", JList ([item_json "a1" "article"]
                                          ++ JDict [("id", JStr "a2")]
                                          :: [item_json "a3" "article"]))]))
    by reflexivity.
  assert (Hbad : is_article (JDict [("id", JStr "a2")] : json Z)
                 = inl (KeyError "m")) by reflexivity.
  assert (Hpre : forall item : json Z,
             In item [item_json "a1" "article"] ->
             exists keep, is_article item = inr keep).
  { intros item [<- | []]. now exists true. }
  split; [exact Hbad |].
  exact (articles_stop_at_untyped_item (L:=Fixture.libs) (sdk:=Memory.sdk)
                _ _ _ _ _ _ _ _ _ _ _
           _ Hl Hd Hj eq_refl Hpre Hbad).
Defined.

Lemma articles_need_a_list_witness :
  json_loads dict_text
  = inr (JDict [("i", JDict [("a1", item_json "a1" "article")])])
  /\ s3_get_articles (L:=Fixture.libs) (sdk:=Memory.sdk) issue_path "archive"
       None (with_issue dict_text)
     = inl (Lib TypeError).
Proof.
  assert (Hl : s3_iter_bucket (Sdk:=Memory.sdk) "archive" issue_path
                 (workers_used None) (with_issue dict_text)
               = inr ((("archive", issue_key), list_byte_of_string dict_text)
                      :: [(("archive", issue_path ++ ".txt"),
                           list_byte_of_string "not json")]))
    by reflexivity.
  assert (Hd : utf8_decode (list_byte_of_string dict_text) = inr dict_text)
    by reflexivity.
  assert (Hj : json_loads dict_text
               = inr (JDict [("i", JDict [("a1", item_json "a1" "article")])]))
    by reflexivity.
  split; [exact Hj |].
  apply (articles_need_a_list (L:=Fixture.libs) (sdk:=Memory.sdk)
                _ _ _ _ _ _ _ _ _
           Hl Hd Hj eq_refl).
  left. now eexists _, _, _.
Defined.

Lemma key_keeps_name (bucket : string) :
  forall n, key_name (Sdk:=Memory.sdk) (get_key bucket n) = n.
Proof. reflexivity. Qed.

Lemma pages_are_readable :
  Forall (readable issue_id "archive" with_pages value_of)
    (map snd page_names).
Proof. repeat constructor; eexists; split; reflexivity. Qed.

Lemma pages_by_file_name_witness :
  Forall (readable issue_id "archive" with_pages value_of)
    (map snd page_names)
  /\ s3_get_pages issue_id page_names "archive" with_pages
     = inr [("p1.json", page_json "p1"); ("p2.json", page_json "new p2")].
Proof.
  split; [exact pages_are_readable |].
  exact (pages_by_file_name issue_id page_names "archive" with_pages value_of
           (key_keeps_name "archive") pages_are_readable).
Defined.

Lemma pages_fail_fast_witness :
  get_contents_as_string (get_key "archive" (page_key issue_id "p4.json"))
    with_pages
  = inl (ClientError "NoSuchKey")
  /\ s3_get_pages issue_id page_names_missing "archive" with_pages
     = inl (Lib (ClientError "NoSuchKey")).
Proof.
  assert (Hbad : get_contents_as_string
                   (get_key "archive" (page_key issue_id "p4.json")) with_pages
                 = inl (ClientError "NoSuchKey")) by reflexivity.
  assert (Hpre : Forall (readable issue_id "archive" with_pages value_of)
                   ["p1.json"])
    by (repeat constructor; eexists; split; reflexivity).
  split; [exact Hbad |].
  exact (pages_fail_fast issue_id page_names_missing "archive" with_pages
           value_of ["p1.json"] "p4.json" ["new/p2.json"]
           (ClientError "NoSuchKey") (key_keeps_name "archive") eq_refl Hpre
           (or_introl Hbad)).
Defined.

Lemma pages_later_wins_witness :
  file_name "old/p2.json" = file_name "new/p2.json"
  /\ exists pages,
       s3_get_pages issue_id page_names "archive" with_pages = inr pages
       /\ NoDup (dict_keys pages)
       /\ (forall k, In k (dict_keys pages)
                     <-> In k ["p1.json"; "p2.json"; "p2.json"])
       /\ dict_get pages "p2.json" = Some (page_json "new p2").
Proof.
  assert (Hlast : ~ In (file_name "new/p2.json") (map file_name []))
    by (intros []).
  split; [reflexivity |].
  exact (pages_later_wins issue_id page_names "archive" with_pages value_of
           ["p1.json"; "old/p2.json"] "new/p2.json" []
           (key_keeps_name "archive") pages_are_readable eq_refl Hlast).
Defined.

Lemma pages_asked_under_witness :
  page_key issue_id "p1.json" = "GDL/1900/01/01/a/p1.json"
  /\ s3_get_pages issue_id page_names_rooted "archive" with_pages
     = s3_get_pages "LES-1850-12-31-b" page_names_rooted "archive" with_pages.
Proof.
  assert (Hne : issue_id <> "") by discriminate.
  destruct (pages_asked_under (L:=Fixture.libs) (sdk:=Memory.sdk) issue_id
              page_names_rooted "archive" with_pages)
    as [Hkey Hany].
  split.
  - destruct (Hkey "p1.json" eq_refl Hne eq_refl eq_refl) as [H _]. exact H.
  - apply Hany. repeat constructor.
Defined.

Lemma versions_of_sized_witness :
  object_versions_filter "archive" "k" with_versions
  = inr [(Some 3, answered "v1" (Some "monday")); (None, refused);
         (Some 5, answered "v3" None)]
  /\ exists ids,
       get_s3_versions_client resource "archive" "k" with_versions = inr ids
       /\ Forall2 (id_of with_versions)
            [(Some 3, answered "v1" (Some "monday"));
             (Some 5, answered "v3" None)] ids
       /\ forall w,
            get_s3_resource w (Some default_host_url) = inr resource ->
            get_s3_versions w "archive" "k" with_versions = inr ids.
Proof.
  assert (Hv : object_versions_filter "archive" "k" with_versions
               = inr [(Some 3, answered "v1" (Some "monday")); (None, refused);
                      (Some 5, answered "v3" None)]) by reflexivity.
  assert (Hget : forall v : Version,
             In v [(Some 3, answered "v1" (Some "monday")); (None, refused);
                   (Some 5, answered "v3" None)] ->
             sized v = true ->
             exists answer, version_get v with_versions = inr answer).
  { intros v [<- | [<- | [<- | []]]] Hs;
      [eexists; reflexivity | discriminate Hs | eexists; reflexivity]. }
  split; [exact Hv |].
  exact (versions_of_sized resource "archive" "k" with_versions "archive" _
           eq_refl Hv Hget).
Defined.

Lemma versions_fail_fast_witness :
  object_versions_filter "archive" "k" with_lost_version
  = inr ([(Some 3, answered "v1" (Some "monday"))]
         ++ (Some 4, refused) :: [(Some 5, answered "v3" None)])%list
  /\ get_s3_versions_client resource "archive" "k" with_lost_version
     = inl (ClientError "MethodNotAllowed").
Proof.
  assert (Hv : object_versions_filter "archive" "k" with_lost_version
               = inr ([(Some 3, answered "v1" (Some "monday"))]
                      ++ (Some 4, refused)
                      :: [(Some 5, answered "v3" None)])%list)
    by reflexivity.
  assert (Hpre : forall x : Version,
             In x [(Some 3, answered "v1" (Some "monday"))] ->
             sized x = true ->
             exists answer, version_get x with_lost_version = inr answer).
  { intros x [<- | []] _. eexists. reflexivity. }
  split; [exact Hv |].
  exact (versions_fail_fast resource "archive" "k" with_lost_version "archive"
           _ _ _ _ eq_refl Hv Hpre eq_refl eq_refl).
Defined.

End OnTheMemoryStore.
